(** * pgauditlogtofile: rotation coordination and record writing

    A shallow embedding of [logtofile.c]: the rotation clock, the filename
    deriver, the per-backend file session, the shared force-rotation flag and
    the audit line formatter, followed by the properties that the design
    document states about them.

    Conventions.  C [int] is a 32-bit and [pg_time_t]/[long] a 64-bit signed
    integer; both are carried as [Z] and every arithmetic result is passed
    through [int32]/[int64], which write out the two's complement wrap.  A C
    string is a [string]; a pointer that may be NULL is an [option].  The
    statics of the translation unit are the fields of [state]; the values
    the code obtains from the operating system and from the PostgreSQL
    backend during one call of the hook are the fields of [env]. *)

From Stdlib Require Import ZArith List String Ascii Bool Lia.
From Stdlib Require Import DecimalString HexadecimalString.
Import ListNotations.

Local Open Scope string_scope.
Local Open Scope Z_scope.

(** ** Machine integers *)

Definition wrap (bits : Z) (z : Z) : Z :=
  (z + 2 ^ (bits - 1)) mod 2 ^ bits - 2 ^ (bits - 1).

Definition int32 (z : Z) : Z := wrap 32 z.
Definition int64 (z : Z) : Z := wrap 64 z.

Definition INT_MAX : Z := 2147483647.
Definition SECS_PER_MINUTE : Z := 60.
Definition MINS_PER_HOUR : Z := 60.
Definition HOURS_PER_DAY : Z := 24.

(** PostgreSQL's [MAXPGPATH] (pg_config_manual.h) and [PGERROR_VERBOSE],
    [InvalidBackendId] (elog.h, backendid.h). *)
Definition MAXPGPATH : Z := 1024.
Definition PGERROR_VERBOSE : Z := 2.
Definition InvalidBackendId : Z := -1.

Definition FORMATTED_TS_LEN : Z := 128.

(** ** Defines and prefix tables *)

Definition PGAUDIT_PREFIX_LINE : string := "AUDIT: ".

(** [sizeof(PGAUDIT_PREFIX_LINE) - 1] *)
Definition PGAUDIT_PREFIX_LINE_LENGTH : Z :=
  Z.of_nat (String.length PGAUDIT_PREFIX_LINE + 1) - 1.

Definition pgAuditLogToFileConnPrefixes : list string :=
  [ "connection authenticated: identity=";
    "connection authorized: user=";
    "connection received: host=";
    "password authentication failed for user";
    "replication connection authorized: user=" ].

Definition pgAuditLogToFileConnPrefixesLen : list Z := [35; 28; 26; 39; 40].

Definition pgAuditLogToFileDisconnPrefixes : list string :=
  [ "disconnection: session time:" ].

Definition pgAuditLogToFileDisconnPrefixesLen : list Z := [28].

(** ** Results of code that can trap *)

Inductive fault : Type :=
| DivisionByZero      (* integer [%] with a zero divisor *)
| NullDereference.    (* a NULL [char *] handed to a string routine *)

Inductive result (A : Type) : Type :=
| Ok (a : A)
| Fault (f : fault).

Arguments Ok {A} a.
Arguments Fault {A} f.

Definition bind {A B : Type} (r : result A) (k : A -> result B) : result B :=
  match r with
  | Ok a => k a
  | Fault f => Fault f
  end.

Declare Scope result_scope.
Notation "x <- r ;; k" := (bind r (fun x => k))
  (at level 61, r at next level, right associativity) : result_scope.
Notation "' p <- r ;; k" := (bind r (fun x => let p := x in k))
  (at level 61, p pattern, r at next level, right associativity) : result_scope.
Local Open Scope result_scope.

(** ** Data model *)

(** An open stdio stream.  [fopen(path, "a")] attaches the stream to the
    file named [path]; the stream keeps that attachment until [fclose]. *)
Inductive FILE : Type :=
| Stream (path : string).

Definition stream_path (f : FILE) : string :=
  match f with Stream p => p end.

(** What the backend did to the outside world; the trace [io] of a state
    lists these newest first. *)
Inductive io_event : Type :=
| IoMkdir (dir : string)
| IoFopen (path : string) (opened : bool)
| IoFclose (f : FILE)
| IoFwrite (f : FILE) (data : string) (rc : Z)
| IoWarning (text : string) (path : string).

(** The SHM structure behind [pgaudit_log_shm] (the lock is modelled with
    the interleaving semantics of module [Shm] below). *)
Record pgAuditLogToFileShm : Type := {
  force_rotation : bool
}.

Record state : Type := {
  (* SHM structure; [None] is the NULL pointer *)
  pgaudit_log_shm : option pgAuditLogToFileShm;
  (* Audit log file handler *)
  file_handler : option FILE;
  filename_in_use : string;
  filename : string;
  next_rotation_time : Z;
  (* GUC variables *)
  guc_pgaudit_log_directory : option string;
  guc_pgaudit_log_filename : option string;
  guc_pgaudit_log_rotation_age : Z;
  guc_pgaudit_log_connections : bool;
  guc_pgaudit_log_disconnections : bool;
  (* statics of pgauditlogtofile_create_audit_line *)
  log_line_number : Z;
  log_my_pid : Z;
  formatted_start_time : string;
  formatted_log_time : string;
  (* trace of external effects *)
  io : list io_event
}.

(** [struct Port], the fields the formatter reads. *)
Record Port : Type := {
  user_name : option string;
  database_name : option string;
  remote_host : option string;
  remote_port : option string
}.

(** [struct PGPROC], the fields the formatter reads. *)
Record PGPROC : Type := {
  backendId : Z;
  lxid : Z
}.

(** [ErrorData], the fields the hook and the formatter read or write. *)
Record ErrorData : Type := {
  output_to_server : bool;
  hide_stmt : bool;
  ed_filename : option string;
  lineno : Z;
  funcname : option string;
  sqlerrcode : Z;
  message : option string;
  detail : option string;
  detail_log : option string;
  hint : option string;
  ed_context : option string;
  cursorpos : Z;
  internalpos : Z;
  internalquery : option string
}.

(** Everything one call of the hook reads from outside the translation
    unit.  Each field stands for one call site, so no reading is shared
    between two calls that the C code makes separately. *)
Record env : Type := {
  (* [time(NULL)] in pgauditlogtofile_needs_rotate_file *)
  time_check : Z;
  (* [time(NULL)] in pgauditlogtofile_calculate_next_rotation_time *)
  time_calc : Z;
  (* [pg_localtime(&t, log_timezone)->tm_gmtoff] *)
  tm_gmtoff : Z -> Z;
  (* [pg_strftime(buf, maxsize, format, pg_localtime(&t, log_timezone))]:
     the text found in [buf] afterwards *)
  pg_strftime : Z -> string -> Z -> string;
  (* whether [fopen(path, "a")] returns a stream *)
  fopen_succeeds : string -> bool;
  (* the item count [fwrite] returns for this data *)
  fwrite_count : string -> Z;
  (* [gettimeofday] *)
  tv_sec : Z;
  tv_usec : Z;
  (* backend globals *)
  UsedShmemSegAddr : bool;
  MyProcPid : Z;
  MyStartTime : Z;
  MyProcPort : option Port;
  MyProc : option PGPROC;
  get_ps_display : string;
  GetTopTransactionIdIfAny : Z;
  debug_query_string : option string;
  Log_error_verbosity : Z;
  application_name : option string;
  prev_emit_log_hook : option (ErrorData -> ErrorData)
}.

(** *** Field updates *)

Definition set_shm (v : option pgAuditLogToFileShm) (s : state) : state :=
  {| pgaudit_log_shm := v;
     file_handler := file_handler s;
     filename_in_use := filename_in_use s;
     filename := filename s;
     next_rotation_time := next_rotation_time s;
     guc_pgaudit_log_directory := guc_pgaudit_log_directory s;
     guc_pgaudit_log_filename := guc_pgaudit_log_filename s;
     guc_pgaudit_log_rotation_age := guc_pgaudit_log_rotation_age s;
     guc_pgaudit_log_connections := guc_pgaudit_log_connections s;
     guc_pgaudit_log_disconnections := guc_pgaudit_log_disconnections s;
     log_line_number := log_line_number s;
     log_my_pid := log_my_pid s;
     formatted_start_time := formatted_start_time s;
     formatted_log_time := formatted_log_time s;
     io := io s |}.

Definition set_file_handler (v : option FILE) (s : state) : state :=
  {| pgaudit_log_shm := pgaudit_log_shm s;
     file_handler := v;
     filename_in_use := filename_in_use s;
     filename := filename s;
     next_rotation_time := next_rotation_time s;
     guc_pgaudit_log_directory := guc_pgaudit_log_directory s;
     guc_pgaudit_log_filename := guc_pgaudit_log_filename s;
     guc_pgaudit_log_rotation_age := guc_pgaudit_log_rotation_age s;
     guc_pgaudit_log_connections := guc_pgaudit_log_connections s;
     guc_pgaudit_log_disconnections := guc_pgaudit_log_disconnections s;
     log_line_number := log_line_number s;
     log_my_pid := log_my_pid s;
     formatted_start_time := formatted_start_time s;
     formatted_log_time := formatted_log_time s;
     io := io s |}.

Definition set_filename_in_use (v : string) (s : state) : state :=
  {| pgaudit_log_shm := pgaudit_log_shm s;
     file_handler := file_handler s;
     filename_in_use := v;
     filename := filename s;
     next_rotation_time := next_rotation_time s;
     guc_pgaudit_log_directory := guc_pgaudit_log_directory s;
     guc_pgaudit_log_filename := guc_pgaudit_log_filename s;
     guc_pgaudit_log_rotation_age := guc_pgaudit_log_rotation_age s;
     guc_pgaudit_log_connections := guc_pgaudit_log_connections s;
     guc_pgaudit_log_disconnections := guc_pgaudit_log_disconnections s;
     log_line_number := log_line_number s;
     log_my_pid := log_my_pid s;
     formatted_start_time := formatted_start_time s;
     formatted_log_time := formatted_log_time s;
     io := io s |}.

Definition set_filename (v : string) (s : state) : state :=
  {| pgaudit_log_shm := pgaudit_log_shm s;
     file_handler := file_handler s;
     filename_in_use := filename_in_use s;
     filename := v;
     next_rotation_time := next_rotation_time s;
     guc_pgaudit_log_directory := guc_pgaudit_log_directory s;
     guc_pgaudit_log_filename := guc_pgaudit_log_filename s;
     guc_pgaudit_log_rotation_age := guc_pgaudit_log_rotation_age s;
     guc_pgaudit_log_connections := guc_pgaudit_log_connections s;
     guc_pgaudit_log_disconnections := guc_pgaudit_log_disconnections s;
     log_line_number := log_line_number s;
     log_my_pid := log_my_pid s;
     formatted_start_time := formatted_start_time s;
     formatted_log_time := formatted_log_time s;
     io := io s |}.

Definition set_next_rotation_time (v : Z) (s : state) : state :=
  {| pgaudit_log_shm := pgaudit_log_shm s;
     file_handler := file_handler s;
     filename_in_use := filename_in_use s;
     filename := filename s;
     next_rotation_time := v;
     guc_pgaudit_log_directory := guc_pgaudit_log_directory s;
     guc_pgaudit_log_filename := guc_pgaudit_log_filename s;
     guc_pgaudit_log_rotation_age := guc_pgaudit_log_rotation_age s;
     guc_pgaudit_log_connections := guc_pgaudit_log_connections s;
     guc_pgaudit_log_disconnections := guc_pgaudit_log_disconnections s;
     log_line_number := log_line_number s;
     log_my_pid := log_my_pid s;
     formatted_start_time := formatted_start_time s;
     formatted_log_time := formatted_log_time s;
     io := io s |}.

Definition set_line_statics (n pid : Z) (start : string) (s : state) : state :=
  {| pgaudit_log_shm := pgaudit_log_shm s;
     file_handler := file_handler s;
     filename_in_use := filename_in_use s;
     filename := filename s;
     next_rotation_time := next_rotation_time s;
     guc_pgaudit_log_directory := guc_pgaudit_log_directory s;
     guc_pgaudit_log_filename := guc_pgaudit_log_filename s;
     guc_pgaudit_log_rotation_age := guc_pgaudit_log_rotation_age s;
     guc_pgaudit_log_connections := guc_pgaudit_log_connections s;
     guc_pgaudit_log_disconnections := guc_pgaudit_log_disconnections s;
     log_line_number := n;
     log_my_pid := pid;
     formatted_start_time := start;
     formatted_log_time := formatted_log_time s;
     io := io s |}.

Definition set_formatted_log_time (v : string) (s : state) : state :=
  {| pgaudit_log_shm := pgaudit_log_shm s;
     file_handler := file_handler s;
     filename_in_use := filename_in_use s;
     filename := filename s;
     next_rotation_time := next_rotation_time s;
     guc_pgaudit_log_directory := guc_pgaudit_log_directory s;
     guc_pgaudit_log_filename := guc_pgaudit_log_filename s;
     guc_pgaudit_log_rotation_age := guc_pgaudit_log_rotation_age s;
     guc_pgaudit_log_connections := guc_pgaudit_log_connections s;
     guc_pgaudit_log_disconnections := guc_pgaudit_log_disconnections s;
     log_line_number := log_line_number s;
     log_my_pid := log_my_pid s;
     formatted_start_time := formatted_start_time s;
     formatted_log_time := v;
     io := io s |}.

Definition log_io (ev : io_event) (s : state) : state :=
  {| pgaudit_log_shm := pgaudit_log_shm s;
     file_handler := file_handler s;
     filename_in_use := filename_in_use s;
     filename := filename s;
     next_rotation_time := next_rotation_time s;
     guc_pgaudit_log_directory := guc_pgaudit_log_directory s;
     guc_pgaudit_log_filename := guc_pgaudit_log_filename s;
     guc_pgaudit_log_rotation_age := guc_pgaudit_log_rotation_age s;
     guc_pgaudit_log_connections := guc_pgaudit_log_connections s;
     guc_pgaudit_log_disconnections := guc_pgaudit_log_disconnections s;
     log_line_number := log_line_number s;
     log_my_pid := log_my_pid s;
     formatted_start_time := formatted_start_time s;
     formatted_log_time := formatted_log_time s;
     io := ev :: io s |}.

Definition set_output_to_server (v : bool) (e : ErrorData) : ErrorData :=
  {| output_to_server := v;
     hide_stmt := hide_stmt e;
     ed_filename := ed_filename e;
     lineno := lineno e;
     funcname := funcname e;
     sqlerrcode := sqlerrcode e;
     message := message e;
     detail := detail e;
     detail_log := detail_log e;
     hint := hint e;
     ed_context := ed_context e;
     cursorpos := cursorpos e;
     internalpos := internalpos e;
     internalquery := internalquery e |}.

Definition set_gucs (dir pat : option string) (age : Z) (conn disc : bool)
    (s : state) : state :=
  {| pgaudit_log_shm := pgaudit_log_shm s;
     file_handler := file_handler s;
     filename_in_use := filename_in_use s;
     filename := filename s;
     next_rotation_time := next_rotation_time s;
     guc_pgaudit_log_directory := dir;
     guc_pgaudit_log_filename := pat;
     guc_pgaudit_log_rotation_age := age;
     guc_pgaudit_log_connections := conn;
     guc_pgaudit_log_disconnections := disc;
     log_line_number := log_line_number s;
     log_my_pid := log_my_pid s;
     formatted_start_time := formatted_start_time s;
     formatted_log_time := formatted_log_time s;
     io := io s |}.

(** ** C strings *)

(** [s + n] for a [char *s] with [n <= strlen(s)]. *)
Fixpoint string_drop (n : nat) (s : string) : string :=
  match n, s with
  | O, _ => s
  | S n', String _ r => string_drop n' r
  | S _, EmptyString => EmptyString
  end.

Fixpoint string_take (n : nat) (s : string) : string :=
  match n, s with
  | S n', String c r => String c (string_take n' r)
  | _, _ => EmptyString
  end.

(** The byte a [char *] points at; the end of the string is the NUL. *)
Definition head_byte (s : string) : Z :=
  match s with
  | EmptyString => 0
  | String c _ => Z.of_N (N_of_ascii c)
  end.

Definition tail_bytes (s : string) : string :=
  match s with
  | EmptyString => EmptyString
  | String _ r => r
  end.

(** The ASCII branch of the case folding in PostgreSQL's pgstrcasecmp.c.
    A byte with the high bit set is folded there with the locale's
    [tolower], which never yields an ASCII byte; every string this file
    compares against is pure ASCII, so whether the result is zero does not
    depend on that branch and the byte is left as it is. *)
Definition fold_case (ch : Z) : Z :=
  if (65 <=? ch) && (ch <=? 90) then ch + (97 - 65) else ch.

(** [pg_strncasecmp(s1, s2, n)] of PostgreSQL's port library. *)
Fixpoint pg_strncasecmp (s1 s2 : string) (n : nat) : Z :=
  match n with
  | O => 0
  | S n' =>
      let ch1 := head_byte s1 in
      let ch2 := head_byte s2 in
      if ch1 =? ch2 then
        if ch1 =? 0 then 0
        else pg_strncasecmp (tail_bytes s1) (tail_bytes s2) n'
      else
        let ch1 := fold_case ch1 in
        let ch2 := fold_case ch2 in
        if ch1 =? ch2 then
          if ch1 =? 0 then 0
          else pg_strncasecmp (tail_bytes s1) (tail_bytes s2) n'
        else ch1 - ch2
  end.

(** [snprintf(buf, size, "%s", s)]: at most [size - 1] characters are kept. *)
Definition snprintf_s (size : Z) (s : string) : string :=
  string_take (Z.to_nat (size - 1)) s.

(** *** printf conversions *)

(** ["%d"] and ["%ld"] *)
Definition fmt_d (z : Z) : string :=
  DecimalString.NilEmpty.string_of_int (Z.to_int z).

(** ["%u"] of a 32-bit value *)
Definition fmt_u (z : Z) : string :=
  DecimalString.NilEmpty.string_of_uint (N.to_uint (Z.to_N (z mod 2 ^ 32))).

(** ["%x"] of a 32-bit value *)
Definition fmt_x (z : Z) : string :=
  HexadecimalString.NilEmpty.string_of_uint
    (N.to_hex_uint (Z.to_N (z mod 2 ^ 32))).

(** ["%lx"] of a 64-bit value *)
Definition fmt_lx (z : Z) : string :=
  HexadecimalString.NilEmpty.string_of_uint
    (N.to_hex_uint (Z.to_N (z mod 2 ^ 64))).

(** ["%s"]: snprintf prints a NULL [char *] as ["(null)"]. *)
Definition fmt_s (o : option string) : string :=
  match o with
  | Some s => s
  | None => "(null)"
  end.

(** ["%03d"] *)
Definition fmt_03d (z : Z) : string :=
  let digits := fmt_d z in
  match String.length digits with
  | 0%nat => "000" ++ digits
  | 1%nat => "00" ++ digits
  | 2%nat => "0" ++ digits
  | _ => digits
  end.

(** [unpack_sql_state] of elog.c: five characters, six bits each, offset
    from ['0']. *)
Definition PGUNSIXBIT (val : Z) : ascii :=
  ascii_of_N (Z.to_N (Z.land val 63 + 48)).

Fixpoint unpack_sql_state_from (i : nat) (sql_state : Z) : string :=
  match i with
  | O => EmptyString
  | S i' =>
      String (PGUNSIXBIT sql_state)
             (unpack_sql_state_from i' (Z.shiftr sql_state 6))
  end.

Definition unpack_sql_state (sql_state : Z) : string :=
  unpack_sql_state_from 5 sql_state.

(** [memcpy(dst + off, src, strlen(src))] into the text of [dst].  The
    only caller pastes four bytes at offset 19 of a text that the format
    makes at least 24 characters long; a text too short for the bytes to
    land inside it is returned unchanged. *)
Definition memcpy_at (off : nat) (src dst : string) : string :=
  if (off + String.length src <=? String.length dst)%nat
  then string_take off dst ++ src
       ++ string_drop (off + String.length src) dst
  else dst.

(** *** StringInfo *)

Definition appendStringInfoString (buf s : string) : string := buf ++ s.

Definition appendStringInfoCharMacro (buf : string) (c : ascii) : string :=
  buf ++ String c EmptyString.

Definition appendStringInfoOpt (buf : string) (o : option string) : string :=
  match o with
  | Some s => appendStringInfoString buf s
  | None => buf
  end.

Definition is_some {A : Type} (o : option A) : bool :=
  match o with Some _ => true | None => false end.

Definition comma : ascii := ","%char.
Definition newline : ascii := ascii_of_nat 10.

(** ** Rotation clock *)

(** The arithmetic of pgauditlogtofile_calculate_next_rotation_time on the
    reading [now] of the clock, the zone offset [gmtoff] and the GUC
    [rotation_age].  C's [%] truncates towards zero ([Z.rem]) and traps on a
    zero divisor. *)
Definition rotation_clock (now gmtoff rotation_age : Z) : result Z :=
  let rotinterval := int32 (rotation_age * SECS_PER_MINUTE) in
  let now := int64 (now + gmtoff) in
  if rotinterval =? 0 then Fault DivisionByZero
  else
    let now := int64 (now - Z.rem now rotinterval) in
    let now := int64 (now + rotinterval) in
    let now := int64 (now - gmtoff) in
    Ok now.

Definition pgauditlogtofile_calculate_next_rotation_time
    (e : env) (s : state) : result state :=
  let now := int64 (time_calc e) in
  nrt <- rotation_clock now (tm_gmtoff e now)
           (guc_pgaudit_log_rotation_age s) ;;
  Ok (set_next_rotation_time nrt s).

(** ** Filename deriver *)

(** The window start that pgauditlogtofile_calculate_filename renders. *)
Definition current_rotation_time (s : state) : Z :=
  int64 (next_rotation_time s
         - int32 (guc_pgaudit_log_rotation_age s * SECS_PER_MINUTE)).

(** The directory goes through ["%s/"], which prints a NULL pointer as
    ["(null)"]; the pattern is handed to pg_strftime, which reads it. *)
Definition pgauditlogtofile_calculate_filename
    (e : env) (s : state) : result state :=
  let buf :=
    snprintf_s MAXPGPATH (fmt_s (guc_pgaudit_log_directory s) ++ "/") in
  let len := Z.of_nat (String.length buf) in
  match guc_pgaudit_log_filename s with
  | Some pattern =>
      Ok (set_filename
            (buf ++ pg_strftime e (MAXPGPATH - len) pattern
                      (current_rotation_time s)) s)
  | None => Fault NullDereference
  end.

(** ** File session *)

Definition pgauditlogtofile_close_file (s : state) : state :=
  match file_handler s with
  | Some f => set_file_handler None (log_io (IoFclose f) s)
  | None => s
  end.

Definition pgauditlogtofile_is_open_file (s : state) : bool :=
  match file_handler s with
  | Some _ => true
  | None => false
  end.

(** The umask bracket around [fopen] only affects the mode of a file that
    gets created; it is not part of the trace. *)
Definition pgauditlogtofile_open_file (e : env) (s : state) : bool * state :=
  let s :=
    match guc_pgaudit_log_directory s with
    | Some dir => log_io (IoMkdir dir) s
    | None => s
    end in
  if fopen_succeeds e (filename s) then
    let s := log_io (IoFopen (filename s) true) s in
    let s := set_file_handler (Some (Stream (filename s))) s in
    (true, set_filename_in_use (filename s) s)
  else
    let s := log_io (IoFopen (filename s) false) s in
    let s := set_file_handler None s in
    (false, log_io (IoWarning "could not open log file" (filename s)) s).

(** ** Shared rotation state, as one backend sees it *)

Definition pgauditlogtofile_request_rotation
    (e : env) (s : state) : result state :=
  if negb (UsedShmemSegAddr e) then Ok s
  else
    match pgaudit_log_shm s with
    | None => Fault NullDereference
    | Some shm =>
        if negb (force_rotation shm)
        then Ok (set_shm (Some {| force_rotation := true |}) s)
        else Ok s
    end.

(** ** GUC registration ([_PG_init]) and assign hooks *)

Record int_guc : Type := {
  boot_value : Z;
  min_value : Z;
  max_value : Z
}.

(** [DefineCustomIntVariable("pgaudit.log_rotation_age", ...)]; the check
    hook is NULL. *)
Definition pgaudit_log_rotation_age_guc : int_guc :=
  {| boot_value := HOURS_PER_DAY * MINS_PER_HOUR;
     min_value := 0;
     max_value := INT_MAX / SECS_PER_MINUTE |}.

(** The range test guc.c applies to an integer setting that has no check
    hook. *)
Definition guc_int_accepts (g : int_guc) (newval : Z) : bool :=
  (min_value g <=? newval) && (newval <=? max_value g).



(** A new value reaches the assign hook only if guc.c accepted it. *)
Definition guc_assign_rotation_age (newval : Z)
    (e : env) (s : state) : result state :=
  if guc_int_accepts pgaudit_log_rotation_age_guc newval then
    s <- pgauditlogtofile_request_rotation e s ;;
    Ok (set_gucs (guc_pgaudit_log_directory s) (guc_pgaudit_log_filename s)
          newval (guc_pgaudit_log_connections s)
          (guc_pgaudit_log_disconnections s) s)
  else Ok s.

(** ** SHMEM startup hook *)

(** [existing] is the structure [ShmemInitStruct] finds, if any. *)
Definition pgauditlogtofile_shmem_startup
    (existing : option pgAuditLogToFileShm) (e : env) (s : state)
    : result state :=
  match existing with
  | Some shm => Ok (set_shm (Some shm) s)
  | None =>
      let s := set_shm (Some {| force_rotation := false |}) s in
      s <- pgauditlogtofile_calculate_next_rotation_time e s ;;
      pgauditlogtofile_calculate_filename e s
  end.

(** ** Interception *)

Definition pgauditlogtofile_is_enabled (s : state) : bool :=
  match pgaudit_log_shm s,
        guc_pgaudit_log_directory s, guc_pgaudit_log_filename s with
  | Some _, Some dir, Some pattern =>
      if (String.length dir =? 0)%nat || (String.length pattern =? 0)%nat
      then false else true
  | _, _, _ => false
  end.

(** One of the two [for] loops of pgauditlogtofile_is_prefixed: the
    condition [!found && i < n] and the body [found = ... == 0]. *)
Fixpoint prefix_loop (msg : string) (prefixes : list string) (lens : list Z)
    (found : bool) : bool :=
  match prefixes, lens with
  | p :: prefixes', l :: lens' =>
      if negb found
      then prefix_loop msg prefixes' lens'
             (pg_strncasecmp msg p (Z.to_nat l) =? 0)
      else found
  | _, _ => found
  end.

Definition pgauditlogtofile_is_prefixed (s : state) (msg : string) : bool :=
  let found := false in
  let found :=
    if guc_pgaudit_log_connections s
    then prefix_loop msg pgAuditLogToFileConnPrefixes
           pgAuditLogToFileConnPrefixesLen found
    else found in
  let found :=
    if guc_pgaudit_log_disconnections s
    then prefix_loop msg pgAuditLogToFileDisconnPrefixes
           pgAuditLogToFileDisconnPrefixesLen found
    else found in
  found.

(** ** Rotation coordinator *)

Definition pgauditlogtofile_needs_rotate_file
    (e : env) (s : state) : result (bool * state) :=
  match pgaudit_log_shm s with
  | None => Fault NullDereference
  | Some shm =>
      (* Rotate if we are forcing *)
      if force_rotation shm then
        Ok (true, set_shm (Some {| force_rotation := false |}) s)
      (* Rotate if rotation_age is exceeded *)
      else if int64 (time_check e) >=? next_rotation_time s then
        s <- pgauditlogtofile_calculate_next_rotation_time e s ;;
        Ok (true, s)
      (* Rotate if the name is different to this backend copy *)
      else if negb (String.eqb (filename_in_use s) (filename s)) then
        Ok (true, s)
      else Ok (false, s)
  end.

(** ** Record formatter *)

Definition pgauditlogtofile_format_start_time (e : env) (s : state) : string :=
  pg_strftime e FORMATTED_TS_LEN "%Y-%m-%d %H:%M:%S %Z" (MyStartTime e).

Definition pgauditlogtofile_format_log_time (e : env) (s : state) : state :=
  let text :=
    pg_strftime e FORMATTED_TS_LEN "%Y-%m-%d %H:%M:%S     %Z" (tv_sec e) in
  let msbuf := "." ++ fmt_03d (int32 (Z.quot (tv_usec e) 1000)) in
  set_formatted_log_time (memcpy_at 19 msbuf text) s.

Definition pgauditlogtofile_create_audit_line
    (buf : string) (e : env) (edata : ErrorData) (exclude_nchars : Z)
    (s : state) : result (string * state) :=
  match message edata with
  | None => Fault NullDereference
  | Some msg =>
  let s :=
    if negb (log_my_pid s =? MyProcPid e)
    then set_line_statics 0 (MyProcPid e)
           (pgauditlogtofile_format_start_time e s) s
    else s in
  let s :=
    set_line_statics (int64 (log_line_number s + 1)) (log_my_pid s)
      (formatted_start_time s) s in
  (* timestamp with milliseconds *)
  let s := pgauditlogtofile_format_log_time e s in
  let buf := appendStringInfoString buf (formatted_log_time s) in
  let buf := appendStringInfoCharMacro buf comma in
  (* username *)
  let buf :=
    match MyProcPort e with
    | Some port => appendStringInfoOpt buf (user_name port)
    | None => buf
    end in
  let buf := appendStringInfoCharMacro buf comma in
  (* database name *)
  let buf :=
    match MyProcPort e with
    | Some port => appendStringInfoOpt buf (database_name port)
    | None => buf
    end in
  let buf := appendStringInfoCharMacro buf comma in
  (* Process id *)
  let buf := appendStringInfoString buf (fmt_d (log_my_pid s)) in
  let buf := appendStringInfoCharMacro buf comma in
  (* Remote host and port *)
  let buf :=
    match MyProcPort e with
    | Some port =>
        match remote_host port with
        | Some host =>
            let buf := appendStringInfoString buf host in
            match remote_port port with
            | Some rport =>
                if negb (head_byte rport =? 0) then
                  let buf := appendStringInfoCharMacro buf ":"%char in
                  appendStringInfoString buf rport
                else buf
            | None => buf
            end
        | None => buf
        end
    | None => buf
    end in
  let buf := appendStringInfoCharMacro buf comma in
  (* session id *)
  let buf :=
    appendStringInfoString buf
      (fmt_lx (MyStartTime e) ++ "." ++ fmt_x (log_my_pid s)) in
  let buf := appendStringInfoCharMacro buf comma in
  (* Line number *)
  let buf := appendStringInfoString buf (fmt_d (log_line_number s)) in
  let buf := appendStringInfoCharMacro buf comma in
  (* PS display *)
  let buf :=
    match MyProcPort e with
    | Some _ => appendStringInfoString buf (get_ps_display e)
    | None => buf
    end in
  let buf := appendStringInfoCharMacro buf comma in
  (* session start timestamp *)
  let buf := appendStringInfoString buf (formatted_start_time s) in
  let buf := appendStringInfoCharMacro buf comma in
  (* Virtual transaction id *)
  let buf :=
    match MyProc e with
    | Some proc =>
        if negb (backendId proc =? InvalidBackendId)
        then appendStringInfoString buf
               (fmt_d (backendId proc) ++ "/" ++ fmt_u (lxid proc))
        else buf
    | None => buf
    end in
  let buf := appendStringInfoCharMacro buf comma in
  (* Transaction id *)
  let buf := appendStringInfoString buf (fmt_u (GetTopTransactionIdIfAny e)) in
  let buf := appendStringInfoCharMacro buf comma in
  (* SQL state code *)
  let buf := appendStringInfoString buf (unpack_sql_state (sqlerrcode edata)) in
  let buf := appendStringInfoCharMacro buf comma in
  (* errmessage *)
  let buf :=
    appendStringInfoString buf (string_drop (Z.to_nat exclude_nchars) msg) in
  let buf := appendStringInfoCharMacro buf comma in
  (* errdetail or errdetail_log *)
  let buf :=
    match detail_log edata with
    | Some d => appendStringInfoString buf d
    | None => appendStringInfoOpt buf (detail edata)
    end in
  let buf := appendStringInfoCharMacro buf comma in
  (* errhint *)
  let buf := appendStringInfoOpt buf (hint edata) in
  let buf := appendStringInfoCharMacro buf comma in
  (* internal query *)
  let buf := appendStringInfoOpt buf (internalquery edata) in
  let buf := appendStringInfoCharMacro buf comma in
  (* if printed internal query, print internal pos too *)
  let buf :=
    if (internalpos edata >? 0) && is_some (internalquery edata)
    then appendStringInfoString buf (fmt_d (internalpos edata))
    else buf in
  let buf := appendStringInfoCharMacro buf comma in
  (* errcontext *)
  let buf := appendStringInfoOpt buf (ed_context edata) in
  let buf := appendStringInfoCharMacro buf comma in
  (* user query --- only reported if not disabled by the caller *)
  let print_stmt :=
    if is_some (debug_query_string e) && negb (hide_stmt edata)
    then true else false in
  let buf :=
    if print_stmt then appendStringInfoOpt buf (debug_query_string e)
    else buf in
  let buf := appendStringInfoCharMacro buf comma in
  let buf :=
    if print_stmt && (cursorpos edata >? 0)
    then appendStringInfoString buf (fmt_d (cursorpos edata))
    else buf in
  let buf := appendStringInfoCharMacro buf comma in
  (* file error location *)
  let buf :=
    if Log_error_verbosity e >=? PGERROR_VERBOSE then
      let msgbuf :=
        match funcname edata, ed_filename edata with
        | Some fn, Some file =>
            fn ++ ", " ++ file ++ ":" ++ fmt_d (lineno edata)
        | None, Some file => file ++ ":" ++ fmt_d (lineno edata)
        | _, None => ""
        end in
      appendStringInfoString buf msgbuf
    else buf in
  let buf := appendStringInfoCharMacro buf comma in
  (* application name *)
  let buf := appendStringInfoOpt buf (application_name e) in
  let buf := appendStringInfoCharMacro buf newline in
  Ok (buf, s)
  end.

(** ** Writing *)

Definition pgauditlogtofile_write_audit
    (e : env) (edata : ErrorData) (exclude_nchars : Z) (s : state)
    : result (bool * state) :=
  ' (buf, s) <-
    pgauditlogtofile_create_audit_line "" e edata exclude_nchars s ;;
  match file_handler s with
  | None => Fault NullDereference
  | Some f =>
      let len := int32 (Z.of_nat (String.length buf)) in
      let rc := int32 (fwrite_count e buf) in
      let s := log_io (IoFwrite f buf rc) s in
      if negb (rc =? len) then
        Ok (false,
            log_io (IoWarning "could not write audit log file" (filename s)) s)
      else Ok (true, s)
  end.

Definition pgauditlogtofile_record_audit
    (e : env) (edata : ErrorData) (exclude_nchars : Z) (s : state)
    : result (bool * state) :=
  ' (rotate, s) <- pgauditlogtofile_needs_rotate_file e s ;;
  s <- (if rotate then
          (* calculate_filename will generate a new file name *)
          s <- pgauditlogtofile_calculate_filename e s ;;
          Ok (pgauditlogtofile_close_file s)
        else Ok s) ;;
  if negb (pgauditlogtofile_is_open_file s) then
    let '(opened, s) := pgauditlogtofile_open_file e s in
    if negb opened then Ok (false, s)
    else pgauditlogtofile_write_audit e edata exclude_nchars s
  else pgauditlogtofile_write_audit e edata exclude_nchars s.

(** ** The emit_log hook *)

(** The first [if]/[else if] of the hook: the value it leaves in
    [exclude_nchars] and the event with its flag as marked. *)
Definition emit_log_intercept (s : state) (edata : ErrorData) (msg : string)
    : Z * ErrorData :=
  let exclude_nchars := -1 in
  if pg_strncasecmp msg PGAUDIT_PREFIX_LINE
       (Z.to_nat PGAUDIT_PREFIX_LINE_LENGTH) =? 0
  then (PGAUDIT_PREFIX_LINE_LENGTH, set_output_to_server false edata)
  else if pgauditlogtofile_is_prefixed s msg
  then (0, set_output_to_server false edata)
  else (exclude_nchars, edata).

(** The body of the hook up to the call of the previous hook. *)
Definition emit_log_body (e : env) (edata : ErrorData) (s : state)
    : result (ErrorData * state) :=
  if pgauditlogtofile_is_enabled s then
    match message edata with
    | None => Fault NullDereference
    | Some msg =>
        let '(exclude_nchars, edata) := emit_log_intercept s edata msg in
        if exclude_nchars >=? 0 then
          ' (recorded, s) <-
            pgauditlogtofile_record_audit e edata exclude_nchars s ;;
          if negb recorded
          then (* failed to record in audit, record in server log *)
            Ok (set_output_to_server true edata, s)
          else Ok (edata, s)
        else Ok (edata, s)
    end
  else Ok (edata, s).

Definition pgauditlogtofile_emit_log (e : env) (edata : ErrorData) (s : state)
    : result (ErrorData * state) :=
  ' (edata, s) <- emit_log_body e edata s ;;
  match prev_emit_log_hook e with
  | Some hook => Ok (hook edata, s)
  | None => Ok (edata, s)
  end.

(** ** The force-rotation flag under interleaving

    Backends run pgauditlogtofile_request_rotation and the first test of
    pgauditlogtofile_needs_rotate_file concurrently.  Each of the two has
    the same shape: an unlocked read of [force_rotation], then
    [LWLockAcquire], the store, [LWLockRelease].  A step of the semantics
    is one of these four statements in one backend. *)

Module Shm.

Definition tid : Type := nat.

(** Where a backend is. *)
Inductive pc : Type :=
| Idle          (* in neither procedure *)
| ReqAcquire    (* request_rotation: read [false], before LWLockAcquire *)
| ReqSet        (* request_rotation: before [force_rotation = true] *)
| ReqRelease    (* request_rotation: before LWLockRelease *)
| ChkAcquire    (* needs_rotate_file: read [true], before LWLockAcquire *)
| ChkClear      (* needs_rotate_file: before [force_rotation = false] *)
| ChkRelease.   (* needs_rotate_file: before LWLockRelease, then return true *)

Record config : Type := {
  flag : bool;              (* pgaudit_log_shm->force_rotation *)
  lock : option tid;        (* holder of pgaudit_log_shm->lock *)
  pcs : tid -> pc
}.

(** What a backend is asked to do next. *)
Inductive call : Type :=
| Request       (* enter pgauditlogtofile_request_rotation *)
| Check         (* enter pgauditlogtofile_needs_rotate_file *)
| Step.         (* execute the next statement of the procedure it is in *)

Inductive event : Type :=
| EvRequestTest (t : tid) (saw : bool)   (* [if (!force_rotation)] *)
| EvCheckTest (t : tid) (saw : bool)     (* [if (force_rotation)] *)
| EvAcquire (t : tid)
| EvSetTrue (t : tid)
| EvSetFalse (t : tid)
| EvRelease (t : tid).

Definition set_pc (t : tid) (p : pc) (c : config) : tid -> pc :=
  fun u => if Nat.eqb u t then p else pcs c u.

(** One statement of backend [t]; [None] when the move is not possible
    (wrong place, or the lock is taken and LWLockAcquire waits). *)
Definition exec (t : tid) (a : call) (c : config) : option (event * config) :=
  match a, pcs c t with
  | Request, Idle =>
      if negb (flag c)
      then Some (EvRequestTest t false,
                 {| flag := flag c; lock := lock c;
                    pcs := set_pc t ReqAcquire c |})
      else Some (EvRequestTest t true, c)
  | Check, Idle =>
      if flag c
      then Some (EvCheckTest t true,
                 {| flag := flag c; lock := lock c;
                    pcs := set_pc t ChkAcquire c |})
      else Some (EvCheckTest t false, c)
  | Step, ReqAcquire =>
      match lock c with
      | None => Some (EvAcquire t,
                      {| flag := flag c; lock := Some t;
                         pcs := set_pc t ReqSet c |})
      | Some _ => None
      end
  | Step, ReqSet =>
      Some (EvSetTrue t,
            {| flag := true; lock := lock c; pcs := set_pc t ReqRelease c |})
  | Step, ReqRelease =>
      Some (EvRelease t,
            {| flag := flag c; lock := None; pcs := set_pc t Idle c |})
  | Step, ChkAcquire =>
      match lock c with
      | None => Some (EvAcquire t,
                      {| flag := flag c; lock := Some t;
                         pcs := set_pc t ChkClear c |})
      | Some _ => None
      end
  | Step, ChkClear =>
      Some (EvSetFalse t,
            {| flag := false; lock := lock c; pcs := set_pc t ChkRelease c |})
  | Step, ChkRelease =>
      Some (EvRelease t,
            {| flag := flag c; lock := None; pcs := set_pc t Idle c |})
  | _, _ => None
  end.

(** A schedule is run from the left; the events come out in order. *)
Fixpoint run (sched : list (tid * call)) (c : config)
    : option (list event * config) :=
  match sched with
  | [] => Some ([], c)
  | (t, a) :: rest =>
      match exec t a c with
      | None => None
      | Some (ev, c1) =>
          match run rest c1 with
          | None => None
          | Some (evs, c2) => Some (ev :: evs, c2)
          end
      end
  end.

(** The state pgauditlogtofile_shmem_startup leaves. *)
Definition init : config :=
  {| flag := false; lock := None; pcs := fun _ => Idle |}.

(** Counting in a trace. *)
Definition is_set_true (ev : event) : bool :=
  match ev with EvSetTrue _ => true | _ => false end.

Definition is_request_call (ev : event) : bool :=
  match ev with EvRequestTest _ _ => true | _ => false end.

Definition is_seen_by (t : tid) (ev : event) : bool :=
  match ev with
  | EvCheckTest u true => Nat.eqb u t
  | _ => false
  end.

Definition is_set_true_by (t : tid) (ev : event) : bool :=
  match ev with EvSetTrue u => Nat.eqb u t | _ => false end.

Definition is_request_by (t : tid) (ev : event) : bool :=
  match ev with EvRequestTest u false => Nat.eqb u t | _ => false end.

Definition is_seen (ev : event) : bool :=
  match ev with EvCheckTest _ true => true | _ => false end.

Definition count (p : event -> bool) (evs : list event) : nat :=
  List.length (List.filter p evs).

(** A backend at one of these places is inside the critical section. *)
Definition in_critical (p : pc) : bool :=
  match p with
  | ReqSet | ReqRelease | ChkClear | ChkRelease => true
  | _ => false
  end.

(** Backend [t] has seen the flag set and not yet cleared it. *)
Definition consuming (p : pc) : bool :=
  match p with
  | ChkAcquire | ChkClear => true
  | _ => false
  end.

(** The flag is set and backend [t] has not seen that yet. *)
Definition pending (t : tid) (c : config) : nat :=
  if flag c && negb (consuming (pcs c t)) then 1%nat else 0%nat.

(** Backend [t] is in request_rotation and has not stored yet. *)
Definition storing (p : pc) : nat :=
  match p with
  | ReqAcquire | ReqSet => 1%nat
  | _ => 0%nat
  end.

Definition lock_invariant (c : config) : Prop :=
  forall t, in_critical (pcs c t) = true -> lock c = Some t.

(** Whoever holds the lock is inside the critical section. *)
Definition lock_owner_invariant (c : config) : Prop :=
  forall t, lock c = Some t -> in_critical (pcs c t) = true.

Definition b2n (b : bool) : nat := if b then 1%nat else 0%nat.

(** The reading of "observed and cleared atomically under the lock": a
    rotation check that finds the flag set holds the lock while it looks. *)
Definition test_made_under_lock : Prop :=
  forall sched evs c t c',
    run sched init = Some (evs, c) ->
    exec t Check c = Some (EvCheckTest t true, c') ->
    lock c = Some t.

(** Its consequence: one store of [true] is seen by at most one check. *)
Definition each_set_seen_once : Prop :=
  forall sched evs c,
    run sched init = Some (evs, c) ->
    (count is_seen evs <= count is_set_true evs)%nat.

(** One notifier sets the flag; then backends 1 and 2 both test it before
    either takes the lock. *)
Definition racing_schedule : list (tid * call) :=
  [ (0, Request); (0, Step); (0, Step); (0, Step);
    (1, Check); (2, Check) ]%nat.

End Shm.

(** ** The start-up hook under interleaving

    pgauditlogtofile_shmem_startup, statement by statement, in processes
    that may run it concurrently (the postmaster, and every child of an
    EXEC_BACKEND build), together with the flag protocol of the processes
    that are attached to the structure.  The two calls between the store
    to the flag and LWLockRelease only touch statics of the process and
    are not steps of their own.  The hook begins by setting
    [pgaudit_log_shm] to NULL: after a restart within the postmaster the
    segment is new and the run starts over from [boot]. *)

Module Start.
Import Shm.

(** Where a process is with respect to the hook. *)
Inductive phase : Type :=
| Detached     (* [pgaudit_log_shm] is NULL, the hook is not running *)
| SuAcquire    (* in the hook, before LWLockAcquire(AddinShmemInitLock) *)
| SuInit       (* before ShmemInitStruct *)
| SuSetLock    (* [!found]: before the store to [pgaudit_log_shm->lock] *)
| SuClear      (* before [pgaudit_log_shm->force_rotation = false] *)
| SuRelease    (* before LWLockRelease(AddinShmemInitLock) *)
| Attached.    (* the hook has returned, or the pointer was inherited *)

Record system : Type := {
  shared : config;            (* the structure and the attached processes *)
  init_lock : option tid;     (* holder of AddinShmemInitLock *)
  created : bool;             (* ShmemInitStruct finds the structure *)
  phases : tid -> phase
}.

Inductive move : Type :=
| Startup                 (* enter pgauditlogtofile_shmem_startup *)
| StartupStep             (* execute its next statement *)
| Fork (parent : tid)     (* be forked by an attached process *)
| Backend (a : call).     (* a move of the flag protocol *)

Inductive sys_event : Type :=
| EvStartup (t : tid)
| EvInitAcquire (t : tid)
| EvInitStruct (t : tid) (found : bool)
| EvInitLock (t : tid)
| EvInitClear (t : tid)       (* [force_rotation = false] of the hook *)
| EvInitRelease (t : tid)
| EvFork (t parent : tid)
| EvShared (ev : event).

Definition set_phase (t : tid) (p : phase) (c : system) : tid -> phase :=
  fun u => if Nat.eqb u t then p else phases c u.

(** One statement of process [t]; [None] when the move is not possible. *)
Definition step (t : tid) (m : move) (c : system)
    : option (sys_event * system) :=
  match m, phases c t with
  | Startup, Detached =>
      Some (EvStartup t,
            {| shared := shared c; init_lock := init_lock c;
               created := created c; phases := set_phase t SuAcquire c |})
  | StartupStep, SuAcquire =>
      match init_lock c with
      | None =>
          Some (EvInitAcquire t,
                {| shared := shared c; init_lock := Some t;
                   created := created c; phases := set_phase t SuInit c |})
      | Some _ => None
      end
  | StartupStep, SuInit =>
      if created c
      then Some (EvInitStruct t true,
                 {| shared := shared c; init_lock := init_lock c;
                    created := created c;
                    phases := set_phase t SuRelease c |})
      else Some (EvInitStruct t false,
                 {| shared := shared c; init_lock := init_lock c;
                    created := true;
                    phases := set_phase t SuSetLock c |})
  | StartupStep, SuSetLock =>
      Some (EvInitLock t,
            {| shared := {| flag := flag (shared c); lock := None;
                            pcs := pcs (shared c) |};
               init_lock := init_lock c; created := created c;
               phases := set_phase t SuClear c |})
  | StartupStep, SuClear =>
      Some (EvInitClear t,
            {| shared := {| flag := false; lock := lock (shared c);
                            pcs := pcs (shared c) |};
               init_lock := init_lock c; created := created c;
               phases := set_phase t SuRelease c |})
  | StartupStep, SuRelease =>
      Some (EvInitRelease t,
            {| shared := shared c; init_lock := None;
               created := created c; phases := set_phase t Attached c |})
  | Fork parent, Detached =>
      match phases c parent, pcs (shared c) parent with
      | Attached, Idle =>
          Some (EvFork t parent,
                {| shared := shared c; init_lock := init_lock c;
                   created := created c;
                   phases := set_phase t Attached c |})
      | _, _ => None
      end
  | Backend a, Attached =>
      match exec t a (shared c) with
      | Some (ev, sh) =>
          Some (EvShared ev,
                {| shared := sh; init_lock := init_lock c;
                   created := created c; phases := phases c |})
      | None => None
      end
  | _, _ => None
  end.

Fixpoint run_system (sched : list (tid * move)) (c : system)
    : option (list sys_event * system) :=
  match sched with
  | [] => Some ([], c)
  | (t, m) :: rest =>
      match step t m c with
      | None => None
      | Some (ev, c1) =>
          match run_system rest c1 with
          | None => None
          | Some (evs, c2) => Some (ev :: evs, c2)
          end
      end
  end.

(** A fresh shared memory segment: no process has run the hook, and the
    bytes where the structure will be are whatever they are. *)
Definition boot (flag0 : bool) (lock0 : option tid) : system :=
  {| shared := {| flag := flag0; lock := lock0; pcs := fun _ => Idle |};
     init_lock := None;
     created := false;
     phases := fun _ => Detached |}.

(** Every process attached, as in [Shm.init]. *)
Definition all_attached : system :=
  {| shared := init; init_lock := None; created := true;
     phases := fun _ => Attached |}.

Definition initial (c : system) : Prop :=
  c = all_attached \/ exists flag0 lock0, c = boot flag0 lock0.

(** The events of the flag protocol in a trace. *)
Fixpoint shared_events (evs : list sys_event) : list event :=
  match evs with
  | [] => []
  | EvShared ev :: rest => ev :: shared_events rest
  | _ :: rest => shared_events rest
  end.

(** What one event adds to a count over the events of the flag
    protocol. *)
Definition tally (p : event -> bool) (ev : sys_event) : nat :=
  match ev with
  | EvShared e => b2n (p e)
  | _ => 0%nat
  end.

(** The statements that assign to [force_rotation]. *)
Definition is_store (ev : sys_event) : bool :=
  match ev with
  | EvInitClear _ => true
  | EvShared (EvSetTrue _) => true
  | EvShared (EvSetFalse _) => true
  | _ => false
  end.

(** The store the start-up hook makes. *)
Definition is_init_clear (ev : sys_event) : bool :=
  match ev with
  | EvInitClear _ => true
  | _ => false
  end.

(** Holding AddinShmemInitLock. *)
Definition init_critical (p : phase) : bool :=
  match p with
  | SuInit | SuSetLock | SuClear | SuRelease => true
  | _ => false
  end.

(** Not past ShmemInitStruct. *)
Definition before_create (p : phase) : bool :=
  match p with
  | Detached | SuAcquire | SuInit => true
  | _ => false
  end.

(** Between the creation of the structure and the store to the flag. *)
Definition creating (p : phase) : bool :=
  match p with
  | SuSetLock | SuClear => true
  | _ => false
  end.

(** Not holding AddinShmemInitLock and not attached. *)
Definition waiting (p : phase) : bool :=
  match p with
  | Detached | SuAcquire => true
  | _ => false
  end.

(** Has found or made the structure. *)
Definition past_create (p : phase) : bool :=
  match p with
  | SuSetLock | SuClear | SuRelease | Attached => true
  | _ => false
  end.

Definition is_attached (p : phase) : bool :=
  match p with
  | Attached => true
  | _ => false
  end.

Record start_invariant (c : system) : Prop := {
  inv_idle : forall t, is_attached (phases c t) = false ->
                       pcs (shared c) t = Idle;
  inv_init_lock : forall t, init_critical (phases c t) = true ->
                            init_lock c = Some t;
  inv_created : created c = false ->
                forall t, before_create (phases c t) = true;
  inv_creating : forall t u, creating (phases c t) = true -> u <> t ->
                             waiting (phases c u) = true;
  inv_creator : created c = true ->
                exists u, past_create (phases c u) = true;
  inv_cleared : (forall u, is_attached (phases c u) = false) ->
                forall t, phases c t = SuRelease -> flag (shared c) = false;
  inv_lock : lock_invariant (shared c);
  inv_decided : (exists u, is_attached (phases c u) = true)
                \/ (forall u, is_attached (phases c u) = false)
}.

(** The three-backend race of [racing_schedule], from a fresh segment in
    which the flag's byte happens to be set and the lock's bytes name a
    holder: the postmaster creates the structure, three children are
    forked, one requests a rotation, the other two check. *)
Definition racing_from_boot : list (tid * move) :=
  [ (0, Startup); (0, StartupStep); (0, StartupStep); (0, StartupStep);
    (0, StartupStep); (0, StartupStep);
    (1, Fork 0); (2, Fork 0); (3, Fork 0);
    (1, Backend Request); (1, Backend Step); (1, Backend Step);
    (1, Backend Step);
    (2, Backend Check); (3, Backend Check) ]%nat.

End Start.

(** ** Vocabulary of the properties *)

(** The values the configuration provider may hand out for
    [pgaudit.log_rotation_age] once zero is excluded. *)
Definition valid_rotation_age (age : Z) : Prop :=
  0 < age <= INT_MAX / SECS_PER_MINUTE.

(** Clock readings and zone offsets far from the ends of [pg_time_t]. *)
Definition clock_in_range (now gmtoff : Z) : Prop :=
  - 2 ^ 62 <= now <= 2 ^ 62 /\ - 2 ^ 32 <= gmtoff <= 2 ^ 32.

(** A [pg_strftime] for patterns without conversion specifications: the
    pattern is copied as it is. *)
Definition literal_strftime (maxsize : Z) (pattern : string) (t : Z) : string :=
  pattern.

(** A process in UTC: the clock reads [t]; [attached] tells whether the
    shared memory segment exists, [opens] whether [fopen] succeeds, and
    [written] what [fwrite] reports. *)
Definition test_env (t : Z) (attached opens : bool) (written : string -> Z)
    : env :=
  {| time_check := t;
     time_calc := t;
     tm_gmtoff := fun _ => 0;
     pg_strftime := literal_strftime;
     fopen_succeeds := fun _ => opens;
     fwrite_count := written;
     tv_sec := t;
     tv_usec := 0;
     UsedShmemSegAddr := attached;
     MyProcPid := 4242;
     MyStartTime := 1600000000;
     MyProcPort := None;
     MyProc := None;
     get_ps_display := "";
     GetTopTransactionIdIfAny := 0;
     debug_query_string := None;
     Log_error_verbosity := 0;
     application_name := None;
     prev_emit_log_hook := None |}.

Definition whole_write (data : string) : Z := Z.of_nat (String.length data).

(** A backend whose file operations succeed in full. *)
Definition utc_env (t : Z) : env := test_env t true true whole_write.

(** The statics of a freshly loaded library with the GUC boot values. *)
Definition boot_state : state :=
  {| pgaudit_log_shm := None;
     file_handler := None;
     filename_in_use := "";
     filename := "";
     next_rotation_time := 0;
     guc_pgaudit_log_directory := Some "log";
     guc_pgaudit_log_filename := Some "audit-%Y%m%d_%H%M.log";
     guc_pgaudit_log_rotation_age := HOURS_PER_DAY * MINS_PER_HOUR;
     guc_pgaudit_log_connections := false;
     guc_pgaudit_log_disconnections := false;
     log_line_number := 0;
     log_my_pid := 0;
     formatted_start_time := "";
     formatted_log_time := "";
     io := [] |}.

(** Seconds since the epoch of 2020-09-13 00:00:00 UTC, and times of that
    day. *)
Definition day0 : Z := 18518 * 86400.
Definition at_clock (hh mm : Z) : Z := day0 + hh * 3600 + mm * 60.

(** The postmaster before the shared memory segment exists. *)
Definition postmaster_env (t : Z) : env := test_env t false true whole_write.

(** A backend that cannot open the audit file, and one whose [fwrite]
    stops after ten bytes. *)
Definition unwritable_env (t : Z) : env := test_env t true false whole_write.
Definition short_write_env (t : Z) : env := test_env t true true (fun _ => 10).

(** An event as ereport builds it around a message. *)
Definition event_with_message (msg : string) : ErrorData :=
  {| output_to_server := true;
     hide_stmt := false;
     ed_filename := None;
     lineno := 0;
     funcname := None;
     sqlerrcode := 0;
     message := Some msg;
     detail := None;
     detail_log := None;
     hint := None;
     ed_context := None;
     cursorpos := 0;
     internalpos := 0;
     internalquery := None |}.

(** A backend forked after a start-up at [t] with the given interval:
    attached to the SHM structure, no file open yet. *)
Definition backend_state (age nrt : Z) (name : string) : state :=
  {| pgaudit_log_shm := Some {| force_rotation := false |};
     file_handler := None;
     filename_in_use := "";
     filename := name;
     next_rotation_time := nrt;
     guc_pgaudit_log_directory := Some "log";
     guc_pgaudit_log_filename := Some "audit.log";
     guc_pgaudit_log_rotation_age := age;
     guc_pgaudit_log_connections := false;
     guc_pgaudit_log_disconnections := false;
     log_line_number := 0;
     log_my_pid := 0;
     formatted_start_time := "";
     formatted_log_time := "";
     io := [] |}.

(** *** The line as a list of positional fields *)

Definition opt_text (o : option string) : string :=
  match o with Some s => s | None => "" end.

(** The statics after the bookkeeping at the head of
    pgauditlogtofile_create_audit_line. *)
Definition audit_line_state (e : env) (s : state) : state :=
  let s :=
    if negb (log_my_pid s =? MyProcPid e)
    then set_line_statics 0 (MyProcPid e)
           (pgauditlogtofile_format_start_time e s) s
    else s in
  let s :=
    set_line_statics (int64 (log_line_number s + 1)) (log_my_pid s)
      (formatted_start_time s) s in
  pgauditlogtofile_format_log_time e s.

(** The record of the design document: the fields of one audit line, in
    order, as texts; [s] is the state after [audit_line_state]. *)
Definition audit_fields (e : env) (edata : ErrorData) (msg : string)
    (exclude_nchars : Z) (s : state) : list string :=
  [ (* 1 timestamp *) formatted_log_time s;
    (* 2 user *)
    match MyProcPort e with Some p => opt_text (user_name p) | None => "" end;
    (* 3 database *)
    match MyProcPort e with
    | Some p => opt_text (database_name p) | None => "" end;
    (* 4 pid *) fmt_d (log_my_pid s);
    (* 5 remote host:port *)
    match MyProcPort e with
    | Some p =>
        match remote_host p with
        | Some host =>
            host ++
            match remote_port p with
            | Some rport =>
                if negb (head_byte rport =? 0) then ":" ++ rport else ""
            | None => ""
            end
        | None => ""
        end
    | None => ""
    end;
    (* 6 session id *) fmt_lx (MyStartTime e) ++ "." ++ fmt_x (log_my_pid s);
    (* 7 line number *) fmt_d (log_line_number s);
    (* 8 process title *)
    match MyProcPort e with Some _ => get_ps_display e | None => "" end;
    (* 9 session start *) formatted_start_time s;
    (* 10 virtual transaction id *)
    match MyProc e with
    | Some proc =>
        if negb (backendId proc =? InvalidBackendId)
        then fmt_d (backendId proc) ++ "/" ++ fmt_u (lxid proc)
        else ""
    | None => ""
    end;
    (* 11 transaction id *) fmt_u (GetTopTransactionIdIfAny e);
    (* 12 SQL state *) unpack_sql_state (sqlerrcode edata);
    (* 13 message *) string_drop (Z.to_nat exclude_nchars) msg;
    (* 14 detail *)
    match detail_log edata with
    | Some d => d
    | None => opt_text (detail edata)
    end;
    (* 15 hint *) opt_text (hint edata);
    (* 16 internal query *) opt_text (internalquery edata);
    (* 17 internal position *)
    if (internalpos edata >? 0) && is_some (internalquery edata)
    then fmt_d (internalpos edata) else "";
    (* 18 context *) opt_text (ed_context edata);
    (* 19 statement *)
    if is_some (debug_query_string e) && negb (hide_stmt edata)
    then opt_text (debug_query_string e) else "";
    (* 20 cursor position *)
    if (is_some (debug_query_string e) && negb (hide_stmt edata))
       && (cursorpos edata >? 0)
    then fmt_d (cursorpos edata) else "";
    (* 21 source location *)
    if Log_error_verbosity e >=? PGERROR_VERBOSE then
      match funcname edata, ed_filename edata with
      | Some fn, Some file => fn ++ ", " ++ file ++ ":" ++ fmt_d (lineno edata)
      | None, Some file => file ++ ":" ++ fmt_d (lineno edata)
      | _, None => ""
      end
    else "";
    (* 22 application name *) opt_text (application_name e) ].

(** Fields joined by the delimiter. *)
Fixpoint join_fields (fields : list string) : string :=
  match fields with
  | [] => ""
  | [f] => f
  | f :: rest => f ++ String comma (join_fields rest)
  end.

(** Splitting a text at every occurrence of a character. *)
Fixpoint split_on (c : ascii) (s : string) : list string :=
  match s with
  | EmptyString => [""]
  | String a r =>
      if Ascii.eqb a c then "" :: split_on c r
      else
        match split_on c r with
        | f :: rest => String a f :: rest
        | [] => [String a ""]
        end
  end.

Fixpoint count_char (c : ascii) (s : string) : nat :=
  match s with
  | EmptyString => 0%nat
  | String a r => ((if Ascii.eqb a c then 1 else 0) + count_char c r)%nat
  end.

Definition comma_free (s : string) : Prop := count_char comma s = 0%nat.

Definition total_commas (fields : list string) : nat :=
  List.fold_right (fun f n => (count_char comma f + n)%nat) 0%nat fields.

(** The reading of "the same field count every time": any two events
    formatted in the same backend split into equally many fields. *)
Definition field_count_is_fixed : Prop :=
  forall e edata1 edata2 exclude_nchars s line1 s1 line2 s2,
    pgauditlogtofile_create_audit_line "" e edata1 exclude_nchars s
    = Ok (line1, s1) ->
    pgauditlogtofile_create_audit_line "" e edata2 exclude_nchars s
    = Ok (line2, s2) ->
    List.length (split_on comma line1) = List.length (split_on comma line2).

(** [join_fields fields ++ t], with the tail pushed to the end. *)
Fixpoint join_then (fields : list string) (t : string) : string :=
  match fields with
  | [] => t
  | [f] => f ++ t
  | f :: rest => f ++ String comma (join_then rest t)
  end.

(** No byte of the text is the terminator. *)
Fixpoint nonzero_bytes (s : string) : bool :=
  match s with
  | EmptyString => true
  | String c r => negb (head_byte (String c r) =? 0) && nonzero_bytes r
  end.

(** *** Reading the trace *)

Definition is_open_failure (ev : io_event) : bool :=
  match ev with
  | IoFopen _ false => true
  | _ => false
  end.

Definition is_short_write (ev : io_event) : bool :=
  match ev with
  | IoFwrite _ data rc => negb (rc =? int32 (Z.of_nat (String.length data)))
  | _ => false
  end.

(** *** The file session *)

(** The stream that is open, if any, was opened under the name recorded
    in [filename_in_use]. *)
Definition session_invariant (s : state) : Prop :=
  forall f, file_handler s = Some f -> filename_in_use s = stream_path f.




(** Two states with the same stream and the same recorded name. *)
Definition same_session (s s' : state) : Prop :=
  file_handler s' = file_handler s
  /\ filename_in_use s' = filename_in_use s.


(** *** Bytes and case *)

Definition byte_codes (s : string) : list Z :=
  List.map (fun c => Z.of_N (N_of_ascii c)) (list_ascii_of_string s).

(** Equal up to the case of ASCII letters. *)
Definition case_equal (a b : string) : Prop :=
  List.map fold_case (byte_codes a) = List.map fold_case (byte_codes b).

(** The test one iteration of the prefix loops makes. *)
Definition prefix_matches (msg : string) (entry : string * Z) : bool :=
  pg_strncasecmp msg (fst entry) (Z.to_nat (snd entry)) =? 0.

Definition conn_table : list (string * Z) :=
  List.combine pgAuditLogToFileConnPrefixes pgAuditLogToFileConnPrefixesLen.

Definition disconn_table : list (string * Z) :=
  List.combine pgAuditLogToFileDisconnPrefixes
    pgAuditLogToFileDisconnPrefixesLen.

(** *** Text values without a delimiter *)

Definition opt_comma_free (o : option string) : Prop :=
  match o with
  | Some t => comma_free t
  | None => True
  end.

(** None of the texts the formatter copies into the line holds a comma,
    and the source location is not of the form ["func, file:line"]; [s]
    is the state after [audit_line_state]. *)
Definition text_values_comma_free (e : env) (edata : ErrorData)
    (msg : string) (exclude_nchars : Z) (s : state) : Prop :=
  comma_free (formatted_log_time s)
  /\ comma_free (formatted_start_time s)
  /\ match MyProcPort e with
     | Some p =>
         opt_comma_free (user_name p)
         /\ opt_comma_free (database_name p)
         /\ opt_comma_free (remote_host p)
         /\ opt_comma_free (remote_port p)
         /\ comma_free (get_ps_display e)
     | None => True
     end
  /\ comma_free (string_drop (Z.to_nat exclude_nchars) msg)
  /\ opt_comma_free (detail_log edata)
  /\ opt_comma_free (detail edata)
  /\ opt_comma_free (hint edata)
  /\ opt_comma_free (internalquery edata)
  /\ opt_comma_free (ed_context edata)
  /\ (hide_stmt edata = false -> opt_comma_free (debug_query_string e))
  /\ opt_comma_free (application_name e)
  /\ ((Log_error_verbosity e >=? PGERROR_VERBOSE) = true ->
      ed_filename edata = None
      \/ funcname edata = None /\ opt_comma_free (ed_filename edata)).

(** A backend whose [pg_strftime] renders one fixed instant, 123456
    microseconds into the second. *)
Definition stamped_env : env :=
  {| time_check := at_clock 10 15;
     time_calc := at_clock 10 15;
     tm_gmtoff := fun _ => 0;
     pg_strftime := fun _ _ _ => "2020-09-13 10:15:00     UTC";
     fopen_succeeds := fun _ => true;
     fwrite_count := whole_write;
     tv_sec := at_clock 10 15;
     tv_usec := 123456;
     UsedShmemSegAddr := true;
     MyProcPid := 4242;
     MyStartTime := 1600000000;
     MyProcPort := None;
     MyProc := None;
     get_ps_display := "";
     GetTopTransactionIdIfAny := 0;
     debug_query_string := None;
     Log_error_verbosity := 0;
     application_name := None;
     prev_emit_log_hook := None |}.

(** *** The statics of the formatter *)

(** Two states in which the formatter finds the same line counter, the
    same process id and the same session start. *)
Definition same_line_statics (s s' : state) : Prop :=
  log_line_number s' = log_line_number s
  /\ log_my_pid s' = log_my_pid s
  /\ formatted_start_time s' = formatted_start_time s.

(** *** The target name derived afresh *)








(** *** A clock-rendering [pg_strftime] *)






(** * Properties *)

(** ** Machine integers *)

Lemma int64_small (z : Z) : - 2 ^ 63 <= z < 2 ^ 63 -> int64 z = z.
Proof.
  intros H. unfold int64, wrap.
  replace (64 - 1) with 63 by reflexivity.
  rewrite Z.mod_small; lia.
Qed.

Lemma int32_small (z : Z) : - 2 ^ 31 <= z < 2 ^ 31 -> int32 z = z.
Proof.
  intros H. unfold int32, wrap.
  replace (32 - 1) with 31 by reflexivity.
  rewrite Z.mod_small; lia.
Qed.

Lemma rotinterval_small (age : Z) :
  valid_rotation_age age ->
  int32 (age * SECS_PER_MINUTE) = age * 60 /\ 0 < age * 60 < 2 ^ 31.
Proof.
  unfold valid_rotation_age, INT_MAX, SECS_PER_MINUTE.
  intros [Hlo Hhi].
  assert (Hq : 2147483647 / 60 = 35791394) by reflexivity.
  rewrite Hq in Hhi.
  split; [apply int32_small|]; lia.
Qed.

(** ** Rotation clock *)

Lemma rem_aligned (a r : Z) : r <> 0 -> (a - Z.rem a r + r) mod r = 0.
Proof.
  intros Hr.
  pose proof (Z.quot_rem' a r) as E.
  replace (a - Z.rem a r + r) with ((Z.quot a r + 1) * r) by lia.
  apply Z.mod_mul; assumption.
Qed.

Lemma rem_below (a r : Z) : 0 < r -> - r < Z.rem a r < r.
Proof.
  intros Hr.
  pose proof (Z.rem_bound_abs a r ltac:(lia)) as B.
  lia.
Qed.

Lemma rem_nonneg (a r : Z) : 0 <= a -> 0 < r -> 0 <= Z.rem a r.
Proof.
  intros Ha Hr.
  destruct (Z.rem_bound_pos a r Ha Hr); assumption.
Qed.

(** What the clock computes when nothing wraps. *)
Lemma rotation_clock_value (now gmtoff age : Z) :
  valid_rotation_age age ->
  clock_in_range now gmtoff ->
  rotation_clock now gmtoff age
  = Ok (now + gmtoff - Z.rem (now + gmtoff) (age * 60) + age * 60 - gmtoff).
Proof.
  intros Hage [Hnow Hoff].
  destruct (rotinterval_small age Hage) as [Hr Hb].
  unfold rotation_clock. rewrite Hr.
  assert (P62 : 2 ^ 62 = 4611686018427387904) by reflexivity.
  assert (P63 : 2 ^ 63 = 9223372036854775808) by reflexivity.
  assert (P32 : 2 ^ 32 = 4294967296) by reflexivity.
  assert (P31 : 2 ^ 31 = 2147483648) by reflexivity.
  rewrite (int64_small (now + gmtoff)) by lia.
  destruct (Z.eqb_spec (age * 60) 0) as [E | _]; [lia|].
  pose proof (rem_below (now + gmtoff) (age * 60) ltac:(lia)) as B.
  rewrite (int64_small (now + gmtoff - _)) by lia.
  rewrite (int64_small (now + gmtoff - _ + _)) by lia.
  rewrite int64_small by lia.
  reflexivity.
Qed.

(** C2.  For every clock reading and every positive rotation interval,
    pgauditlogtofile_calculate_next_rotation_time stores a next rotation
    time that is strictly greater than the reading and that, shifted into
    local time by the zone offset, is a multiple of the interval in
    seconds. *)
Theorem next_rotation_time_future_aligned (e : env) (s : state) :
  valid_rotation_age (guc_pgaudit_log_rotation_age s) ->
  clock_in_range (time_calc e) (tm_gmtoff e (time_calc e)) ->
  exists nrt,
    pgauditlogtofile_calculate_next_rotation_time e s
    = Ok (set_next_rotation_time nrt s)
    /\ time_calc e < nrt
    /\ (nrt + tm_gmtoff e (time_calc e))
         mod (guc_pgaudit_log_rotation_age s * 60) = 0.
Proof.
  intros Hage Hrange.
  destruct (rotinterval_small _ Hage) as [_ Hb].
  unfold pgauditlogtofile_calculate_next_rotation_time.
  assert (Hnow : int64 (time_calc e) = time_calc e).
  { apply int64_small. destruct Hrange as [[? ?] _].
    assert (2 ^ 62 = 4611686018427387904) by reflexivity.
    assert (2 ^ 63 = 9223372036854775808) by reflexivity. lia. }
  rewrite Hnow, (rotation_clock_value _ _ _ Hage Hrange). cbn [bind].
  eexists. split; [reflexivity|].
  set (off := tm_gmtoff e (time_calc e)).
  set (r := guc_pgaudit_log_rotation_age s * 60) in *.
  pose proof (rem_below (time_calc e + off) r ltac:(lia)) as B.
  split; [lia|].
  replace (time_calc e + off - Z.rem (time_calc e + off) r + r - off + off)
    with (time_calc e + off - Z.rem (time_calc e + off) r + r) by lia.
  apply rem_aligned. lia.
Qed.

Lemma next_rotation_time_future_aligned_witness :
  exists nrt,
    pgauditlogtofile_calculate_next_rotation_time
      (utc_env (at_clock 10 15)) (backend_state 60 0 "")
    = Ok (set_next_rotation_time nrt (backend_state 60 0 ""))
    /\ at_clock 10 15 < nrt
    /\ (nrt + 0) mod (60 * 60) = 0.
Proof.
  apply (next_rotation_time_future_aligned
           (utc_env (at_clock 10 15)) (backend_state 60 0 "")).
  - unfold valid_rotation_age; simpl; split; [lia | discriminate].
  - unfold clock_in_range; simpl; split; split; discriminate.
Defined.

(** C3 (as the code behaves).  The registration of
    [pgaudit.log_rotation_age] accepts 0; with that value the postmaster's
    start-up hook, and a backend whose rotation time has passed, reach
    [now % rotinterval] with a zero interval. *)
Theorem rotation_age_zero_reaches_modulo :
  guc_int_accepts pgaudit_log_rotation_age_guc 0 = true
  /\ (exists s,
        guc_assign_rotation_age 0 (postmaster_env day0) boot_state = Ok s
        /\ guc_pgaudit_log_rotation_age s = 0
        /\ pgauditlogtofile_shmem_startup None (postmaster_env day0) s
           = Fault DivisionByZero)
  /\ (exists s,
        guc_assign_rotation_age 0 (utc_env day0)
          (backend_state 60 (at_clock 11 0) "log/audit.log") = Ok s
        /\ pgauditlogtofile_is_enabled s = true
        /\ exists edata' s',
             pgauditlogtofile_emit_log (utc_env (at_clock 10 15))
               (event_with_message "AUDIT: SESSION") s = Ok (edata', s')
             /\ pgauditlogtofile_emit_log (utc_env (at_clock 11 0))
                  (event_with_message "AUDIT: SESSION") s'
                = Fault DivisionByZero).
Proof.
  split; [reflexivity|].
  split.
  - eexists. split; [reflexivity|]. split; reflexivity.
  - eexists. split; [reflexivity|]. split; [reflexivity|].
    eexists. eexists. split; [vm_compute; reflexivity|].
    vm_compute. reflexivity.
Qed.

(** ** Filename deriver *)


(** The window that ends at the clock's result contains the reading, for
    readings that are not before the local epoch. *)
Lemma window_contains_now (now gmtoff age nrt : Z) :
  valid_rotation_age age ->
  clock_in_range now gmtoff ->
  0 <= now + gmtoff ->
  rotation_clock now gmtoff age = Ok nrt ->
  nrt - age * 60 <= now < nrt
  /\ (nrt - age * 60 + gmtoff) mod (age * 60) = 0.
Proof.
  intros Hage Hrange Hpos Hclock.
  rewrite (rotation_clock_value _ _ _ Hage Hrange) in Hclock.
  injection Hclock as <-.
  destruct (rotinterval_small _ Hage) as [_ Hb].
  set (r := age * 60) in *.
  pose proof (rem_below (now + gmtoff) r ltac:(lia)) as B.
  pose proof (rem_nonneg (now + gmtoff) r Hpos ltac:(lia)) as B0.
  split; [lia|].
  pose proof (Z.quot_rem' (now + gmtoff) r) as E.
  replace (now + gmtoff - Z.rem (now + gmtoff) r + r - gmtoff - r + gmtoff)
    with (Z.quot (now + gmtoff) r * r) by lia.
  apply Z.mod_mul. lia.
Qed.




Example scenario_A_clock :
  rotation_clock (at_clock 10 15) 0 60 = Ok (at_clock 11 0).
Proof. reflexivity. Qed.

Example scenario_A_window :
  current_rotation_time (backend_state 60 (at_clock 11 0) "") = at_clock 10 0.
Proof. reflexivity. Qed.

(** The same instant seen from a zone one hour east of Greenwich. *)
Example scenario_A_clock_east :
  rotation_clock (at_clock 9 15) 3600 60 = Ok (at_clock 10 0).
Proof. reflexivity. Qed.

(** ** Rotation coordinator *)

Lemma calculate_next_rotation_time_total (e : env) (s : state) :
  valid_rotation_age (guc_pgaudit_log_rotation_age s) ->
  exists nrt,
    pgauditlogtofile_calculate_next_rotation_time e s
    = Ok (set_next_rotation_time nrt s).
Proof.
  intros Hage.
  destruct (rotinterval_small _ Hage) as [Hr Hb].
  unfold pgauditlogtofile_calculate_next_rotation_time, rotation_clock.
  rewrite Hr.
  destruct (Z.eqb_spec (guc_pgaudit_log_rotation_age s * 60) 0); [lia|].
  cbn [bind]. eexists. reflexivity.
Qed.

(** ** Record formatter *)

Lemma append_assoc (a b c : string) : (a ++ b) ++ c = a ++ (b ++ c).
Proof.
  induction a as [|x a IH]; simpl; [reflexivity | rewrite IH; reflexivity].
Qed.

Lemma append_nil_r (a : string) : a ++ "" = a.
Proof.
  induction a as [|x a IH]; simpl; [reflexivity | rewrite IH; reflexivity].
Qed.

Lemma if_true_false (c : bool) : (if c then true else false) = c.
Proof. destruct c; reflexivity. Qed.

Lemma join_fields_then (fields : list string) (t : string) :
  join_fields fields ++ t = join_then fields t.
Proof.
  induction fields as [|f [|g rest] IH]; try reflexivity.
  change (join_fields (f :: g :: rest))
    with (f ++ String comma (join_fields (g :: rest))).
  change (join_then (f :: g :: rest) t)
    with (f ++ String comma (join_then (g :: rest) t)).
  rewrite append_assoc. cbn [append]. rewrite IH. reflexivity.
Qed.

(** One [let] of the formatter at a time: the bound value becomes a
    variable with its defining equation. *)
Ltac intro_let :=
  match goal with
  | |- (let x := ?v in @?body x) = ?R =>
      let y := fresh x in
      let H := fresh "E" y in
      pose (y := v);
      assert (H : y = v) by reflexivity;
      let g := eval cbv beta in (body y) in
      change (g = R);
      clearbody y
  end.

Ltac solve_piece :=
  unfold appendStringInfoString, appendStringInfoCharMacro,
    appendStringInfoOpt, opt_text;
  cbv zeta;
  repeat match goal with
         | |- context [match ?x with _ => _ end] => destruct x
         end;
  unfold appendStringInfoString;
  cbn [append];
  rewrite ?append_nil_r, ?append_assoc; reflexivity.

Lemma absorb (x : string) (s : state) (b f bk rest : string) :
  bk = b ++ f ->
  @Ok (string * state) (x, s) = Ok (bk ++ rest, s) ->
  @Ok (string * state) (x, s) = Ok (b ++ (f ++ rest), s).
Proof. intros -> ->. rewrite append_assoc. reflexivity. Qed.

Lemma absorb_one (x : string) (s : state) (b : string) (c : ascii)
    (bk rest : string) :
  bk = appendStringInfoCharMacro b c ->
  @Ok (string * state) (x, s) = Ok (bk ++ rest, s) ->
  @Ok (string * state) (x, s) = Ok (b ++ String c rest, s).
Proof.
  intros -> ->. unfold appendStringInfoCharMacro. rewrite append_assoc.
  reflexivity.
Qed.

(** The next field of the right-hand side is what the next statement of
    the formatter appended. *)
Ltac absorb_piece :=
  match goal with
  | |- Ok (?x, ?s) = Ok (?b ++ (?f ++ ?rest), _) =>
      match goal with
      | E : ?bk = ?rhs |- _ =>
          lazymatch rhs with context [b] => idtac end;
          let H := fresh in
          assert (H : bk = b ++ f) by (rewrite E; solve_piece);
          refine (absorb x s b f bk rest H _); clear H E
      end
  end.

Ltac absorb_char :=
  match goal with
  | |- Ok (?x, ?s) = Ok (?b ++ String ?c ?rest, _) =>
      match goal with
      | E : ?bk = appendStringInfoCharMacro b c |- _ =>
          refine (absorb_one x s b c bk rest E _); clear E
      end
  end.

(** The sequence of appends produces the 22 fields, 21 delimiters between
    them and the terminating newline. *)
Lemma create_audit_line_fields
    (buf : string) (e : env) (edata : ErrorData) (n : Z) (s : state)
    (msg : string) :
  message edata = Some msg ->
  pgauditlogtofile_create_audit_line buf e edata n s
  = Ok (buf ++ join_fields (audit_fields e edata msg n (audit_line_state e s))
            ++ String newline "",
        audit_line_state e s).
Proof.
  intros Hmsg.
  cbv delta [pgauditlogtofile_create_audit_line]. cbv beta.
  destruct (message edata) as [m|]; [|discriminate].
  injection Hmsg as ->.
  match goal with |- _ = ?R => remember R as rhs eqn:Erhs end.
  repeat intro_let.
  subst rhs.
  assert (Es : audit_line_state e s = s2).
  { unfold audit_line_state. cbv zeta. subst s2 s1 s0. reflexivity. }
  rewrite Es. clear Es Es0 Es1 Es2.
  rewrite if_true_false in Eprint_stmt. subst print_stmt.
  rewrite join_fields_then.
  cbn [audit_fields join_then].
  do 21 (absorb_piece; absorb_char).
  absorb_piece.
  rewrite Ebuf43. reflexivity.
Qed.

Lemma audit_fields_length e edata msg n s :
  List.length (audit_fields e edata msg n s) = 22%nat.
Proof. reflexivity. Qed.

(** *** Counting delimiters *)

Lemma count_char_app (c : ascii) (a b : string) :
  count_char c (a ++ b) = (count_char c a + count_char c b)%nat.
Proof.
  induction a as [|x a IH]; simpl; [reflexivity|].
  rewrite IH. lia.
Qed.

Lemma split_on_length (c : ascii) (s : string) :
  List.length (split_on c s) = S (count_char c s).
Proof.
  induction s as [|a r IH]; simpl; [reflexivity|].
  destruct (Ascii.eqb a c); simpl; [rewrite IH; reflexivity|].
  destruct (split_on c r) as [|f rest]; simpl in *; [discriminate | lia].
Qed.

Lemma count_char_same (c : ascii) (r : string) :
  count_char c (String c r) = S (count_char c r).
Proof.
  change (count_char c (String c r))
    with ((if Ascii.eqb c c then 1 else 0) + count_char c r)%nat.
  rewrite Ascii.eqb_refl. reflexivity.
Qed.

Lemma count_join_fields (f : string) (rest : list string) :
  count_char comma (join_fields (f :: rest))
  = (List.length rest + total_commas (f :: rest))%nat.
Proof.
  revert f. induction rest as [|g rest IH]; intros f.
  - simpl. lia.
  - change (join_fields (f :: g :: rest))
      with (f ++ String comma (join_fields (g :: rest))).
    rewrite count_char_app, count_char_same, IH. simpl. lia.
Qed.

Lemma count_join_fields_length (fields : list string) (k : nat) :
  List.length fields = S k ->
  count_char comma (join_fields fields) = (k + total_commas fields)%nat.
Proof.
  destruct fields as [|f rest]; [discriminate|].
  intros H. injection H as <-. apply count_join_fields.
Qed.

Lemma split_on_comma_free (s : string) :
  comma_free s -> split_on comma s = [s].
Proof.
  unfold comma_free.
  induction s as [|a r IH]; simpl; [reflexivity|].
  destruct (Ascii.eqb a comma); [discriminate|].
  simpl. intros H. rewrite (IH H). reflexivity.
Qed.

Lemma split_on_field (f rest : string) :
  comma_free f ->
  split_on comma (f ++ String comma rest) = f :: split_on comma rest.
Proof.
  unfold comma_free.
  induction f as [|a r IH]; simpl.
  - intros _. reflexivity.
  - destruct (Ascii.eqb a comma); [discriminate|].
    simpl. intros H. rewrite (IH H). reflexivity.
Qed.

(** Splitting gives the fields back when none of them holds a comma. *)
Lemma split_join_fields (f : string) (rest : list string) :
  Forall comma_free (f :: rest) ->
  split_on comma (join_fields (f :: rest)) = f :: rest.
Proof.
  revert f. induction rest as [|g rest IH]; intros f Hall.
  - apply split_on_comma_free. inversion Hall; assumption.
  - change (join_fields (f :: g :: rest))
      with (f ++ String comma (join_fields (g :: rest))).
    inversion Hall as [|? ? Hf Hrest]; subst.
    rewrite (split_on_field _ _ Hf), (IH g Hrest). reflexivity.
Qed.

(** C8 (as the code behaves).  The formatter always emits its 22 field
    positions with 21 delimiters between them and a newline at the end, an
    absent value leaving its position empty; re-splitting at the delimiter
    yields 22 fields plus one for every comma inside a field value, and
    yields the fields themselves when no value contains a comma. *)
Theorem audit_line_field_count
    (e : env) (edata : ErrorData) (n : Z) (s : state) (msg : string) :
  message edata = Some msg ->
  let fields := audit_fields e edata msg n (audit_line_state e s) in
  let line := join_fields fields ++ String newline "" in
  pgauditlogtofile_create_audit_line "" e edata n s
  = Ok (line, audit_line_state e s)
  /\ List.length fields = 22%nat
  /\ count_char comma line = (21 + total_commas fields)%nat
  /\ List.length (split_on comma line) = (22 + total_commas fields)%nat
  /\ (Forall comma_free fields ->
      split_on comma (join_fields fields) = fields)
  /\ (MyProcPort e = None ->
      nth 1 fields "-" = "" /\ nth 2 fields "-" = ""
      /\ nth 4 fields "-" = "" /\ nth 7 fields "-" = "")
  /\ (MyProc e = None -> nth 9 fields "-" = "")
  /\ (detail_log edata = None -> detail edata = None ->
      nth 13 fields "-" = "")
  /\ (hint edata = None -> nth 14 fields "-" = "")
  /\ (internalquery edata = None ->
      nth 15 fields "-" = "" /\ nth 16 fields "-" = "")
  /\ (ed_context edata = None -> nth 17 fields "-" = "")
  /\ (debug_query_string e = None ->
      nth 18 fields "-" = "" /\ nth 19 fields "-" = "")
  /\ (ed_filename edata = None -> nth 20 fields "-" = "")
  /\ (application_name e = None -> nth 21 fields "-" = "").
Proof.
  intros Hmsg fields line.
  assert (Hcount : count_char comma line = (21 + total_commas fields)%nat).
  { unfold line. rewrite count_char_app.
    rewrite (count_join_fields_length fields 21)
      by apply audit_fields_length.
    change (count_char comma (String newline "")) with 0%nat. lia. }
  split; [exact (create_audit_line_fields "" e edata n s msg Hmsg)|].
  split; [reflexivity|].
  split; [exact Hcount|].
  split; [rewrite split_on_length, Hcount; reflexivity|].
  split; [intros Hfree; apply split_join_fields; exact Hfree|].
  cbn [fields audit_fields nth].
  split; [intros ->; repeat split; reflexivity|].
  split; [intros ->; reflexivity|].
  split; [intros -> ->; reflexivity|].
  split; [intros ->; reflexivity|].
  split; [intros ->; rewrite andb_false_r; split; reflexivity|].
  split; [intros ->; reflexivity|].
  split; [intros ->; split; reflexivity|].
  split; [intros ->; destruct (Log_error_verbosity e >=? PGERROR_VERBOSE),
                       (funcname edata); reflexivity|].
  intros ->; reflexivity.
Qed.

Lemma audit_line_field_count_witness :
  List.length
    (split_on comma
       (join_fields
          (audit_fields (utc_env day0) (event_with_message "AUDIT: foo")
             "AUDIT: foo" 7 (audit_line_state (utc_env day0) boot_state))
        ++ String newline "")) = 22%nat
  /\ nth 12
       (split_on comma
          (join_fields
             (audit_fields (utc_env day0) (event_with_message "AUDIT: foo")
                "AUDIT: foo" 7 (audit_line_state (utc_env day0) boot_state))))
       "-" = "foo".
Proof.
  destruct (audit_line_field_count (utc_env day0)
              (event_with_message "AUDIT: foo") 7 boot_state "AUDIT: foo"
              eq_refl)
    as (_ & _ & _ & Hsplit & Hfields & _).
  split.
  - rewrite Hsplit. reflexivity.
  - rewrite Hfields; [reflexivity|].
    repeat constructor.
Defined.

(** C8, the claim as worded fails: the message of scenario C carries a
    comma of its own and splits into 23 fields, one more than the same
    event without it. *)
Lemma field_count_not_fixed : ~ field_count_is_fixed.
Proof.
  intros H.
  pose proof (H (utc_env day0)
                (event_with_message "AUDIT: foo")
                (event_with_message "AUDIT: foo,bar")
                7 boot_state _ _ _ _ eq_refl eq_refl) as E.
  vm_compute in E. discriminate E.
Qed.

(** The count also moves with an optional value alone: under verbose
    error reporting a known function name adds ["func, "] to the source
    location. *)
Example location_with_funcname_has_comma :
  count_char comma
    (nth 20
       (audit_fields
          {| time_check := 0; time_calc := 0; tm_gmtoff := fun _ => 0;
             pg_strftime := literal_strftime;
             fopen_succeeds := fun _ => true;
             fwrite_count := fun _ => 0; tv_sec := 0; tv_usec := 0;
             UsedShmemSegAddr := true; MyProcPid := 1; MyStartTime := 0;
             MyProcPort := None; MyProc := None; get_ps_display := "";
             GetTopTransactionIdIfAny := 0; debug_query_string := None;
             Log_error_verbosity := PGERROR_VERBOSE;
             application_name := None; prev_emit_log_hook := None |}
          {| output_to_server := true; hide_stmt := false;
             ed_filename := Some "elog.c"; lineno := 10;
             funcname := Some "errfinish"; sqlerrcode := 0;
             message := Some "AUDIT: foo"; detail := None;
             detail_log := None; hint := None; ed_context := None;
             cursorpos := 0; internalpos := 0; internalquery := None |}
          "AUDIT: foo" 7 boot_state) "-") = 1%nat.
Proof. reflexivity. Qed.

(** ** Interception *)

Example prefix_table_lengths :
  List.map (fun p => Z.of_nat (String.length p)) pgAuditLogToFileConnPrefixes
  = pgAuditLogToFileConnPrefixesLen
  /\ List.map (fun p => Z.of_nat (String.length p))
       pgAuditLogToFileDisconnPrefixes
     = pgAuditLogToFileDisconnPrefixesLen
  /\ PGAUDIT_PREFIX_LINE_LENGTH = 7.
Proof. repeat split; reflexivity. Qed.

Lemma fold_case_nonzero (ch : Z) : ch <> 0 -> fold_case ch <> 0.
Proof.
  unfold fold_case. intros H.
  destruct ((65 <=? ch) && (ch <=? 90)) eqn:E; [|exact H].
  apply andb_true_iff in E. destruct E as [E1 E2].
  apply Z.leb_le in E1. lia.
Qed.


Lemma string_take_drop (n : nat) :
  forall s,
    (n <= String.length s)%nat ->
    s = string_take n s ++ string_drop n s
    /\ String.length (string_take n s) = n.
Proof.
  induction n as [|n IH]; intros s Hlen.
  - destruct s; split; reflexivity.
  - destruct s as [|c r]; [simpl in Hlen; lia|].
    cbn [String.length] in Hlen.
    destruct (IH r ltac:(lia)) as [E L].
    cbn [string_take string_drop append String.length].
    split; [rewrite <- E; reflexivity | rewrite L; reflexivity].
Qed.

(** *** What pg_strncasecmp decides *)

Lemma byte_codes_cons (c : ascii) (r : string) :
  byte_codes (String c r) = head_byte (String c r) :: byte_codes r.
Proof. reflexivity. Qed.

(** Over the length of a text without NUL bytes the comparison is zero
    exactly when the other text starts with the same bytes up to case. *)
Lemma pg_strncasecmp_zero_iff (p : string) :
  forall s,
    nonzero_bytes p = true ->
    (pg_strncasecmp s p (String.length p) = 0
     <-> case_equal (string_take (String.length p) s) p).
Proof.
  unfold case_equal.
  induction p as [|c2 p' IH]; intros s Hnz.
  - cbn. split; reflexivity.
  - cbn [nonzero_bytes] in Hnz. apply andb_true_iff in Hnz.
    destruct Hnz as [Hc2 Hp'].
    apply negb_true_iff, Z.eqb_neq in Hc2.
    pose proof (fold_case_nonzero _ Hc2) as Hf2.
    cbn [String.length pg_strncasecmp tail_bytes].
    rewrite (byte_codes_cons c2 p'). cbn [List.map].
    cbn [head_byte] in Hc2, Hf2 |- *.
    set (ch2 := Z.of_N (N_of_ascii c2)) in *.
    destruct s as [|c1 r].
    + cbn [string_take]. change (head_byte "") with 0.
      change (byte_codes "") with (@nil Z). cbn [List.map].
      destruct (Z.eqb_spec 0 ch2) as [E|_]; [lia|].
      change (fold_case 0) with 0.
      destruct (Z.eqb_spec 0 (fold_case ch2)) as [E|_]; [lia|].
      split; [intros H; exfalso; lia | discriminate].
    + cbn [string_take tail_bytes]. rewrite byte_codes_cons.
      cbn [List.map head_byte].
      set (ch1 := Z.of_N (N_of_ascii c1)) in *.
      specialize (IH r Hp').
      destruct (Z.eqb_spec ch1 ch2) as [E|NE].
      * destruct (Z.eqb_spec ch1 0) as [Z0|_]; [lia|].
        rewrite IH, E. split; [intros ->; reflexivity|].
        intros H. injection H as H. exact H.
      * destruct (Z.eqb_spec (fold_case ch1) (fold_case ch2)) as [E|NE'].
        -- destruct (Z.eqb_spec (fold_case ch1) 0) as [Z0|_]; [lia|].
           rewrite IH, E. split; [intros ->; reflexivity|].
           intros H. injection H as H. exact H.
        -- split; [intros H; exfalso; lia|].
           intros H. injection H as H _. contradiction.
Qed.

Example scenario_C :
  nth 12
    (audit_fields (utc_env day0) (event_with_message "AUDIT: foo,bar")
       "AUDIT: foo,bar" 7 boot_state) "-" = "foo,bar".
Proof. reflexivity. Qed.

Example scenario_D :
  emit_log_intercept
    (set_gucs (Some "log") (Some "audit.log") 60 true false
       (backend_state 60 (at_clock 11 0) ""))
    (event_with_message "connection received: host=10.0.0.1")
    "connection received: host=10.0.0.1"
  = (0, set_output_to_server false
          (event_with_message "connection received: host=10.0.0.1")).
Proof. reflexivity. Qed.

(** C9.  With the directory or the filename setting NULL or empty the
    hook changes neither the event nor any static, reads no clock and
    touches no file; the event goes to the previous hook as it came. *)
Theorem disabled_hook_is_inert (e : env) (edata : ErrorData) (s : state) :
  guc_pgaudit_log_directory s = None
  \/ guc_pgaudit_log_directory s = Some ""
  \/ guc_pgaudit_log_filename s = None
  \/ guc_pgaudit_log_filename s = Some "" ->
  pgauditlogtofile_is_enabled s = false
  /\ emit_log_body e edata s = Ok (edata, s)
  /\ pgauditlogtofile_emit_log e edata s
     = Ok (match prev_emit_log_hook e with
           | Some hook => hook edata
           | None => edata
           end, s)
  /\ (prev_emit_log_hook e = None ->
      pgauditlogtofile_emit_log e edata s = Ok (edata, s)).
Proof.
  intros Hoff.
  assert (Hen : pgauditlogtofile_is_enabled s = false).
  { unfold pgauditlogtofile_is_enabled.
    destruct (pgaudit_log_shm s); [|reflexivity].
    destruct Hoff as [H | [H | [H | H]]]; rewrite H.
    - reflexivity.
    - destruct (guc_pgaudit_log_filename s); reflexivity.
    - destruct (guc_pgaudit_log_directory s); reflexivity.
    - destruct (guc_pgaudit_log_directory s) as [d|]; [|reflexivity].
      cbn [String.length]. rewrite orb_true_r. reflexivity. }
  assert (Hbody : emit_log_body e edata s = Ok (edata, s)).
  { unfold emit_log_body. rewrite Hen. reflexivity. }
  split; [exact Hen|].
  split; [exact Hbody|].
  unfold pgauditlogtofile_emit_log. rewrite Hbody. cbn [bind].
  split.
  - destruct (prev_emit_log_hook e); reflexivity.
  - intros ->. reflexivity.
Qed.

Lemma disabled_hook_is_inert_witness :
  pgauditlogtofile_emit_log (utc_env (at_clock 11 0))
    (event_with_message "AUDIT: SESSION")
    (set_gucs (Some "") (Some "audit.log") 60 false false
       (backend_state 60 (at_clock 10 0) ""))
  = Ok (event_with_message "AUDIT: SESSION",
        set_gucs (Some "") (Some "audit.log") 60 false false
          (backend_state 60 (at_clock 10 0) "")).
Proof.
  destruct (disabled_hook_is_inert (utc_env (at_clock 11 0))
              (event_with_message "AUDIT: SESSION")
              (set_gucs (Some "") (Some "audit.log") 60 false false
                 (backend_state 60 (at_clock 10 0) "")))
    as (_ & _ & _ & Hnone).
  - right; left; reflexivity.
  - apply Hnone. reflexivity.
Defined.

(** ** File session and write path *)

Ltac sproj :=
  cbn [pgaudit_log_shm file_handler filename_in_use filename
       next_rotation_time guc_pgaudit_log_directory guc_pgaudit_log_filename
       guc_pgaudit_log_rotation_age guc_pgaudit_log_connections
       guc_pgaudit_log_disconnections log_line_number log_my_pid
       formatted_start_time formatted_log_time io
       set_shm set_file_handler set_filename_in_use set_filename
       set_next_rotation_time set_line_statics set_formatted_log_time
       set_gucs log_io bind fst snd] in *.


Lemma audit_line_state_shape (e : env) (s : state) :
  exists n pid st lt,
    audit_line_state e s
    = set_formatted_log_time lt (set_line_statics n pid st s).
Proof.
  unfold audit_line_state, pgauditlogtofile_format_log_time. cbv zeta.
  destruct (negb (log_my_pid s =? MyProcPid e));
    do 4 eexists; reflexivity.
Qed.

Lemma write_audit_run (e : env) (edata : ErrorData) (n : Z) (s : state)
    (msg : string) (f : FILE) :
  message edata = Some msg ->
  file_handler s = Some f ->
  exists line s1,
    file_handler s1 = Some f /\ filename s1 = filename s
    /\ filename_in_use s1 = filename_in_use s /\ io s1 = io s
    /\ pgauditlogtofile_write_audit e edata n s
       = let rc := int32 (fwrite_count e line) in
         if negb (rc =? int32 (Z.of_nat (String.length line)))
         then Ok (false,
                  log_io (IoWarning "could not write audit log file"
                            (filename s1))
                    (log_io (IoFwrite f line rc) s1))
         else Ok (true, log_io (IoFwrite f line rc) s1).
Proof.
  intros Hmsg Hf.
  unfold pgauditlogtofile_write_audit.
  rewrite (create_audit_line_fields "" e edata n s msg Hmsg). cbn [bind].
  destruct (audit_line_state_shape e s) as (a & b & c & d & E).
  rewrite E. cbn [file_handler set_formatted_log_time set_line_statics].
  rewrite Hf.
  eexists. exists (set_formatted_log_time d (set_line_statics a b c s)).
  split; [exact Hf|].
  repeat split; reflexivity.
Qed.

(** The rotation phase of pgauditlogtofile_record_audit. *)
Lemma rotation_phase (e : env) (s : state)
    (shm : pgAuditLogToFileShm) (dir pat : string) :
  pgaudit_log_shm s = Some shm ->
  guc_pgaudit_log_directory s = Some dir ->
  guc_pgaudit_log_filename s = Some pat ->
  valid_rotation_age (guc_pgaudit_log_rotation_age s) ->
  exists s2 evs,
    (' (rotate, s1) <- pgauditlogtofile_needs_rotate_file e s ;;
     if rotate
     then s1 <- pgauditlogtofile_calculate_filename e s1 ;;
          Ok (pgauditlogtofile_close_file s1)
     else Ok s1) = Ok s2
    /\ io s2 = (evs ++ io s)%list
    /\ existsb is_open_failure evs = false
    /\ existsb is_short_write evs = false
    /\ (forall g data rc, ~ In (IoFwrite g data rc) evs)
    /\ filename_in_use s2 = filename_in_use s
    /\ (file_handler s2 = None
        \/ s2 = s /\ filename_in_use s = filename s).
Proof.
  intros Hshm Hdir Hpat Hage.
  assert (Hclose : forall s1,
            guc_pgaudit_log_directory s1 = Some dir ->
            guc_pgaudit_log_filename s1 = Some pat ->
            io s1 = io s -> filename_in_use s1 = filename_in_use s ->
            exists s2 evs,
              (s1 <- pgauditlogtofile_calculate_filename e s1 ;;
               Ok (pgauditlogtofile_close_file s1)) = Ok s2
              /\ io s2 = (evs ++ io s)%list
              /\ existsb is_open_failure evs = false
              /\ existsb is_short_write evs = false
              /\ (forall g data rc, ~ In (IoFwrite g data rc) evs)
              /\ filename_in_use s2 = filename_in_use s
              /\ (file_handler s2 = None
                  \/ s2 = s /\ filename_in_use s = filename s)).
  { intros s1 Hd Hp Hio Hfiu.
    unfold pgauditlogtofile_calculate_filename. rewrite Hd, Hp.
    cbn [bind fmt_s].
    unfold pgauditlogtofile_close_file. sproj.
    destruct (file_handler s1) as [f|] eqn:Hf.
    - eexists. exists [IoFclose f].
      split; [reflexivity|]. sproj. rewrite Hio, Hfiu.
      repeat split; try reflexivity.
      + intros g data rc [H|[]]; discriminate.
      + left; reflexivity.
    - eexists. exists [].
      split; [reflexivity|]. sproj. rewrite Hio, Hfiu.
      repeat split; try reflexivity.
      + intros g data rc [].
      + left; exact Hf. }
  unfold pgauditlogtofile_needs_rotate_file. rewrite Hshm.
  destruct (force_rotation shm).
  - cbn [bind]. apply Hclose; sproj; auto.
  - destruct (int64 (time_check e) >=? next_rotation_time s).
    + destruct (calculate_next_rotation_time_total e s Hage) as [nrt ->].
      cbn [bind]. apply Hclose; sproj; auto.
    + destruct (String.eqb_spec (filename_in_use s) (filename s))
        as [Hsame|_]; cbn [negb bind].
      * exists s, []. repeat split; auto.
      * apply Hclose; auto.
Qed.

(** The open and write phase of pgauditlogtofile_record_audit. *)
Lemma open_write_phase (e : env) (edata : ErrorData) (n : Z) (s : state)
    (msg : string) :
  message edata = Some msg ->
  exists recorded s' evs,
    (if negb (pgauditlogtofile_is_open_file s) then
       let '(opened, s1) := pgauditlogtofile_open_file e s in
       if negb opened then Ok (false, s1)
       else pgauditlogtofile_write_audit e edata n s1
     else pgauditlogtofile_write_audit e edata n s) = Ok (recorded, s')
    /\ io s' = (evs ++ io s)%list
    /\ (recorded = false <->
        existsb is_open_failure evs = true
        \/ existsb is_short_write evs = true)
    /\ (existsb is_short_write evs = true ->
        exists f, file_handler s' = Some f)
    /\ (existsb is_open_failure evs = true -> file_handler s' = None)
    /\ filename s' = filename s
    /\ (session_invariant s -> session_invariant s')
    /\ (forall f data rc,
          In (IoFwrite f data rc) evs ->
          file_handler s' = Some f
          /\ (file_handler s = Some f
              \/ file_handler s = None /\ f = Stream (filename s))).
Proof.
  intros Hmsg.
  assert (Hwrite : forall s1 f evs1,
            file_handler s1 = Some f ->
            io s1 = (evs1 ++ io s)%list ->
            existsb is_open_failure evs1 = false ->
            existsb is_short_write evs1 = false ->
            (forall g data rc, ~ In (IoFwrite g data rc) evs1) ->
            filename s1 = filename s ->
            (file_handler s = Some f
             \/ file_handler s = None /\ f = Stream (filename s)) ->
            exists recorded s' evs,
              pgauditlogtofile_write_audit e edata n s1 = Ok (recorded, s')
              /\ io s' = (evs ++ io s)%list
              /\ (recorded = false <->
                  existsb is_open_failure evs = true
                  \/ existsb is_short_write evs = true)
              /\ (existsb is_short_write evs = true ->
                  exists f, file_handler s' = Some f)
              /\ (existsb is_open_failure evs = true ->
                  file_handler s' = None)
              /\ filename s' = filename s
              /\ (filename_in_use s1 = stream_path f ->
                  session_invariant s')
              /\ (forall g data rc,
                    In (IoFwrite g data rc) evs ->
                    file_handler s' = Some g
                    /\ (file_handler s = Some g
                        \/ file_handler s = None
                           /\ g = Stream (filename s)))).
  { intros s1 f evs1 Hf Hio Hno1 Hno2 Hnow Hname Horigin.
    destruct (write_audit_run e edata n s1 msg f Hmsg Hf)
      as (line & s2 & Hf2 & Hname2 & Hfiu2 & Hio2 & Hrun).
    rewrite Hrun. cbv zeta.
    set (rc := int32 (fwrite_count e line)).
    assert (Hsw : is_short_write (IoFwrite f line rc)
                  = negb (rc =? int32 (Z.of_nat (String.length line))))
      by reflexivity.
    destruct (negb (rc =? int32 (Z.of_nat (String.length line)))) eqn:Hrc.
    - exists false. eexists.
      exists (IoWarning "could not write audit log file" (filename s2)
              :: IoFwrite f line rc :: evs1).
      split; [reflexivity|]. sproj.
      split; [rewrite Hio2, Hio; reflexivity|].
      cbn [existsb is_open_failure]. rewrite Hsw.
      split; [split; [intros _; right; reflexivity | reflexivity]|].
      split; [intros _; exists f; exact Hf2|].
      split; [rewrite Hno1; discriminate|].
      split; [congruence|].
      split; [intros Hinv g Hg; sproj; congruence|].
      intros g data rc' [Hin | [Hin | Hin]];
        [discriminate | | exfalso; exact (Hnow _ _ _ Hin)].
      injection Hin as <- <- <-. split; [exact Hf2 | exact Horigin].
    - exists true. eexists. exists (IoFwrite f line rc :: evs1).
      split; [reflexivity|]. sproj.
      split; [rewrite Hio2, Hio; reflexivity|].
      cbn [existsb is_open_failure]. rewrite Hsw, Hno1, Hno2.
      split; [split; [discriminate | intros [H|H]; discriminate]|].
      split; [discriminate|].
      split; [discriminate|].
      split; [congruence|].
      split; [intros Hinv g Hg; sproj; congruence|].
      intros g data rc' [Hin | Hin]; [|exfalso; exact (Hnow _ _ _ Hin)].
      injection Hin as <- <- <-. split; [exact Hf2 | exact Horigin]. }
  unfold pgauditlogtofile_is_open_file.
  destruct (file_handler s) as [f|] eqn:Hf; cbn [negb].
  - (* a stream is open *)
    destruct (Hwrite s f [] Hf eq_refl eq_refl eq_refl
                (fun g data rc (H : In _ []) => H) eq_refl
                (or_introl eq_refl))
      as (recorded & s' & evs & H1 & H2 & H3 & H4 & H5 & H6 & H7 & H8).
    exists recorded, s', evs.
    repeat (split; [assumption|]).
    split; [|exact H8].
    intros Hinv. apply H7, Hinv, Hf.
  - (* no stream: open first *)
    unfold pgauditlogtofile_open_file.
    set (s0 := match guc_pgaudit_log_directory s with
               | Some dir => log_io (IoMkdir dir) s
               | None => s
               end).
    assert (H0 : exists evs0,
               io s0 = (evs0 ++ io s)%list
               /\ existsb is_open_failure evs0 = false
               /\ existsb is_short_write evs0 = false
               /\ (forall g data rc, ~ In (IoFwrite g data rc) evs0)
               /\ filename s0 = filename s
               /\ filename_in_use s0 = filename_in_use s).
    { unfold s0. destruct (guc_pgaudit_log_directory s) as [dir|].
      - exists [IoMkdir dir]. repeat split; try reflexivity.
        intros g data rc [H|[]]; discriminate.
      - exists []. repeat split; try reflexivity.
        intros g data rc []. }
    destruct H0 as (evs0 & Hio0 & Hno1 & Hno2 & Hnow & Hname0 & Hfiu0).
    clearbody s0.
    destruct (fopen_succeeds e (filename s0)) eqn:Hopen; cbv zeta; sproj;
      cbn [negb].
    + destruct (Hwrite
                  (set_filename_in_use (filename s0)
                     (set_file_handler (Some (Stream (filename s0)))
                        (log_io (IoFopen (filename s0) true) s0)))
                  (Stream (filename s0))
                  (IoFopen (filename s0) true :: evs0))
        as (recorded & s' & evs & H1 & H2 & H3 & H4 & H5 & H6 & H7 & H8).
      * reflexivity.
      * sproj. rewrite Hio0. reflexivity.
      * cbn [existsb is_open_failure orb]. exact Hno1.
      * cbn [existsb is_short_write orb]. exact Hno2.
      * intros g data rc [H|H]; [discriminate | exact (Hnow _ _ _ H)].
      * sproj. exact Hname0.
      * right. split; [reflexivity | rewrite Hname0; reflexivity].
      * exists recorded, s', evs.
        repeat (split; [assumption|]).
        split; [|exact H8].
        intros _. apply H7. reflexivity.
    + exists false. eexists.
      exists (IoWarning "could not open log file" (filename s0)
              :: IoFopen (filename s0) false :: evs0).
      split; [reflexivity|]. sproj.
      split; [rewrite Hio0; reflexivity|].
      cbn [existsb is_open_failure is_short_write orb].
      split; [split; [intros _; left; reflexivity | reflexivity]|].
      split; [rewrite Hno2; discriminate|].
      split; [reflexivity|].
      split; [exact Hname0|].
      split; [intros _ g Hg; discriminate|].
      intros g data rc [H|[H|H]];
        [discriminate | discriminate | exfalso; exact (Hnow _ _ _ H)].
Qed.

Lemma record_audit_phases (e : env) (edata : ErrorData) (n : Z) (s : state) :
  pgauditlogtofile_record_audit e edata n s
  = (s2 <- (' (rotate, s1) <- pgauditlogtofile_needs_rotate_file e s ;;
            if rotate
            then s1 <- pgauditlogtofile_calculate_filename e s1 ;;
                 Ok (pgauditlogtofile_close_file s1)
            else Ok s1) ;;
     if negb (pgauditlogtofile_is_open_file s2) then
       let '(opened, s3) := pgauditlogtofile_open_file e s2 in
       if negb opened then Ok (false, s3)
       else pgauditlogtofile_write_audit e edata n s3
     else pgauditlogtofile_write_audit e edata n s2).
Proof.
  unfold pgauditlogtofile_record_audit.
  destruct (pgauditlogtofile_needs_rotate_file e s) as [[rotate s1]|];
    reflexivity.
Qed.

(** What one call of pgauditlogtofile_record_audit does, read off its
    result and the events it adds to the trace. *)
Lemma record_audit_outcome (e : env) (edata : ErrorData) (n : Z) (s : state)
    (shm : pgAuditLogToFileShm) (dir pat msg : string) :
  pgaudit_log_shm s = Some shm ->
  guc_pgaudit_log_directory s = Some dir ->
  guc_pgaudit_log_filename s = Some pat ->
  valid_rotation_age (guc_pgaudit_log_rotation_age s) ->
  message edata = Some msg ->
  exists recorded s' evs,
    pgauditlogtofile_record_audit e edata n s = Ok (recorded, s')
    /\ io s' = (evs ++ io s)%list
    /\ (recorded = false <->
        existsb is_open_failure evs = true
        \/ existsb is_short_write evs = true)
    /\ (existsb is_short_write evs = true ->
        exists f, file_handler s' = Some f)
    /\ (existsb is_open_failure evs = true -> file_handler s' = None)
    /\ (session_invariant s -> session_invariant s')
    /\ (session_invariant s ->
        forall f data rc,
          In (IoFwrite f data rc) evs ->
          file_handler s' = Some f /\ stream_path f = filename s').
Proof.
  intros Hshm Hdir Hpat Hage Hmsg.
  rewrite record_audit_phases.
  destruct (rotation_phase e s shm dir pat Hshm Hdir Hpat Hage)
    as (s2 & evs0 & -> & Hio0 & Hof0 & Hsw0 & Hnow0 & Hfiu0 & Hrot).
  cbn [bind].
  destruct (open_write_phase e edata n s2 msg Hmsg)
    as (recorded & s' & evs & -> & Hio & Hiff & Hshort & Hfail & Hname
        & Hinv & Hwrites).
  exists recorded, s', (evs ++ evs0)%list.
  split; [reflexivity|].
  split; [rewrite Hio, Hio0, app_assoc; reflexivity|].
  rewrite !existsb_app, Hof0, Hsw0, !orb_false_r.
  split; [exact Hiff|].
  split; [exact Hshort|].
  split; [exact Hfail|].
  assert (Hinv2 : session_invariant s -> session_invariant s2).
  { intros Hs. destruct Hrot as [Hnone | [-> _]]; [|exact Hs].
    intros f Hf. congruence. }
  split; [intros Hs; apply Hinv, Hinv2, Hs|].
  intros Hs f data rc Hin.
  apply in_app_or in Hin.
  destruct Hin as [Hin | Hin]; [|exfalso; exact (Hnow0 _ _ _ Hin)].
  destruct (Hwrites f data rc Hin) as [Hopen Horigin].
  split; [exact Hopen|].
  rewrite Hname.
  destruct Horigin as [Hwas | [_ ->]]; [|reflexivity].
  destruct Hrot as [Hnone | [-> Hsame]]; [congruence|].
  rewrite <- Hsame. symmetry. apply Hs, Hwas.
Qed.

(** *** One call of pgauditlogtofile_record_audit in full *)

Lemma audit_fields_statics (e : env) (edata : ErrorData) (msg : string)
    (n : Z) (s s1 : state) :
  same_line_statics s s1 ->
  audit_fields e edata msg n (audit_line_state e s1)
  = audit_fields e edata msg n (audit_line_state e s).
Proof.
  intros (Hn & Hp & Hs).
  unfold audit_fields, audit_line_state, pgauditlogtofile_format_log_time.
  cbv zeta. rewrite Hp.
  destruct (negb (log_my_pid s =? MyProcPid e)); sproj;
    rewrite ?Hn, ?Hs, ?Hp; reflexivity.
Qed.

Lemma write_audit_result (e : env) (edata : ErrorData) (n : Z) (s : state)
    (msg : string) (f : FILE) :
  message edata = Some msg ->
  file_handler s = Some f ->
  let line :=
    join_fields (audit_fields e edata msg n (audit_line_state e s))
    ++ String newline "" in
  let rc := int32 (fwrite_count e line) in
  let complete := rc =? int32 (Z.of_nat (String.length line)) in
  exists s',
    pgauditlogtofile_write_audit e edata n s = Ok (complete, s')
    /\ io s'
       = ((if complete then []
           else [IoWarning "could not write audit log file" (filename s)])
          ++ IoFwrite f line rc :: io s)%list
    /\ file_handler s' = Some f
    /\ filename s' = filename s
    /\ filename_in_use s' = filename_in_use s
    /\ next_rotation_time s' = next_rotation_time s.
Proof.
  intros Hmsg Hf line rc complete.
  destruct (audit_line_state_shape e s) as (a & b & c & d & E).
  unfold pgauditlogtofile_write_audit.
  rewrite (create_audit_line_fields "" e edata n s msg Hmsg). cbn [bind].
  change ("" ++ join_fields (audit_fields e edata msg n (audit_line_state e s))
             ++ String newline "") with line.
  fold rc. fold complete.
  rewrite E. sproj. rewrite Hf.
  destruct complete; cbn [negb]; eexists; (split; [reflexivity|]); sproj;
    repeat split; assumption.
Qed.

Lemma needs_rotate_file_frame (e : env) (s : state)
    (shm : pgAuditLogToFileShm) :
  pgaudit_log_shm s = Some shm ->
  valid_rotation_age (guc_pgaudit_log_rotation_age s) ->
  exists rotate s1,
    pgauditlogtofile_needs_rotate_file e s = Ok (rotate, s1)
    /\ file_handler s1 = file_handler s
    /\ filename s1 = filename s
    /\ filename_in_use s1 = filename_in_use s
    /\ io s1 = io s
    /\ same_line_statics s s1
    /\ guc_pgaudit_log_directory s1 = guc_pgaudit_log_directory s
    /\ guc_pgaudit_log_filename s1 = guc_pgaudit_log_filename s.
Proof.
  intros Hshm Hage. unfold pgauditlogtofile_needs_rotate_file. rewrite Hshm.
  destruct (force_rotation shm).
  - do 2 eexists. split; [reflexivity|]. repeat split.
  - destruct (int64 (time_check e) >=? next_rotation_time s).
    + destruct (calculate_next_rotation_time_total e s Hage) as [nrt ->].
      cbn [bind]. do 2 eexists. split; [reflexivity|]. repeat split.
    + destruct (negb (filename_in_use s =? filename s)%string);
        do 2 eexists; (split; [reflexivity|]); repeat split.
Qed.

(** The open and write phase, told from the two oracles. *)
Lemma open_write_result (e : env) (edata : ErrorData) (n : Z) (s : state)
    (msg : string) :
  message edata = Some msg ->
  let line :=
    join_fields (audit_fields e edata msg n (audit_line_state e s))
    ++ String newline "" in
  let rc := int32 (fwrite_count e line) in
  let complete := rc =? int32 (Z.of_nat (String.length line)) in
  let reopen := negb (pgauditlogtofile_is_open_file s) in
  let open_failed := reopen && negb (fopen_succeeds e (filename s)) in
  exists recorded s' evs,
    (if negb (pgauditlogtofile_is_open_file s) then
       let '(opened, s1) := pgauditlogtofile_open_file e s in
       if negb opened then Ok (false, s1)
       else pgauditlogtofile_write_audit e edata n s1
     else pgauditlogtofile_write_audit e edata n s) = Ok (recorded, s')
    /\ io s' = (evs ++ io s)%list
    /\ filename s' = filename s
    /\ next_rotation_time s' = next_rotation_time s
    /\ recorded = negb open_failed && complete
    /\ (forall g, ~ In (IoFclose g) evs)
    /\ (reopen = true ->
        In (IoFopen (filename s) (fopen_succeeds e (filename s))) evs)
    /\ (open_failed = true ->
        file_handler s' = None
        /\ filename_in_use s' = filename_in_use s
        /\ forall g d r, ~ In (IoFwrite g d r) evs)
    /\ (open_failed = false ->
        exists f,
          file_handler s' = Some f
          /\ In (IoFwrite f line rc) evs
          /\ (forall g d r,
                In (IoFwrite g d r) evs -> g = f /\ d = line /\ r = rc)
          /\ (reopen = true ->
              f = Stream (filename s) /\ filename_in_use s' = filename s)
          /\ (reopen = false ->
              file_handler s = Some f
              /\ filename_in_use s' = filename_in_use s)).
Proof.
  intros Hmsg line rc complete reopen open_failed.
  unfold open_failed, reopen, pgauditlogtofile_is_open_file.
  destruct (file_handler s) as [f|] eqn:Hf; cbn [negb andb].
  - (* a stream is open *)
    destruct (write_audit_result e edata n s msg f Hmsg Hf)
      as (s' & Hrun & Hio & Hh & Hn & Hu & Hr).
    fold line rc complete in Hrun, Hio.
    exists complete, s'.
    exists ((if complete then []
             else [IoWarning "could not write audit log file" (filename s)])
            ++ [IoFwrite f line rc])%list.
    split; [exact Hrun|].
    split; [rewrite Hio, <- app_assoc; reflexivity|].
    split; [exact Hn|]. split; [exact Hr|]. split; [reflexivity|].
    split.
    { intros g Hin. apply in_app_or in Hin. destruct Hin as [Hin | [Hin | []]].
      - destruct complete; [destruct Hin | destruct Hin as [Hin | []]];
          discriminate Hin.
      - discriminate Hin. }
    split; [discriminate|]. split; [discriminate|].
    intros _. exists f. split; [exact Hh|].
    split; [apply in_or_app; right; left; reflexivity|].
    split.
    { intros g d r Hin. apply in_app_or in Hin.
      destruct Hin as [Hin | [Hin | []]].
      - destruct complete; [destruct Hin | destruct Hin as [Hin | []]];
          discriminate Hin.
      - injection Hin as <- <- <-. repeat split. }
    split; [discriminate|]. intros _. split; [reflexivity | exact Hu].
  - (* no stream: open first *)
    unfold pgauditlogtofile_open_file.
    set (s0 := match guc_pgaudit_log_directory s with
               | Some dir => log_io (IoMkdir dir) s
               | None => s
               end).
    assert (H0 : exists evs0,
               io s0 = (evs0 ++ io s)%list
               /\ (forall g, ~ In (IoFclose g) evs0)
               /\ (forall g d r, ~ In (IoFwrite g d r) evs0)
               /\ filename s0 = filename s
               /\ filename_in_use s0 = filename_in_use s
               /\ next_rotation_time s0 = next_rotation_time s
               /\ same_line_statics s s0).
    { unfold s0. destruct (guc_pgaudit_log_directory s) as [dir|].
      - exists [IoMkdir dir]. repeat split; try reflexivity.
        + intros g [H|[]]; discriminate.
        + intros g d r [H|[]]; discriminate.
      - exists []. repeat split; try reflexivity.
        + intros g [].
        + intros g d r []. }
    destruct H0 as (evs0 & Hio0 & Hnc0 & Hnw0 & Hn0 & Hu0 & Hr0 & Hst0).
    clearbody s0. rewrite Hn0.
    destruct (fopen_succeeds e (filename s)) eqn:Hopen; cbv zeta; sproj;
      cbn [negb]; rewrite ?Hn0.
    + set (s3 := set_filename_in_use (filename s)
                   (set_file_handler (Some (Stream (filename s)))
                      (log_io (IoFopen (filename s) true) s0))).
      destruct (write_audit_result e edata n s3 msg (Stream (filename s))
                  Hmsg eq_refl)
        as (s' & Hrun & Hio & Hh & Hn & Hu & Hr).
      rewrite (audit_fields_statics e edata msg n s s3) in Hrun, Hio
        by exact Hst0.
      fold line rc complete in Hrun, Hio.
      unfold s3 in Hio, Hn, Hu, Hr. sproj. rewrite Hio0 in Hio.
      rewrite Hn0 in Hio.
      exists complete, s'.
      exists ((if complete then []
               else [IoWarning "could not write audit log file" (filename s)])
              ++ IoFwrite (Stream (filename s)) line rc
                 :: IoFopen (filename s) true :: evs0)%list.
      split; [exact Hrun|].
      split; [rewrite Hio, <- !app_assoc; reflexivity|].
      split; [congruence|]. split; [congruence|]. split; [reflexivity|].
      split.
      { intros g Hin. apply in_app_or in Hin.
        destruct Hin as [Hin | [Hin | [Hin | Hin]]].
        - destruct complete; [destruct Hin | destruct Hin as [Hin | []]];
            discriminate Hin.
        - discriminate Hin.
        - discriminate Hin.
        - exact (Hnc0 _ Hin). }
      split.
      { intros _. apply in_or_app. right. right. left. reflexivity. }
      split; [discriminate|].
      intros _. exists (Stream (filename s)). split; [exact Hh|].
      split; [apply in_or_app; right; left; reflexivity|].
      split.
      { intros g d r Hin. apply in_app_or in Hin.
        destruct Hin as [Hin | [Hin | [Hin | Hin]]].
        - destruct complete; [destruct Hin | destruct Hin as [Hin | []]];
            discriminate Hin.
        - injection Hin as <- <- <-. repeat split.
        - discriminate Hin.
        - exfalso. exact (Hnw0 _ _ _ Hin). }
      split; [|discriminate]. intros _. split; [reflexivity | exact Hu].
    + exists false. eexists.
      exists (IoWarning "could not open log file" (filename s)
              :: IoFopen (filename s) false :: evs0).
      split; [reflexivity|]. sproj.
      split; [rewrite Hio0; reflexivity|].
      split; [exact Hn0|]. split; [exact Hr0|]. split; [reflexivity|].
      split.
      { intros g [Hin | [Hin | Hin]];
          [discriminate | discriminate | exact (Hnc0 _ Hin)]. }
      split; [intros _; right; left; reflexivity|].
      split; [|discriminate].
      intros _. split; [reflexivity|]. split; [exact Hu0|].
      intros g d r [Hin | [Hin | Hin]];
        [discriminate | discriminate | exact (Hnw0 _ _ _ Hin)].
Qed.

(** One call of pgauditlogtofile_record_audit, told from the answer of
    the rotation check and from the two oracles [fopen_succeeds] and
    [fwrite_count]. *)
Lemma record_audit_result (e : env) (edata : ErrorData) (n : Z) (s : state)
    (shm : pgAuditLogToFileShm) (pat msg : string) :
  pgaudit_log_shm s = Some shm ->
  guc_pgaudit_log_filename s = Some pat ->
  valid_rotation_age (guc_pgaudit_log_rotation_age s) ->
  message edata = Some msg ->
  let line :=
    join_fields (audit_fields e edata msg n (audit_line_state e s))
    ++ String newline "" in
  let rc := int32 (fwrite_count e line) in
  let complete := rc =? int32 (Z.of_nat (String.length line)) in
  let buf :=
    snprintf_s MAXPGPATH (fmt_s (guc_pgaudit_log_directory s) ++ "/") in
  exists rotate s1 recorded s' evs,
    pgauditlogtofile_needs_rotate_file e s = Ok (rotate, s1)
    /\ pgauditlogtofile_record_audit e edata n s = Ok (recorded, s')
    /\ io s' = (evs ++ io s)%list
    /\ next_rotation_time s' = next_rotation_time s1
    /\ filename s'
       = (if rotate
          then buf ++ pg_strftime e (MAXPGPATH - Z.of_nat (String.length buf))
                        pat (current_rotation_time s1)
          else filename s)
    /\ (forall f,
          In (IoFclose f) evs <-> rotate = true /\ file_handler s = Some f)
    /\ let reopen := rotate || negb (pgauditlogtofile_is_open_file s) in
       let open_failed :=
         reopen && negb (fopen_succeeds e (filename s')) in
       recorded = negb open_failed && complete
       /\ (reopen = true ->
           In (IoFopen (filename s') (fopen_succeeds e (filename s'))) evs)
       /\ (open_failed = true ->
           file_handler s' = None
           /\ filename_in_use s' = filename_in_use s
           /\ forall g d r, ~ In (IoFwrite g d r) evs)
       /\ (open_failed = false ->
           exists f,
             file_handler s' = Some f
             /\ In (IoFwrite f line rc) evs
             /\ (forall g d r,
                   In (IoFwrite g d r) evs -> g = f /\ d = line /\ r = rc)
             /\ (reopen = true ->
                 f = Stream (filename s') /\ filename_in_use s' = filename s')
             /\ (reopen = false ->
                 file_handler s = Some f
                 /\ filename_in_use s' = filename_in_use s)).
Proof.
  intros Hshm Hpat Hage Hmsg line rc complete buf.
  destruct (needs_rotate_file_frame e s shm Hshm Hage)
    as (rotate & s1 & Hcheck & Hh1 & Hn1 & Hu1 & Hio1 & Hst1 & Hd1 & Hp1).
  exists rotate, s1.
  rewrite record_audit_phases, Hcheck. cbn [bind].
  assert (H2 : exists s2 closes,
             (if rotate
              then s1 <- pgauditlogtofile_calculate_filename e s1 ;;
                   Ok (pgauditlogtofile_close_file s1)
              else Ok s1) = Ok s2
             /\ io s2 = (closes ++ io s)%list
             /\ (forall f, In (IoFclose f) closes
                           <-> rotate = true /\ file_handler s = Some f)
             /\ (forall g d r, ~ In (IoFwrite g d r) closes)
             /\ (forall p o, ~ In (IoFopen p o) closes)
             /\ file_handler s2
                = (if rotate then None else file_handler s)
             /\ filename s2
                = (if rotate
                   then buf ++ pg_strftime e
                                 (MAXPGPATH - Z.of_nat (String.length buf))
                                 pat (current_rotation_time s1)
                   else filename s)
             /\ filename_in_use s2 = filename_in_use s
             /\ next_rotation_time s2 = next_rotation_time s1
             /\ same_line_statics s s2).
  { destruct rotate.
    - unfold pgauditlogtofile_calculate_filename. rewrite Hd1, Hp1, Hpat.
      fold buf. cbn [bind]. unfold pgauditlogtofile_close_file. sproj.
      rewrite Hh1. destruct (file_handler s) as [f|].
      + eexists. exists [IoFclose f]. split; [reflexivity|]. sproj.
        split; [rewrite Hio1; reflexivity|].
        split.
        { intros g. split.
          - intros [Hin|[]]. injection Hin as <-. split; reflexivity.
          - intros [_ Hin]. injection Hin as <-. left. reflexivity. }
        split; [intros g d r [Hin|[]]; discriminate Hin|].
        split; [intros p o [Hin|[]]; discriminate Hin|].
        split; [reflexivity|]. split; [reflexivity|].
        split; [exact Hu1|]. split; [reflexivity | exact Hst1].
      + eexists. exists []. split; [reflexivity|]. sproj.
        split; [rewrite Hio1; reflexivity|].
        split.
        { intros g. split; [intros [] | intros [_ Hin]; discriminate Hin]. }
        split; [intros g d r []|].
        split; [intros p o []|].
        split; [exact Hh1|]. split; [reflexivity|].
        split; [exact Hu1|]. split; [reflexivity | exact Hst1].
    - exists s1, []. split; [reflexivity|].
      split; [exact Hio1|].
      split.
      { intros g. split; [intros [] | intros [Hin _]; discriminate Hin]. }
      split; [intros g d r []|].
      split; [intros p o []|].
      split; [exact Hh1|]. split; [exact Hn1|].
      split; [exact Hu1|]. split; [reflexivity | exact Hst1]. }
  destruct H2 as (s2 & closes & -> & Hio2 & Hcl & Hnw & Hno & Hh2 & Hn2 & Hu2
                  & Hr2 & Hst2).
  cbn [bind].
  destruct (open_write_result e edata n s2 msg Hmsg)
    as (recorded & s' & evs & Hrun & Hio & Hn & Hr & Hrec & Hnc & Hop
        & Hfail & Hgood).
  rewrite (audit_fields_statics e edata msg n s s2 Hst2) in Hrec, Hgood.
  fold line rc complete in Hrec, Hgood.
  assert (Hre : negb (pgauditlogtofile_is_open_file s2)
                = rotate || negb (pgauditlogtofile_is_open_file s)).
  { unfold pgauditlogtofile_is_open_file. rewrite Hh2.
    destruct rotate; reflexivity. }
  rewrite Hre, <- Hn in Hrec, Hop, Hfail, Hgood.
  exists recorded, s', (evs ++ closes)%list.
  split; [reflexivity|]. split; [exact Hrun|].
  split; [rewrite Hio, Hio2, app_assoc; reflexivity|].
  split; [congruence|]. split; [congruence|].
  split.
  { intros f. rewrite in_app_iff, <- Hcl. split; [|tauto].
    intros [H|H]; [exfalso; exact (Hnc _ H) | exact H]. }
  cbv zeta. split; [exact Hrec|].
  split; [intros H; apply in_or_app; left; exact (Hop H)|].
  split.
  { intros H. destruct (Hfail H) as (A & B & C).
    split; [exact A|]. split; [congruence|].
    intros g d r Hin. apply in_app_or in Hin.
    destruct Hin as [Hin|Hin]; [exact (C _ _ _ Hin) | exact (Hnw _ _ _ Hin)]. }
  intros H. destruct (Hgood H) as (f & A & B & C & D & E).
  exists f. split; [exact A|].
  split; [apply in_or_app; left; exact B|].
  split.
  { intros g d r Hin. apply in_app_or in Hin.
    destruct Hin as [Hin|Hin]; [exact (C _ _ _ Hin)|].
    exfalso. exact (Hnw _ _ _ Hin). }
  split.
  - intros Ht. destruct (D Ht) as [D1 D2]. split; congruence.
  - intros Hf. destruct (E Hf) as [E1 E2].
    destruct rotate; [discriminate Hf|]. split; congruence.
Qed.


Lemma emit_log_intercept_cases (s : state) (edata : ErrorData) (msg : string) :
  0 <= fst (emit_log_intercept s edata msg) ->
  snd (emit_log_intercept s edata msg) = set_output_to_server false edata.
Proof.
  unfold emit_log_intercept.
  destruct (pg_strncasecmp _ _ _ =? 0); [reflexivity|].
  destruct (pgauditlogtofile_is_prefixed s msg); [reflexivity|].
  cbn [fst]. lia.
Qed.

Lemma is_enabled_configured (s : state) :
  pgauditlogtofile_is_enabled s = true ->
  exists shm dir pat,
    pgaudit_log_shm s = Some shm
    /\ guc_pgaudit_log_directory s = Some dir
    /\ guc_pgaudit_log_filename s = Some pat.
Proof.
  unfold pgauditlogtofile_is_enabled.
  destruct (pgaudit_log_shm s) as [shm|]; [|discriminate].
  destruct (guc_pgaudit_log_directory s) as [dir|]; [|discriminate].
  destruct (guc_pgaudit_log_filename s) as [pat|]; [|discriminate].
  intros _. exists shm, dir, pat. repeat split.
Qed.

(** ** Rotation coordinator *)




(** ** Fallback *)

(** C7.  A captured event first has [output_to_server] set to false.  The
    hook then returns, and the flag is true again afterwards exactly when
    the attempt failed: a file had to be opened and [fopen] gave no
    stream, or [fwrite] reported another count than the length of the
    line.  After a failed open there is no stream and nothing was
    written; otherwise the formatted line went to [fwrite] once and the
    stream it went to stays open, also when the write was short. *)
Theorem failed_record_falls_back
    (e : env) (edata : ErrorData) (s : state) (msg : string) :
  pgauditlogtofile_is_enabled s = true ->
  valid_rotation_age (guc_pgaudit_log_rotation_age s) ->
  message edata = Some msg ->
  0 <= fst (emit_log_intercept s edata msg) ->
  let exclude_nchars := fst (emit_log_intercept s edata msg) in
  let marked := snd (emit_log_intercept s edata msg) in
  let line :=
    join_fields (audit_fields e edata msg exclude_nchars
                   (audit_line_state e s))
    ++ String newline "" in
  let rc := int32 (fwrite_count e line) in
  let len := int32 (Z.of_nat (String.length line)) in
  marked = set_output_to_server false edata
  /\ exists rotate s1 recorded s' evs,
       pgauditlogtofile_needs_rotate_file e s = Ok (rotate, s1)
       /\ pgauditlogtofile_record_audit e marked exclude_nchars s
          = Ok (recorded, s')
       /\ emit_log_body e edata s
          = Ok (set_output_to_server (negb recorded) edata, s')
       /\ pgauditlogtofile_emit_log e edata s
          = Ok (match prev_emit_log_hook e with
                | Some hook =>
                    hook (set_output_to_server (negb recorded) edata)
                | None => set_output_to_server (negb recorded) edata
                end, s')
       /\ io s' = (evs ++ io s)%list
       /\ let reopen := rotate || negb (pgauditlogtofile_is_open_file s) in
          let open_failed :=
            reopen && negb (fopen_succeeds e (filename s')) in
          (recorded = false <-> open_failed = true \/ rc <> len)
          /\ (open_failed = true ->
              file_handler s' = None
              /\ In (IoFopen (filename s') false) evs
              /\ forall g d r, ~ In (IoFwrite g d r) evs)
          /\ (open_failed = false ->
              exists f,
                file_handler s' = Some f
                /\ In (IoFwrite f line rc) evs
                /\ (forall g d r,
                      In (IoFwrite g d r) evs -> g = f /\ d = line /\ r = rc)
                /\ (reopen = true -> f = Stream (filename s'))
                /\ (reopen = false -> file_handler s = Some f)).
Proof.
  intros Hen Hage Hmsg Hcap n marked line rc len.
  pose proof (emit_log_intercept_cases s edata msg Hcap) as Hmark.
  split; [exact Hmark|].
  destruct (is_enabled_configured s Hen)
    as (shm & dir & pat & Hshm & Hdir & Hpat).
  assert (Hmsg' : message marked = Some msg).
  { unfold marked. rewrite Hmark. exact Hmsg. }
  destruct (record_audit_result e marked n s shm pat msg
              Hshm Hpat Hage Hmsg')
    as (rotate & s1 & recorded & s' & evs & Hcheck & Hrun & Hio & _ & _
        & _ & Hrec & Hopen & Hfail & Hgood).
  assert (Hline : join_fields (audit_fields e marked msg n
                                 (audit_line_state e s))
                  ++ String newline "" = line).
  { unfold line, marked. rewrite Hmark. reflexivity. }
  rewrite Hline in Hrec, Hgood. fold rc in Hrec, Hgood.
  fold len in Hrec.
  assert (Hbody : emit_log_body e edata s
                  = Ok (set_output_to_server (negb recorded) edata, s')).
  { unfold emit_log_body. rewrite Hen, Hmsg.
    fold n marked in Hcap |- *.
    rewrite (surjective_pairing (emit_log_intercept s edata msg)).
    fold n marked.
    destruct (Z.geb_spec n 0) as [_|Hneg]; [|lia].
    rewrite Hrun. cbn [bind]. unfold marked. rewrite Hmark.
    destruct recorded; reflexivity. }
  exists rotate, s1, recorded, s', evs.
  split; [exact Hcheck|]. split; [exact Hrun|]. split; [exact Hbody|].
  split.
  { unfold pgauditlogtofile_emit_log. rewrite Hbody. cbn [bind].
    destruct (prev_emit_log_hook e); reflexivity. }
  split; [exact Hio|].
  cbv zeta.
  set (reopen := rotate || negb (pgauditlogtofile_is_open_file s)) in *.
  set (open_failed := reopen && negb (fopen_succeeds e (filename s'))) in *.
  split.
  { rewrite Hrec.
    destruct open_failed; cbn [negb andb].
    - split; [intros _; left; reflexivity | reflexivity].
    - destruct (Z.eqb_spec rc len) as [E|NE].
      + split; [discriminate | intros [H|H]; [discriminate | contradiction]].
      + split; [intros _; right; exact NE | reflexivity]. }
  split.
  { intros Hbad. destruct (Hfail Hbad) as (Hnone & _ & Hnw).
    split; [exact Hnone|]. split; [|exact Hnw].
    unfold open_failed in Hbad. apply andb_true_iff in Hbad.
    destruct Hbad as [Hre Hno]. apply negb_true_iff in Hno.
    rewrite <- Hno. apply Hopen. exact Hre. }
  intros Hok. destruct (Hgood Hok) as (f & Hf & Hin & Huniq & Hnew & Hold).
  exists f. split; [exact Hf|]. split; [exact Hin|]. split; [exact Huniq|].
  split.
  - intros Hre. apply Hnew. exact Hre.
  - intros Hre. apply Hold. exact Hre.
Qed.

(** Scenario E through the theorem: the file cannot be opened. *)
Lemma failed_record_falls_back_witness :
  exists recorded s' evs,
    emit_log_body (unwritable_env (at_clock 10 15))
      (event_with_message "AUDIT: SESSION")
      (backend_state 60 (at_clock 11 0) "log/audit.log")
    = Ok (set_output_to_server (negb recorded)
            (event_with_message "AUDIT: SESSION"), s')
    /\ io s' = (evs ++ [])%list
    /\ recorded = false
    /\ file_handler s' = None
    /\ In (IoFopen (filename s') false) evs.
Proof.
  destruct (failed_record_falls_back (unwritable_env (at_clock 10 15))
              (event_with_message "AUDIT: SESSION")
              (backend_state 60 (at_clock 11 0) "log/audit.log")
              "AUDIT: SESSION")
    as (_ & rotate & s1 & recorded & s' & evs & Hcheck & _ & Hbody & _ & Hio
        & Hiff & Hfail & _).
  - reflexivity.
  - unfold valid_rotation_age; simpl; split; [lia | discriminate].
  - reflexivity.
  - discriminate.
  - assert (Hrot : rotate = true).
    { vm_compute in Hcheck. injection Hcheck as <- _. reflexivity. }
    subst rotate.
    assert (Hbad : true || negb (pgauditlogtofile_is_open_file
                                   (backend_state 60 (at_clock 11 0)
                                      "log/audit.log"))
                   && negb (fopen_succeeds (unwritable_env (at_clock 10 15))
                              (filename s')) = true) by reflexivity.
    destruct (Hfail Hbad) as (Hnone & Hin & _).
    exists recorded, s', evs.
    split; [exact Hbody|]. split; [exact Hio|].
    split; [apply Hiff; left; exact Hbad|].
    split; [exact Hnone | exact Hin].
Defined.

(** ** The audit prefix *)



(** Scenario E: the file cannot be opened. *)
Example scenario_E :
  match pgauditlogtofile_emit_log (unwritable_env (at_clock 10 15))
          (event_with_message "AUDIT: SESSION")
          (backend_state 60 (at_clock 11 0) "log/audit.log") with
  | Ok (edata, s') =>
      output_to_server edata = true /\ file_handler s' = None
      /\ io s' = [ IoWarning "could not open log file" "log/audit.log";
                   IoFopen "log/audit.log" false; IoMkdir "log" ]
  | Fault _ => False
  end.
Proof. vm_compute. repeat split. Qed.

(** A write that stops after ten bytes: the event falls back and the
    stream stays open. *)
Example short_write_keeps_stream :
  match pgauditlogtofile_emit_log (short_write_env (at_clock 10 15))
          (event_with_message "AUDIT: SESSION")
          (backend_state 60 (at_clock 11 0) "log/audit.log") with
  | Ok (edata, s') =>
      output_to_server edata = true
      /\ file_handler s' = Some (Stream "log/audit.log")
      /\ filename_in_use s' = "log/audit.log"
  | Fault _ => False
  end.
Proof. vm_compute. repeat split. Qed.

(** The same event when everything works: it stays out of the server
    log. *)
Example recorded_event_is_suppressed :
  match pgauditlogtofile_emit_log (utc_env (at_clock 10 15))
          (event_with_message "AUDIT: SESSION")
          (backend_state 60 (at_clock 11 0) "log/audit.log") with
  | Ok (edata, s') =>
      output_to_server edata = false
      /\ file_handler s' = Some (Stream "log/audit.log")
  | Fault _ => False
  end.
Proof. vm_compute. repeat split. Qed.

(** ** The file-session invariant *)


Lemma same_session_trans (s1 s2 s3 : state) :
  same_session s1 s2 -> same_session s2 s3 -> same_session s1 s3.
Proof. intros [A B] [C D]. split; congruence. Qed.






Lemma create_audit_line_null (buf : string) (e : env) (edata : ErrorData)
    (n : Z) (s : state) :
  message edata = None ->
  pgauditlogtofile_create_audit_line buf e edata n s = Fault NullDereference.
Proof.
  intros H. cbv delta [pgauditlogtofile_create_audit_line]. cbv beta.
  destruct (message edata); [discriminate | reflexivity].
Qed.

Lemma write_audit_same (e : env) (edata : ErrorData) (n : Z) (s s' : state)
    (recorded : bool) :
  pgauditlogtofile_write_audit e edata n s = Ok (recorded, s') ->
  same_session s s'.
Proof.
  destruct (message edata) as [msg|] eqn:Hmsg.
  - destruct (file_handler s) as [f|] eqn:Hf.
    + destruct (write_audit_run e edata n s msg f Hmsg Hf)
        as (line & s1 & Hf1 & _ & Hn1 & _ & Hrun).
      rewrite Hrun. cbv zeta.
      destruct (negb _); intros H; injection H as <- <-;
        split; sproj; congruence.
    + unfold pgauditlogtofile_write_audit.
      rewrite (create_audit_line_fields "" e edata n s msg Hmsg).
      cbn [bind].
      destruct (audit_line_state_shape e s) as (a & b & c & d & E).
      rewrite E. sproj. rewrite Hf. discriminate.
  - unfold pgauditlogtofile_write_audit.
    rewrite (create_audit_line_null "" e edata n s Hmsg). discriminate.
Qed.

Lemma close_file_invariant (s : state) :
  session_invariant (pgauditlogtofile_close_file s)
  /\ file_handler (pgauditlogtofile_close_file s) = None
  /\ filename_in_use (pgauditlogtofile_close_file s) = filename_in_use s.
Proof.
  unfold pgauditlogtofile_close_file, session_invariant.
  destruct (file_handler s) eqn:Hf; sproj;
    repeat split; try assumption; intros g Hg; congruence.
Qed.

(** [filename_in_use] is assigned after a successful [fopen] and at no
    other place. *)
Lemma open_file_session (e : env) (s : state) :
  fst (pgauditlogtofile_open_file e s) = fopen_succeeds e (filename s)
  /\ (fopen_succeeds e (filename s) = true ->
      file_handler (snd (pgauditlogtofile_open_file e s))
      = Some (Stream (filename s))
      /\ filename_in_use (snd (pgauditlogtofile_open_file e s)) = filename s)
  /\ (fopen_succeeds e (filename s) = false ->
      file_handler (snd (pgauditlogtofile_open_file e s)) = None
      /\ filename_in_use (snd (pgauditlogtofile_open_file e s))
         = filename_in_use s).
Proof.
  unfold pgauditlogtofile_open_file.
  destruct (guc_pgaudit_log_directory s); sproj;
    destruct (fopen_succeeds e (filename s)); sproj;
    repeat split; intros; try reflexivity; discriminate.
Qed.







Lemma staleness_is_string_comparison (e : env) (s : state)
    (shm : pgAuditLogToFileShm) :
  pgaudit_log_shm s = Some shm ->
  force_rotation shm = false ->
  int64 (time_check e) < next_rotation_time s ->
  pgauditlogtofile_needs_rotate_file e s
  = Ok (negb (String.eqb (filename_in_use s) (filename s)), s).
Proof.
  intros Hshm Hforce Hearly.
  unfold pgauditlogtofile_needs_rotate_file. rewrite Hshm, Hforce.
  destruct (Z.geb_spec (int64 (time_check e)) (next_rotation_time s));
    [lia|].
  destruct (negb _); reflexivity.
Qed.




(** ** The force-rotation flag under interleaving *)

Module ShmFacts.
Import Shm.

Lemma count_cons (p : event -> bool) (ev : event) (evs : list event) :
  count p (ev :: evs) = (b2n (p ev) + count p evs)%nat.
Proof. unfold count, b2n. cbn [filter]. destruct (p ev); reflexivity. Qed.

Lemma set_pc_same (t : tid) (p : pc) (c : config) : set_pc t p c t = p.
Proof. unfold set_pc. rewrite Nat.eqb_refl. reflexivity. Qed.

Lemma set_pc_other (t u : tid) (p : pc) (c : config) :
  u <> t -> set_pc t p c u = pcs c u.
Proof.
  intros H. unfold set_pc. destruct (Nat.eqb_spec u t); [contradiction|].
  reflexivity.
Qed.

Ltac exec_cases H :=
  unfold exec in H;
  repeat match type of H with
         | context [match ?x with _ => _ end] => destruct x eqn:?
         end;
  try discriminate H; injection H as <- <-.

Lemma exec_lock_invariant (t : tid) (a : call) (c c' : config) (ev : event) :
  exec t a c = Some (ev, c') -> lock_invariant c -> lock_invariant c'.
Proof.
  intros H Hinv u Hu.
  exec_cases H; cbn [lock pcs flag] in *;
    try (apply Hinv; exact Hu);
    destruct (Nat.eq_dec u t) as [->|Hne];
    try rewrite set_pc_same in Hu;
    try (rewrite (set_pc_other _ _ _ _ Hne) in Hu);
    try discriminate Hu; try reflexivity;
    try (apply Hinv; exact Hu).
  all: try (specialize (Hinv u Hu); congruence).
  all: try (pose proof (Hinv u Hu) as A;
            assert (B : lock c = Some t) by (apply Hinv; rewrite Heqp; reflexivity);
            congruence).
  all: apply Hinv; rewrite Heqp; reflexivity.
Qed.

(** What backend [t] has seen never exceeds what has been stored. *)
Lemma exec_seen_bound (t u : tid) (a : call) (c c' : config) (ev : event)
    (seen sets : nat) :
  exec u a c = Some (ev, c') ->
  (seen + pending t c <= sets)%nat ->
  (seen + b2n (is_seen_by t ev) + pending t c'
   <= sets + b2n (is_set_true ev))%nat.
Proof.
  intros H Hle. unfold pending in *.
  exec_cases H; cbn [flag pcs lock is_seen_by is_set_true b2n andb] in *;
    try lia;
    unfold set_pc; destruct (Nat.eqb_spec t u) as [->|Hne];
    try rewrite Nat.eqb_refl;
    try (destruct (Nat.eqb_spec u t) as [E|_]; [congruence|]);
    repeat match goal with
           | H : pcs c u = _ |- _ => rewrite H in *
           | H : flag c = _ |- _ => rewrite H in *
           end;
    cbn [consuming negb andb b2n] in *;
    try lia;
    destruct (flag c); destruct (consuming (pcs c t));
      cbn [negb andb] in *; lia.
Qed.

(** A call of request_rotation stores at most once. *)
Lemma exec_store_bound (t u : tid) (a : call) (c c' : config) (ev : event)
    (sets reqs : nat) :
  exec u a c = Some (ev, c') ->
  (sets + storing (pcs c t) <= reqs)%nat ->
  (sets + b2n (is_set_true_by t ev) + storing (pcs c' t)
   <= reqs + b2n (is_request_by t ev))%nat.
Proof.
  intros H Hle.
  exec_cases H; cbn [flag pcs lock is_set_true_by is_request_by b2n] in *;
    try lia;
    unfold set_pc; destruct (Nat.eqb_spec t u) as [->|Hne];
    try rewrite Nat.eqb_refl;
    try (destruct (Nat.eqb_spec u t) as [E|_]; [congruence|]);
    repeat match goal with
           | H : pcs c u = _ |- _ => rewrite H in *
           end;
    cbn [storing b2n] in *; lia.
Qed.

Lemma run_invariants (t : tid) (sched : list (tid * call)) :
  forall c evs c' seen sets stores reqs,
    run sched c = Some (evs, c') ->
    lock_invariant c ->
    (seen + pending t c <= sets)%nat ->
    (stores + storing (pcs c t) <= reqs)%nat ->
    lock_invariant c'
    /\ (seen + count (is_seen_by t) evs + pending t c'
        <= sets + count is_set_true evs)%nat
    /\ (stores + count (is_set_true_by t) evs + storing (pcs c' t)
        <= reqs + count (is_request_by t) evs)%nat.
Proof.
  induction sched as [|[u a] rest IH];
    intros c evs c' seen sets stores reqs Hrun Hl Hs Hr; cbn [run] in Hrun.
  - injection Hrun as <- <-. split; [exact Hl|].
    unfold count. cbn. lia.
  - destruct (exec u a c) as [[ev c1]|] eqn:Hex; [|discriminate].
    destruct (run rest c1) as [[evs1 c2]|] eqn:Hrest; [|discriminate].
    injection Hrun as <- <-.
    destruct (IH c1 evs1 c2 (seen + b2n (is_seen_by t ev))%nat
                (sets + b2n (is_set_true ev))%nat
                (stores + b2n (is_set_true_by t ev))%nat
                (reqs + b2n (is_request_by t ev))%nat Hrest
                (exec_lock_invariant _ _ _ _ _ Hex Hl)
                (exec_seen_bound t u a c c1 ev seen sets Hex Hs)
                (exec_store_bound t u a c c1 ev stores reqs Hex Hr))
      as (A & B & C).
    split; [exact A|]. rewrite !count_cons. lia.
Qed.

Lemma init_lock_invariant : lock_invariant init.
Proof. intros t H. discriminate H. Qed.

(** C6, the claim as worded fails: the test of the flag is made before
    the lock is taken, so two backends can both find one store. *)
Lemma flag_test_not_atomic :
  ~ test_made_under_lock /\ ~ each_set_seen_once.
Proof.
  split.
  - intros H.
    pose proof (H [ (0, Request); (0, Step); (0, Step); (0, Step) ]%nat
                  _ _ 1%nat _ eq_refl eq_refl) as L.
    cbn in L. discriminate L.
  - intros H.
    pose proof (H racing_schedule _ _ eq_refl) as L.
    vm_compute in L. lia.
Qed.

(** Left alone, a rotation check that finds the flag set clears it and
    gives the lock back: the first branch of
    pgauditlogtofile_needs_rotate_file. *)
Lemma check_alone_clears (t : tid) (c : config) :
  flag c = true -> lock c = None -> pcs c t = Idle ->
  exists c',
    run [ (t, Check); (t, Step); (t, Step); (t, Step) ] c
    = Some ([ EvCheckTest t true; EvAcquire t; EvSetFalse t; EvRelease t ], c')
    /\ flag c' = false /\ lock c' = None /\ pcs c' t = Idle.
Proof.
  intros Hflag Hlock Hpc.
  cbn [run]. unfold exec at 1. rewrite Hpc, Hflag.
  unfold exec at 1. cbn [pcs lock flag]. rewrite set_pc_same, Hlock.
  unfold exec at 1. cbn [pcs lock flag]. rewrite set_pc_same.
  unfold exec at 1. cbn [pcs lock flag]. rewrite set_pc_same.
  eexists. split; [reflexivity|].
  cbn [pcs lock flag]. rewrite set_pc_same. repeat split.
Qed.

(** *** Mutual exclusion and progress *)

Lemma run_lock_invariant (sched : list (tid * call)) :
  forall c evs c',
    run sched c = Some (evs, c') -> lock_invariant c -> lock_invariant c'.
Proof.
  induction sched as [|[u a] rest IH]; intros c evs c' Hrun Hl;
    cbn [run] in Hrun.
  - injection Hrun as _ <-. exact Hl.
  - destruct (exec u a c) as [[ev c1]|] eqn:Hex; [|discriminate].
    destruct (run rest c1) as [[evs1 c2]|] eqn:Hrest; [|discriminate].
    injection Hrun as _ <-.
    exact (IH c1 evs1 c2 Hrest (exec_lock_invariant _ _ _ _ _ Hex Hl)).
Qed.

Lemma exec_lock_owner (t : tid) (a : call) (c c' : config) (ev : event) :
  exec t a c = Some (ev, c') ->
  lock_owner_invariant c -> lock_owner_invariant c'.
Proof.
  intros H Hinv u Hu.
  exec_cases H; cbn [lock pcs flag] in *;
    try (apply Hinv; exact Hu);
    try discriminate Hu;
    (destruct (Nat.eq_dec u t) as [->|Hne];
     [ try (rewrite set_pc_same; reflexivity);
       try (injection Hu as Hu; congruence);
       try (pose proof (Hinv t Hu) as A; rewrite Heqp in A; discriminate A)
     | try (injection Hu as Hu; congruence);
       rewrite (set_pc_other _ _ _ _ Hne); apply Hinv; exact Hu ]).
Qed.

Lemma run_lock_owner (sched : list (tid * call)) :
  forall c evs c',
    run sched c = Some (evs, c') ->
    lock_owner_invariant c -> lock_owner_invariant c'.
Proof.
  induction sched as [|[u a] rest IH]; intros c evs c' Hrun Hl;
    cbn [run] in Hrun.
  - injection Hrun as _ <-. exact Hl.
  - destruct (exec u a c) as [[ev c1]|] eqn:Hex; [|discriminate].
    destruct (run rest c1) as [[evs1 c2]|] eqn:Hrest; [|discriminate].
    injection Hrun as _ <-.
    exact (IH c1 evs1 c2 Hrest (exec_lock_owner _ _ _ _ _ Hex Hl)).
Qed.

(** X19.  At most one backend is between LWLockAcquire and
    LWLockRelease: two backends are never both about to store to the
    flag or to release the lock. *)
Theorem critical_section_exclusive
    (sched : list (tid * call)) (evs : list event) (c : config) (t u : tid) :
  run sched init = Some (evs, c) ->
  in_critical (pcs c t) = true ->
  in_critical (pcs c u) = true ->
  t = u.
Proof.
  intros Hrun Ht Hu.
  pose proof (run_lock_invariant sched init evs c Hrun init_lock_invariant)
    as Hl.
  pose proof (Hl t Ht) as A. pose proof (Hl u Hu) as B.
  congruence.
Qed.

Lemma critical_section_exclusive_witness : 0%nat = 0%nat.
Proof.
  eapply (critical_section_exclusive
            ((0%nat, Request) :: (0%nat, Step) :: (0%nat, Step) :: nil)).
  - reflexivity.
  - reflexivity.
  - reflexivity.
Defined.

(** X20.  The protocol cannot get stuck: in every reachable state in
    which some backend is inside one of the two procedures, some backend
    can execute its next statement; a backend waiting for the lock waits
    for one that is able to release it. *)
Theorem flag_protocol_makes_progress
    (sched : list (tid * call)) (evs : list event) (c : config) (t : tid) :
  run sched init = Some (evs, c) ->
  pcs c t <> Idle ->
  exists u ev c', exec u Step c = Some (ev, c').
Proof.
  intros Hrun Hbusy.
  pose proof (run_lock_owner sched init evs c Hrun) as Hown.
  assert (Hinit : lock_owner_invariant init)
    by (intros v Hv; discriminate Hv).
  specialize (Hown Hinit).
  assert (Hcrit : forall v, in_critical (pcs c v) = true ->
                            exists ev c', exec v Step c = Some (ev, c')).
  { intros v Hv. unfold exec.
    destruct (pcs c v); try discriminate Hv; do 2 eexists; reflexivity. }
  destruct (lock c) as [v|] eqn:Hlock.
  - exists v. apply Hcrit, Hown. exact Hlock.
  - exists t. unfold exec. rewrite Hlock.
    destruct (pcs c t); try contradiction; do 2 eexists; reflexivity.
Qed.

Lemma flag_protocol_makes_progress_witness :
  exists u ev c',
    exec u Step
      {| flag := false; lock := None;
         pcs := set_pc 0%nat ReqAcquire init |}
    = Some (ev, c').
Proof.
  eapply (flag_protocol_makes_progress ((0%nat, Request) :: nil) _ _ 0%nat).
  - reflexivity.
  - discriminate.
Defined.

End ShmFacts.
(** ** The start-up hook and the flag under interleaving *)

Module StartFacts.
Import Shm Start ShmFacts.

Lemma set_phase_same (t : tid) (p : phase) (c : system) :
  set_phase t p c t = p.
Proof. unfold set_phase. rewrite Nat.eqb_refl. reflexivity. Qed.

Lemma set_phase_other (t u : tid) (p : phase) (c : system) :
  u <> t -> set_phase t p c u = phases c u.
Proof.
  intros H. unfold set_phase. destruct (Nat.eqb_spec u t); [contradiction|].
  reflexivity.
Qed.

(** A statement of the flag protocol moves only the process that executes
    it. *)
Lemma exec_pcs_other (t u : tid) (a : call) (c c' : config) (ev : event) :
  exec t a c = Some (ev, c') -> u <> t -> pcs c' u = pcs c u.
Proof.
  intros H Hne.
  exec_cases H; cbn [pcs]; try reflexivity; apply set_pc_other; exact Hne.
Qed.

Ltac step_cases H :=
  unfold step in H;
  repeat match type of H with
         | context [match ?x with _ => _ end] => destruct x eqn:?
         end;
  try discriminate H; injection H as <- <-.

Ltac sys_simpl :=
  cbn [shared init_lock created phases flag lock pcs] in *.

(** Splits on whether [u] is the process that moved. *)
Ltac moved u t :=
  destruct (Nat.eq_dec u t) as [->|?];
  [ rewrite ?set_phase_same in *
  | rewrite ?(set_phase_other t u) in * by assumption ].

Lemma step_idle (t : tid) (m : move) (c c' : system) (ev : sys_event) :
  step t m c = Some (ev, c') ->
  (forall u, is_attached (phases c u) = false -> pcs (shared c) u = Idle) ->
  forall u, is_attached (phases c' u) = false -> pcs (shared c') u = Idle.
Proof.
  intros H A u Hu.
  step_cases H; sys_simpl;
    try (moved u t; try discriminate Hu; apply A;
         first [ assumption
               | match goal with E : phases c _ = _ |- _ =>
                   rewrite E; reflexivity end ]).
  (* a move of the flag protocol *)
  destruct (Nat.eq_dec u t) as [->|Hne].
  - match goal with E : phases c t = Attached |- _ => rewrite E in Hu end.
    discriminate Hu.
  - match goal with E : exec t _ _ = Some _ |- _ =>
      rewrite (exec_pcs_other _ _ _ _ _ _ E Hne) end.
    apply A. exact Hu.
Qed.

(** [phases c t = p] as a fact about a predicate on phases. *)
Ltac know_phase :=
  repeat match goal with
         | E : phases ?c ?t = ?p |- context [phases ?c ?t] => rewrite E
         | E : phases ?c ?t = ?p, H : context [phases ?c ?t] |- _ =>
             rewrite E in H
         end.

Lemma step_init_lock (t : tid) (m : move) (c c' : system) (ev : sys_event) :
  step t m c = Some (ev, c') ->
  (forall u, init_critical (phases c u) = true -> init_lock c = Some u) ->
  forall u, init_critical (phases c' u) = true -> init_lock c' = Some u.
Proof.
  intros H B u Hu.
  step_cases H; sys_simpl;
    pose proof (B t) as Bt;
    match goal with E : phases c t = _ |- _ => rewrite E in Bt end;
    cbn [init_critical] in Bt;
    try (moved u t; cbn [init_critical] in Hu; try discriminate Hu;
         try reflexivity; try (apply Bt; reflexivity);
         try (apply B; exact Hu);
         pose proof (B u Hu); try specialize (Bt eq_refl); congruence).
Qed.

Lemma step_created (t : tid) (m : move) (c c' : system) (ev : sys_event) :
  step t m c = Some (ev, c') ->
  (created c = false -> forall u, before_create (phases c u) = true) ->
  created c' = false -> forall u, before_create (phases c' u) = true.
Proof.
  intros H C Hc u.
  step_cases H; sys_simpl; try discriminate Hc;
    pose proof (C Hc t) as Ct;
    match goal with E : phases c t = _ |- _ => rewrite E in Ct end;
    cbn [before_create] in Ct; try discriminate Ct;
    try (moved u t; try reflexivity; apply (C Hc)).
  match goal with E : phases c ?p = Attached |- _ =>
    pose proof (C Hc p) as Cp; rewrite E in Cp; discriminate Cp end.
Qed.

Lemma creating_critical (p : phase) :
  creating p = true -> init_critical p = true.
Proof. destruct p; intros H; try discriminate H; reflexivity. Qed.

Lemma step_creating (t : tid) (m : move) (c c' : system) (ev : sys_event) :
  step t m c = Some (ev, c') ->
  start_invariant c ->
  forall x u, creating (phases c' x) = true -> u <> x ->
              waiting (phases c' u) = true.
Proof.
  intros H [A B C D Hcr G L I] x u Hx Hne.
  pose proof (D x u) as Dxu. pose proof (D x t) as Dxt.
  pose proof (D t u) as Dtu.
  pose proof (B x) as Bx. pose proof (B t) as Bt. pose proof (B u) as Bu.
  step_cases H; sys_simpl;
    try (moved x t; moved u t; know_phase;
         cbn [creating waiting init_critical] in *;
         try discriminate; try reflexivity; try contradiction;
         try (apply Dxu; assumption);
         try (apply Dtu; [reflexivity | assumption]);
         try (specialize (Dxt Hx ltac:(congruence)); discriminate Dxt);
         try (pose proof (Bx (creating_critical _ Hx)) as Bx';
              try discriminate Bx'; try specialize (Bt eq_refl);
              congruence)).
  - (* the structure is created: nobody else is past ShmemInitStruct *)
    pose proof (C eq_refl u) as Cu.
    destruct (phases c u) eqn:Eu; try discriminate Cu; try reflexivity.
    specialize (Bu eq_refl). specialize (Bt eq_refl). congruence.
  - (* a fork needs an attached parent *)
    assert (Hp : parent <> x).
    { intros ->. rewrite Heqp0 in Hx. discriminate Hx. }
    pose proof (D x parent Hx Hp) as W. rewrite Heqp0 in W. discriminate W.
Qed.

Lemma step_creator (t : tid) (m : move) (c c' : system) (ev : sys_event) :
  step t m c = Some (ev, c') ->
  (created c = true -> exists u, past_create (phases c u) = true) ->
  created c' = true -> exists u, past_create (phases c' u) = true.
Proof.
  intros H Hcr Hc.
  step_cases H; sys_simpl;
    try (exists t; rewrite set_phase_same; reflexivity);
    try (destruct (Hcr Hc) as [u Hu]; exists u; moved u t; know_phase;
         try discriminate Hu; exact Hu).
Qed.

Lemma past_create_critical (p : phase) :
  past_create p = true -> is_attached p = false -> init_critical p = true.
Proof. destruct p; intros H1 H2; try discriminate; reflexivity. Qed.

Lemma step_cleared (t : tid) (m : move) (c c' : system) (ev : sys_event) :
  step t m c = Some (ev, c') ->
  start_invariant c ->
  (forall u, is_attached (phases c' u) = false) ->
  forall x, phases c' x = SuRelease -> flag (shared c') = false.
Proof.
  intros H [A B C D Hcr G L I] Hno x Hx.
  pose proof (Hno t) as Hnot.
  step_cases H; sys_simpl; rewrite ?set_phase_same in Hnot; know_phase;
    try discriminate Hnot; try reflexivity;
    (assert (Hnoc : forall u, is_attached (phases c u) = false)
      by (intros u; specialize (Hno u); moved u t; know_phase;
          [reflexivity | exact Hno]));
    moved x t; try discriminate Hx;
    try (apply (G Hnoc x Hx)).
  (* the structure exists, so somebody made it *)
  destruct (Hcr eq_refl) as [u Hu].
  pose proof (B u (past_create_critical _ Hu (Hnoc u))) as Bu.
  pose proof (B t) as Bt. rewrite Heqp in Bt. specialize (Bt eq_refl).
  assert (u = t) by congruence. subst u.
  rewrite Heqp in Hu. discriminate Hu.
Qed.

Lemma step_lock (t : tid) (m : move) (c c' : system) (ev : sys_event) :
  step t m c = Some (ev, c') ->
  start_invariant c ->
  lock_invariant (shared c').
Proof.
  intros H [A B C D Hcr G L I].
  step_cases H; sys_simpl; try exact L.
  - (* the store to the lock pointer: nobody is attached *)
    intros u Hu. sys_simpl.
    assert (Hidle : pcs (shared c) u = Idle).
    { apply A. destruct (Nat.eq_dec u t) as [->|Hne].
      - rewrite Heqp. reflexivity.
      - assert (W : waiting (phases c u) = true)
          by (apply (D t u); [rewrite Heqp; reflexivity | assumption]).
        destruct (phases c u); try discriminate W; reflexivity. }
    rewrite Hidle in Hu. discriminate Hu.
  - (* a move of the flag protocol *)
    eapply exec_lock_invariant; eassumption.
Qed.

Lemma step_decided (t : tid) (m : move) (c c' : system) (ev : sys_event) :
  step t m c = Some (ev, c') ->
  (exists u, is_attached (phases c u) = true)
  \/ (forall u, is_attached (phases c u) = false) ->
  (exists u, is_attached (phases c' u) = true)
  \/ (forall u, is_attached (phases c' u) = false).
Proof.
  intros H [[x Hx] | Hno].
  - left. exists x.
    step_cases H; sys_simpl; try exact Hx;
      moved x t; know_phase; try discriminate Hx; try reflexivity; exact Hx.
  - pose proof (Hno t) as Hnot.
    step_cases H; sys_simpl; know_phase; try discriminate Hnot;
      try (left; exists t; rewrite set_phase_same; reflexivity);
      try (right; intros u; moved u t; [reflexivity | apply Hno]).
Qed.

Lemma step_invariant (t : tid) (m : move) (c c' : system) (ev : sys_event) :
  step t m c = Some (ev, c') -> start_invariant c -> start_invariant c'.
Proof.
  intros H Hinv. constructor.
  - apply (step_idle t m c c' ev H), Hinv.
  - apply (step_init_lock t m c c' ev H), Hinv.
  - apply (step_created t m c c' ev H), Hinv.
  - apply (step_creating t m c c' ev H Hinv).
  - apply (step_creator t m c c' ev H), Hinv.
  - apply (step_cleared t m c c' ev H Hinv).
  - apply (step_lock t m c c' ev H Hinv).
  - apply (step_decided t m c c' ev H), Hinv.
Qed.

Lemma initial_invariant (c : system) : initial c -> start_invariant c.
Proof.
  intros [-> | (flag0 & lock0 & ->)]; constructor; cbn;
    try (intros; try discriminate; reflexivity).
  - intros _. exists 0%nat. reflexivity.
  - left. exists 0%nat. reflexivity.
  - right. reflexivity.
Qed.

Lemma run_system_invariant (sched : list (tid * move)) :
  forall c evs c',
    run_system sched c = Some (evs, c') ->
    start_invariant c -> start_invariant c'.
Proof.
  induction sched as [|[u m] rest IH]; intros c evs c' Hrun Hinv;
    cbn [run_system] in Hrun.
  - injection Hrun as _ <-. exact Hinv.
  - destruct (step u m c) as [[ev c1]|] eqn:Hst; [|discriminate].
    destruct (run_system rest c1) as [[evs1 c2]|] eqn:Hrest; [|discriminate].
    injection Hrun as _ <-.
    exact (IH c1 evs1 c2 Hrest (step_invariant _ _ _ _ _ Hst Hinv)).
Qed.

Lemma shared_events_cons (ev : sys_event) (evs : list sys_event) :
  shared_events (ev :: evs)
  = match ev with
    | EvShared e => e :: shared_events evs
    | _ => shared_events evs
    end.
Proof. destruct ev; reflexivity. Qed.

Lemma count_shared_cons (p : event -> bool) (ev : sys_event)
    (evs : list sys_event) :
  count p (shared_events (ev :: evs))
  = (tally p ev + count p (shared_events evs))%nat.
Proof.
  rewrite shared_events_cons. destruct ev; try reflexivity.
  cbn [tally]. apply count_cons.
Qed.

Lemma step_seen_bound (t u : tid) (m : move) (c c' : system)
    (ev : sys_event) (seen sets : nat) :
  step u m c = Some (ev, c') ->
  start_invariant c ->
  (seen <= sets)%nat ->
  ((exists x, is_attached (phases c x) = true) ->
   (seen + pending t (shared c) <= sets)%nat) ->
  (seen + tally (is_seen_by t) ev <= sets + tally is_set_true ev)%nat
  /\ ((exists x, is_attached (phases c' x) = true) ->
      (seen + tally (is_seen_by t) ev + pending t (shared c')
       <= sets + tally is_set_true ev)%nat).
Proof.
  intros H [A B C D Hcr G L I] Hle Hbound.
  assert (Hkeep : forall p,
             is_attached p = false ->
             phases c' = set_phase u p c ->
             (exists x, is_attached (phases c' x) = true) ->
             exists x, is_attached (phases c x) = true).
  { intros p Hp E [x Hx]. exists x. rewrite E in Hx.
    unfold set_phase in Hx. destruct (Nat.eqb x u); [congruence | exact Hx]. }
  assert (Hnone : creating (phases c u) = true ->
                  (exists x, is_attached (phases c' x) = true) ->
                  (forall x, x <> u -> phases c' x = phases c x) ->
                  is_attached (phases c' u) = false ->
                  False).
  { intros Hcu [x Hx] Hsame Hu.
    destruct (Nat.eq_dec x u) as [->|Hne]; [congruence|].
    rewrite (Hsame x Hne) in Hx.
    pose proof (D u x Hcu Hne) as W.
    destruct (phases c x); discriminate. }
  step_cases H; sys_simpl; cbn [tally]; rewrite ?Nat.add_0_r.
  - split; [exact Hle|]. intros Hex. apply Hbound.
    apply (Hkeep SuAcquire); [reflexivity | reflexivity | exact Hex].
  - split; [exact Hle|]. intros Hex. apply Hbound.
    apply (Hkeep SuInit); [reflexivity | reflexivity | exact Hex].
  - split; [exact Hle|]. intros Hex. apply Hbound.
    apply (Hkeep SuRelease); [reflexivity | reflexivity | exact Hex].
  - split; [exact Hle|]. intros Hex. apply Hbound.
    apply (Hkeep SuSetLock); [reflexivity | reflexivity | exact Hex].
  - split; [exact Hle|]. intros Hex. exfalso. apply Hnone.
    + reflexivity.
    + exact Hex.
    + intros x Hx. apply set_phase_other. exact Hx.
    + rewrite set_phase_same. reflexivity.
  - split; [exact Hle | intros _; exact Hle].
  - split; [exact Hle|]. intros _.
    destruct I as [Hex | Hno]; [apply Hbound; exact Hex|].
    unfold pending. rewrite (G Hno u Heqp). cbn [andb]. lia.
  - split; [exact Hle|]. intros _. apply Hbound.
    exists parent. rewrite Heqp0. reflexivity.
  - assert (Hb : (seen + pending t (shared c) <= sets)%nat).
    { apply Hbound. exists u. rewrite Heqp. reflexivity. }
    pose proof (exec_seen_bound t u a (shared c) c0 e seen sets Heqo Hb)
      as Hnew.
    split; [lia | intros _; exact Hnew].
Qed.

Lemma step_store_bound (t u : tid) (m : move) (c c' : system)
    (ev : sys_event) (stores reqs : nat) :
  step u m c = Some (ev, c') ->
  (stores + storing (pcs (shared c) t) <= reqs)%nat ->
  (stores + tally (is_set_true_by t) ev + storing (pcs (shared c') t)
   <= reqs + tally (is_request_by t) ev)%nat.
Proof.
  intros H Hle.
  step_cases H; sys_simpl; cbn [tally]; rewrite ?Nat.add_0_r;
    try exact Hle.
  eapply exec_store_bound; eassumption.
Qed.

Lemma run_system_bounds (t : tid) (sched : list (tid * move)) :
  forall c evs c' seen sets stores reqs,
    run_system sched c = Some (evs, c') ->
    start_invariant c ->
    (seen <= sets)%nat ->
    ((exists x, is_attached (phases c x) = true) ->
     (seen + pending t (shared c) <= sets)%nat) ->
    (stores + storing (pcs (shared c) t) <= reqs)%nat ->
    (seen + count (is_seen_by t) (shared_events evs)
     <= sets + count is_set_true (shared_events evs))%nat
    /\ (stores + count (is_set_true_by t) (shared_events evs)
        <= reqs + count (is_request_by t) (shared_events evs))%nat.
Proof.
  induction sched as [|[u m] rest IH];
    intros c evs c' seen sets stores reqs Hrun Hinv Hle Hb Hs;
    cbn [run_system] in Hrun.
  - injection Hrun as <- <-. unfold count. cbn. lia.
  - destruct (step u m c) as [[ev c1]|] eqn:Hst; [|discriminate].
    destruct (run_system rest c1) as [[evs1 c2]|] eqn:Hrest; [|discriminate].
    injection Hrun as <- <-.
    destruct (step_seen_bound t u m c c1 ev seen sets Hst Hinv Hle Hb)
      as [Hle1 Hb1].
    pose proof (step_store_bound t u m c c1 ev stores reqs Hst Hs) as Hs1.
    destruct (IH c1 evs1 c2 _ _ _ _ Hrest
                (step_invariant _ _ _ _ _ Hst Hinv) Hle1 Hb1 Hs1)
      as [A1 A2].
    rewrite !count_shared_cons. lia.
Qed.

Lemma step_init_once (t : tid) (m : move) (c c' : system) (ev : sys_event)
    (k : nat) :
  step t m c = Some (ev, c') ->
  start_invariant c ->
  (k <= 1)%nat ->
  (k = 1%nat ->
   created c = true /\ forall u, creating (phases c u) = false) ->
  (k + b2n (is_init_clear ev) <= 1)%nat
  /\ ((k + b2n (is_init_clear ev))%nat = 1%nat ->
      created c' = true /\ forall u, creating (phases c' u) = false).
Proof.
  intros H [A B C D Hcr G L I] Hk Hdone.
  assert (Hkeep : forall p,
             creating p = false ->
             k = 1%nat ->
             created c = true
             /\ forall u, creating (set_phase t p c u) = false).
  { intros p Hp Hk1. destruct (Hdone Hk1) as [Hc Hn]. split; [exact Hc|].
    intros u. unfold set_phase. destruct (Nat.eqb u t); [exact Hp | apply Hn]. }
  step_cases H; sys_simpl; cbn [is_init_clear b2n]; rewrite ?Nat.add_0_r;
    try (split; [exact Hk|]; apply Hkeep; reflexivity);
    try (split; [exact Hk | exact Hdone]).
  - split; [exact Hk|]. intros Hk1. destruct (Hdone Hk1) as [Hc _].
    discriminate Hc.
  - split; [exact Hk|]. intros Hk1. destruct (Hdone Hk1) as [_ Hn].
    specialize (Hn t). rewrite Heqp in Hn. discriminate Hn.
  - assert (Hk0 : k = 0%nat).
    { destruct k as [|[|k]]; [reflexivity | | lia].
      destruct (Hdone eq_refl) as [_ Hn].
      specialize (Hn t). rewrite Heqp in Hn. discriminate Hn. }
    split; [lia|]. intros _. split.
    + destruct (created c) eqn:Hc; [reflexivity|].
      pose proof (C eq_refl t) as Ct. rewrite Heqp in Ct. discriminate Ct.
    + intros u. moved u t; [reflexivity|].
      assert (W : waiting (phases c u) = true)
        by (apply (D t u); [rewrite Heqp; reflexivity | assumption]).
      destruct (phases c u); try discriminate W; reflexivity.
Qed.

Lemma run_system_init_once (sched : list (tid * move)) :
  forall c evs c' k,
    run_system sched c = Some (evs, c') ->
    start_invariant c ->
    (k <= 1)%nat ->
    (k = 1%nat ->
     created c = true /\ forall u, creating (phases c u) = false) ->
    (k + List.length (List.filter is_init_clear evs) <= 1)%nat.
Proof.
  induction sched as [|[u m] rest IH]; intros c evs c' k Hrun Hinv Hk Hdone;
    cbn [run_system] in Hrun.
  - injection Hrun as <- _. cbn. lia.
  - destruct (step u m c) as [[ev c1]|] eqn:Hst; [|discriminate].
    destruct (run_system rest c1) as [[evs1 c2]|] eqn:Hrest; [|discriminate].
    injection Hrun as <- _.
    destruct (step_init_once u m c c1 ev k Hst Hinv Hk Hdone) as [Hk1 Hdone1].
    pose proof (IH c1 evs1 c2 _ Hrest (step_invariant _ _ _ _ _ Hst Hinv)
                  Hk1 Hdone1) as Hrec.
    cbn [List.filter]. destruct (is_init_clear ev); cbn [b2n List.length] in *;
      lia.
Qed.

(** C6 (as the code behaves).  Every store to the flag is made by a
    process that holds a lock: [true] by request_rotation and [false] by
    the rotation check under [pgaudit_log_shm->lock], and [false] by the
    start-up hook under AddinShmemInitLock, in the process that created
    the structure and while no process is attached to it, at most once.
    The flag changes at no other statement.  The tests that precede the
    stores of the two procedures are made without the lock; still, the
    checks of one backend find the flag set at most as often as it has
    been stored true, and one call of request_rotation stores it at most
    once. *)
Theorem flag_stores_under_lock
    (c0 : system) (sched : list (tid * move)) (evs : list sys_event)
    (c : system) :
  initial c0 ->
  run_system sched c0 = Some (evs, c) ->
  (forall t m ev c',
      step t m c = Some (ev, c') ->
      (flag (shared c') <> flag (shared c) -> is_store ev = true)
      /\ (is_store ev = true ->
          (ev = EvShared (EvSetTrue t)
           /\ pcs (shared c) t = ReqSet
           /\ lock (shared c) = Some t /\ lock (shared c') = Some t
           /\ flag (shared c') = true)
          \/ (ev = EvShared (EvSetFalse t)
              /\ pcs (shared c) t = ChkClear
              /\ lock (shared c) = Some t /\ lock (shared c') = Some t
              /\ flag (shared c') = false)
          \/ (ev = EvInitClear t
              /\ phases c t = SuClear
              /\ init_lock c = Some t /\ init_lock c' = Some t
              /\ flag (shared c') = false
              /\ forall u, phases c u <> Attached)))
  /\ (forall t,
        (count (is_seen_by t) (shared_events evs)
         <= count is_set_true (shared_events evs))%nat)
  /\ (forall t,
        (count (is_set_true_by t) (shared_events evs)
         <= count (is_request_by t) (shared_events evs))%nat)
  /\ (List.length (List.filter is_init_clear evs) <= 1)%nat.
Proof.
  intros Hinit Hrun.
  pose proof (initial_invariant c0 Hinit) as Hinv0.
  pose proof (run_system_invariant sched c0 evs c Hrun Hinv0) as Hinv.
  assert (Hcount : forall t,
             (count (is_seen_by t) (shared_events evs)
              <= count is_set_true (shared_events evs))%nat
             /\ (count (is_set_true_by t) (shared_events evs)
                 <= count (is_request_by t) (shared_events evs))%nat).
  { intros t.
    destruct (run_system_bounds t sched c0 evs c 0 0 0 0 Hrun Hinv0)
      as [A1 A2].
    - lia.
    - intros [x Hx].
      destruct Hinit as [-> | (flag0 & lock0 & ->)].
      + unfold all_attached, init, pending. cbn. lia.
      + discriminate Hx.
    - destruct Hinit as [-> | (flag0 & lock0 & ->)];
        unfold all_attached, boot, init; cbn; lia.
    - split; lia. }
  split; [|split; [|split]];
    [| intros t; apply (Hcount t) | intros t; apply (Hcount t) |].
  2: { apply (run_system_init_once sched c0 evs c 0 Hrun Hinv0);
       [lia | discriminate]. }
  intros t m ev c' Hst.
  destruct Hinv as [A B C D Hcr G L I].
  step_cases Hst; sys_simpl; cbn [is_store];
    try (split; [intros Hne; congruence | discriminate]).
  - (* the store of the start-up hook *)
    split; [reflexivity|]. intros _. right. right.
    assert (Bt : init_lock c = Some t)
      by (apply B; rewrite Heqp; reflexivity).
    split; [reflexivity|]. split; [reflexivity|].
    split; [exact Bt|]. split; [exact Bt|]. split; [reflexivity|].
    intros u Hu.
    destruct (Nat.eq_dec u t) as [->|Hne]; [congruence|].
    assert (W : waiting (phases c u) = true)
      by (apply (D t u); [rewrite Heqp; reflexivity | exact Hne]).
    rewrite Hu in W. discriminate W.
  - (* a statement of the flag protocol *)
    rename Heqo into Hex.
    exec_cases Hex; cbn [flag lock pcs is_store] in *;
      try (split; [intros Hne; congruence | discriminate]).
    + assert (Lt : lock (shared c) = Some t)
        by (apply L; rewrite Heqp1; reflexivity).
      split; [reflexivity|]. intros _. left.
      repeat split; assumption.
    + assert (Lt : lock (shared c) = Some t)
        by (apply L; rewrite Heqp1; reflexivity).
      split; [reflexivity|]. intros _. right. left.
      repeat split; assumption.
Qed.

(** The race of three children after a start-up on a segment whose bytes
    were not zero: one store of [true], seen at most once by each. *)
Lemma flag_stores_under_lock_witness :
  exists evs c,
    run_system racing_from_boot (boot true (Some 7%nat)) = Some (evs, c)
    /\ count is_set_true (shared_events evs) = 1%nat
    /\ (count (is_seen_by 2%nat) (shared_events evs) <= 1)%nat
    /\ (count (is_seen_by 3%nat) (shared_events evs) <= 1)%nat.
Proof.
  destruct (run_system racing_from_boot (boot true (Some 7%nat)))
    as [[evs c]|] eqn:Hrun.
  - destruct (flag_stores_under_lock (boot true (Some 7%nat))
                racing_from_boot evs c) as (_ & Hseen & _ & _).
    + right. exists true, (Some 7%nat). reflexivity.
    + exact Hrun.
    + assert (Hone : count is_set_true (shared_events evs) = 1%nat).
      { vm_compute in Hrun. injection Hrun as <- _. reflexivity. }
      exists evs, c. split; [reflexivity|]. split; [exact Hone|].
      split; rewrite <- Hone; apply Hseen.
  - vm_compute in Hrun. discriminate Hrun.
Defined.

End StartFacts.

(** * Further properties of the code *)

(** ** Rotation clock *)

Lemma clock_local_floor (a r : Z) :
  0 <= a -> 0 < r -> a - Z.rem a r = r * (a / r).
Proof.
  intros Ha Hr. rewrite Z.rem_mod_nonneg by lia.
  pose proof (Z.div_mod a r ltac:(lia)). lia.
Qed.

(** X1.  Two readings of the clock in the same aligned window give the
    same next rotation time: backends that evaluate
    pgauditlogtofile_calculate_next_rotation_time anywhere between a
    boundary and the next one agree on that next one. *)
Theorem next_rotation_time_same_window (e1 e2 : env) (s : state) (nrt : Z) :
  valid_rotation_age (guc_pgaudit_log_rotation_age s) ->
  clock_in_range (time_calc e1) (tm_gmtoff e1 (time_calc e1)) ->
  clock_in_range (time_calc e2) (tm_gmtoff e2 (time_calc e2)) ->
  tm_gmtoff e2 (time_calc e2) = tm_gmtoff e1 (time_calc e1) ->
  0 <= time_calc e1 + tm_gmtoff e1 (time_calc e1) ->
  pgauditlogtofile_calculate_next_rotation_time e1 s
  = Ok (set_next_rotation_time nrt s) ->
  nrt - guc_pgaudit_log_rotation_age s * 60 <= time_calc e2 < nrt ->
  pgauditlogtofile_calculate_next_rotation_time e2 s
  = Ok (set_next_rotation_time nrt s).
Proof.
  intros Hage Hr1 Hr2 Hoff Hpos H1 Hwin.
  destruct (rotinterval_small _ Hage) as [_ Hb].
  assert (P62 : 2 ^ 62 = 4611686018427387904) by reflexivity.
  assert (P63 : 2 ^ 63 = 9223372036854775808) by reflexivity.
  unfold pgauditlogtofile_calculate_next_rotation_time in *.
  rewrite (int64_small (time_calc e1)) in H1
    by (destruct Hr1 as [[? ?] _]; lia).
  rewrite (int64_small (time_calc e2)) by (destruct Hr2 as [[? ?] _]; lia).
  rewrite (rotation_clock_value _ _ _ Hage Hr1) in H1.
  rewrite (rotation_clock_value _ _ _ Hage Hr2), Hoff.
  cbn [bind] in *.
  set (off := tm_gmtoff e1 (time_calc e1)) in *.
  set (r := guc_pgaudit_log_rotation_age s * 60) in *.
  assert (Hn : nrt = time_calc e1 + off - Z.rem (time_calc e1 + off) r
                     + r - off).
  { assert (E : next_rotation_time (set_next_rotation_time nrt s)
                = next_rotation_time
                    (set_next_rotation_time
                       (time_calc e1 + off - Z.rem (time_calc e1 + off) r
                        + r - off) s))
      by (injection H1 as <-; reflexivity).
    exact E. }
  rewrite (clock_local_floor (time_calc e1 + off) r) in Hn by lia.
  assert (Hq : (time_calc e2 + off) / r = (time_calc e1 + off) / r).
  { symmetry. apply (Z.div_unique _ _ _
                       (time_calc e2 + off - r * ((time_calc e1 + off) / r)));
      lia. }
  assert (Hpos2 : 0 <= time_calc e2 + off).
  { pose proof (Z.div_pos (time_calc e1 + off) r Hpos ltac:(lia)). nia. }
  rewrite (clock_local_floor (time_calc e2 + off) r) by lia.
  rewrite Hq. f_equal. f_equal. lia.
Qed.

(** Scenario B: readings at 10:00:00 and at 10:59:59 both lead to 11:00. *)
Lemma next_rotation_time_same_window_witness :
  pgauditlogtofile_calculate_next_rotation_time
    (utc_env (at_clock 10 59 + 59)) (backend_state 60 0 "")
  = Ok (set_next_rotation_time (at_clock 11 0) (backend_state 60 0 "")).
Proof.
  apply (next_rotation_time_same_window (utc_env (at_clock 10 0))
           (utc_env (at_clock 10 59 + 59)) (backend_state 60 0 "")
           (at_clock 11 0)).
  - unfold valid_rotation_age; simpl; split; [lia | discriminate].
  - unfold clock_in_range; simpl; split; split; discriminate.
  - unfold clock_in_range; simpl; split; split; discriminate.
  - reflexivity.
  - discriminate.
  - reflexivity.
  - simpl. split; [discriminate | reflexivity].
Defined.

(** X2.  The rotation clock is monotone: a later reading never gives an
    earlier next rotation time. *)
Theorem rotation_clock_monotone (now1 now2 gmtoff age nrt1 nrt2 : Z) :
  valid_rotation_age age ->
  clock_in_range now1 gmtoff ->
  clock_in_range now2 gmtoff ->
  now1 <= now2 ->
  rotation_clock now1 gmtoff age = Ok nrt1 ->
  rotation_clock now2 gmtoff age = Ok nrt2 ->
  nrt1 <= nrt2.
Proof.
  intros Hage Hr1 Hr2 Hle H1 H2.
  destruct (rotinterval_small _ Hage) as [_ Hb].
  rewrite (rotation_clock_value _ _ _ Hage Hr1) in H1.
  rewrite (rotation_clock_value _ _ _ Hage Hr2) in H2.
  injection H1 as <-. injection H2 as <-.
  set (r := age * 60) in *.
  pose proof (Z.quot_rem' (now1 + gmtoff) r) as E1.
  pose proof (Z.quot_rem' (now2 + gmtoff) r) as E2.
  pose proof (Z.quot_le_mono (now1 + gmtoff) (now2 + gmtoff) r
                ltac:(lia) ltac:(lia)) as Q.
  nia.
Qed.

Lemma rotation_clock_monotone_witness :
  at_clock 10 0 <= at_clock 11 0.
Proof.
  apply (rotation_clock_monotone (at_clock 9 30) (at_clock 10 15) 0 60
           (at_clock 10 0) (at_clock 11 0)).
  - unfold valid_rotation_age; simpl; split; [lia | discriminate].
  - unfold clock_in_range; simpl; split; split; discriminate.
  - unfold clock_in_range; simpl; split; split; discriminate.
  - discriminate.
  - reflexivity.
  - reflexivity.
Defined.

(** X3.  For a reading at or after the local epoch the next rotation is
    at most one interval away, and a whole interval away exactly when the
    reading lies on a boundary. *)
Theorem rotation_clock_within_interval (now gmtoff age nrt : Z) :
  valid_rotation_age age ->
  clock_in_range now gmtoff ->
  0 <= now + gmtoff ->
  rotation_clock now gmtoff age = Ok nrt ->
  now < nrt <= now + age * 60
  /\ (nrt = now + age * 60 <-> (now + gmtoff) mod (age * 60) = 0).
Proof.
  intros Hage Hr Hpos H.
  destruct (rotinterval_small _ Hage) as [_ Hb].
  rewrite (rotation_clock_value _ _ _ Hage Hr) in H. injection H as <-.
  set (r := age * 60) in *.
  rewrite Z.rem_mod_nonneg by lia.
  pose proof (Z.mod_pos_bound (now + gmtoff) r ltac:(lia)).
  split; [lia|]. split; lia.
Qed.

Lemma rotation_clock_within_interval_witness :
  at_clock 10 15 < at_clock 11 0 <= at_clock 10 15 + 60 * 60
  /\ (at_clock 11 0 = at_clock 10 15 + 60 * 60
      <-> (at_clock 10 15 + 0) mod (60 * 60) = 0).
Proof.
  apply (rotation_clock_within_interval (at_clock 10 15) 0 60 (at_clock 11 0)).
  - unfold valid_rotation_age; simpl; split; [lia | discriminate].
  - unfold clock_in_range; simpl; split; split; discriminate.
  - discriminate.
  - reflexivity.
Defined.

Lemma accepted_rotation_age_fits (age : Z) :
  guc_int_accepts pgaudit_log_rotation_age_guc age = true ->
  int32 (age * SECS_PER_MINUTE) = age * 60 /\ 0 <= age.
Proof.
  unfold guc_int_accepts, pgaudit_log_rotation_age_guc.
  cbn [min_value max_value].
  intros H. apply andb_true_iff in H. destruct H as [Hlo Hhi].
  apply Z.leb_le in Hlo. apply Z.leb_le in Hhi.
  assert (Hq : INT_MAX / SECS_PER_MINUTE = 35791394) by reflexivity.
  rewrite Hq in Hhi.
  assert (P31 : 2 ^ 31 = 2147483648) by reflexivity.
  split; [|exact Hlo].
  unfold SECS_PER_MINUTE. apply int32_small. lia.
Qed.

(** X4.  Every value the registration of [pgaudit.log_rotation_age]
    accepts gives an interval in seconds that fits a C [int], and the
    clock traps for exactly one of them, 0. *)
Theorem accepted_rotation_age_interval (age : Z) :
  guc_int_accepts pgaudit_log_rotation_age_guc age = true ->
  int32 (age * SECS_PER_MINUTE) = age * 60
  /\ (forall now gmtoff,
        rotation_clock now gmtoff age = Fault DivisionByZero <-> age = 0).
Proof.
  intros H. destruct (accepted_rotation_age_fits age H) as [Hr Hlo].
  split; [exact Hr|].
  intros now gmtoff. unfold rotation_clock. rewrite Hr.
  destruct (Z.eqb_spec (age * 60) 0) as [E|NE].
  - split; [intros _; lia | reflexivity].
  - split; [discriminate | lia].
Qed.

Lemma accepted_rotation_age_interval_witness :
  int32 (1440 * SECS_PER_MINUTE) = 1440 * 60
  /\ (forall now gmtoff,
        rotation_clock now gmtoff 1440 = Fault DivisionByZero <-> 1440 = 0).
Proof.
  apply (accepted_rotation_age_interval 1440). reflexivity.
Defined.

(** ** Interception *)

Lemma prefix_loop_existsb (msg : string) (prefixes : list string) :
  forall lens found,
    prefix_loop msg prefixes lens found
    = found || existsb (prefix_matches msg) (List.combine prefixes lens).
Proof.
  induction prefixes as [|p ps IH]; intros lens found.
  - cbn. rewrite orb_false_r. reflexivity.
  - destruct lens as [|l ls]; [cbn; rewrite orb_false_r; reflexivity|].
    cbn [prefix_loop List.combine existsb].
    destruct found; cbn [negb orb]; [reflexivity|].
    rewrite IH. reflexivity.
Qed.

Lemma is_prefixed_tables (s : state) (msg : string) :
  pgauditlogtofile_is_prefixed s msg
  = (guc_pgaudit_log_connections s
     && existsb (prefix_matches msg) conn_table)
    || (guc_pgaudit_log_disconnections s
        && existsb (prefix_matches msg) disconn_table).
Proof.
  unfold pgauditlogtofile_is_prefixed, conn_table, disconn_table.
  destruct (guc_pgaudit_log_connections s),
           (guc_pgaudit_log_disconnections s);
    rewrite ?prefix_loop_existsb; cbn [andb orb];
    rewrite ?orb_false_r; reflexivity.
Qed.

(** X5.  The two loops of pgauditlogtofile_is_prefixed, with their early
    exit and the flag carried from the first into the second, compute
    whether some entry of an enabled table matches the message: the
    answer is true exactly when the connection setting is on and a
    connection entry matches, or the disconnection setting is on and the
    disconnection entry matches; with both settings off it is false. *)
Theorem is_prefixed_some_entry (s : state) (msg : string) :
  (pgauditlogtofile_is_prefixed s msg = true <->
   (guc_pgaudit_log_connections s = true
    /\ exists entry, In entry conn_table /\ prefix_matches msg entry = true)
   \/ (guc_pgaudit_log_disconnections s = true
       /\ exists entry,
            In entry disconn_table /\ prefix_matches msg entry = true))
  /\ (guc_pgaudit_log_connections s = false ->
      guc_pgaudit_log_disconnections s = false ->
      pgauditlogtofile_is_prefixed s msg = false).
Proof.
  rewrite is_prefixed_tables. split.
  - rewrite orb_true_iff, !andb_true_iff, !existsb_exists. reflexivity.
  - intros -> ->. reflexivity.
Qed.

(** X6.  An enabled backend leaves every other message alone: when the
    message does not start with the audit prefix and matches no entry of
    an enabled table, the hook changes neither the event nor the state. *)
Theorem unmatched_event_passes_through
    (e : env) (edata : ErrorData) (s : state) (msg : string) :
  message edata = Some msg ->
  pg_strncasecmp msg PGAUDIT_PREFIX_LINE
    (Z.to_nat PGAUDIT_PREFIX_LINE_LENGTH) <> 0 ->
  pgauditlogtofile_is_prefixed s msg = false ->
  emit_log_body e edata s = Ok (edata, s)
  /\ pgauditlogtofile_emit_log e edata s
     = Ok (match prev_emit_log_hook e with
           | Some hook => hook edata
           | None => edata
           end, s).
Proof.
  intros Hmsg Hcmp Hpre.
  assert (Hbody : emit_log_body e edata s = Ok (edata, s)).
  { unfold emit_log_body.
    destruct (pgauditlogtofile_is_enabled s); [|reflexivity].
    rewrite Hmsg. unfold emit_log_intercept.
    destruct (Z.eqb_spec (pg_strncasecmp msg PGAUDIT_PREFIX_LINE
                            (Z.to_nat PGAUDIT_PREFIX_LINE_LENGTH)) 0);
      [contradiction|].
    rewrite Hpre. reflexivity. }
  split; [exact Hbody|].
  unfold pgauditlogtofile_emit_log. rewrite Hbody. cbn [bind].
  destruct (prev_emit_log_hook e); reflexivity.
Qed.

Lemma unmatched_event_passes_through_witness :
  emit_log_body (utc_env (at_clock 10 15))
    (event_with_message "connection received: host=10.0.0.1")
    (backend_state 60 (at_clock 11 0) "log/audit.log")
  = Ok (event_with_message "connection received: host=10.0.0.1",
        backend_state 60 (at_clock 11 0) "log/audit.log").
Proof.
  apply (unmatched_event_passes_through (utc_env (at_clock 10 15))
           (event_with_message "connection received: host=10.0.0.1")
           (backend_state 60 (at_clock 11 0) "log/audit.log")
           "connection received: host=10.0.0.1").
  - reflexivity.
  - discriminate.
  - reflexivity.
Defined.

Lemma table_entry_well_formed (entry : string * Z) :
  In entry conn_table \/ In entry disconn_table ->
  snd entry = Z.of_nat (String.length (fst entry))
  /\ nonzero_bytes (fst entry) = true
  /\ exists c rest,
       fst entry = String c rest
       /\ fold_case (head_byte (fst entry)) <> 97.
Proof.
  intros [H | H]; cbn in H;
    repeat (destruct H as [<- | H]; [cbn; repeat split;
                                     eexists; eexists; split;
                                     [reflexivity | discriminate]|]);
    contradiction.
Qed.

(** X7.  With the matching interception setting on, a message that starts
    with an entry of the connection or disconnection table, whatever the
    case of its letters, is captured with nothing stripped:
    [exclude_nchars] is 0 and [output_to_server] is set to false. *)
Theorem connection_message_captured
    (s : state) (edata : ErrorData) (msg : string) (entry : string * Z) :
  In entry conn_table /\ guc_pgaudit_log_connections s = true
  \/ In entry disconn_table /\ guc_pgaudit_log_disconnections s = true ->
  case_equal (string_take (String.length (fst entry)) msg) (fst entry) ->
  emit_log_intercept s edata msg = (0, set_output_to_server false edata).
Proof.
  intros Hentry Hcase.
  destruct (table_entry_well_formed entry) as (Hlen & Hnz & c & rest & Hp & Hfirst).
  { destruct Hentry as [[H _] | [H _]]; [left | right]; exact H. }
  assert (Hmatch : prefix_matches msg entry = true).
  { unfold prefix_matches. rewrite Hlen, Nat2Z.id.
    apply Z.eqb_eq, pg_strncasecmp_zero_iff; assumption. }
  assert (Hpre : pgauditlogtofile_is_prefixed s msg = true).
  { rewrite is_prefixed_tables.
    destruct Hentry as [[Hin Hon] | [Hin Hon]]; rewrite Hon; cbn [andb].
    - apply orb_true_iff. left. apply existsb_exists.
      exists entry. split; assumption.
    - apply orb_true_iff. right. apply existsb_exists.
      exists entry. split; assumption. }
  assert (Haudit : (pg_strncasecmp msg PGAUDIT_PREFIX_LINE
                      (Z.to_nat PGAUDIT_PREFIX_LINE_LENGTH) =? 0) = false).
  { unfold case_equal in Hcase. rewrite Hp in Hcase, Hfirst.
    cbn [String.length] in Hcase.
    destruct msg as [|c1 r]; [discriminate Hcase|].
    cbn [string_take] in Hcase. rewrite !byte_codes_cons in Hcase.
    cbn [List.map head_byte] in Hcase, Hfirst. injection Hcase as Hc _.
    rewrite <- Hc in Hfirst.
    change (Z.to_nat PGAUDIT_PREFIX_LINE_LENGTH) with 7%nat.
    unfold PGAUDIT_PREFIX_LINE. cbn [pg_strncasecmp].
    change (head_byte "AUDIT: ") with 65.
    cbn [head_byte].
    set (ch1 := Z.of_N (N_of_ascii c1)) in *.
    change (fold_case 65) with 97.
    destruct (Z.eqb_spec ch1 65) as [E|_].
    - exfalso. apply Hfirst. rewrite E. reflexivity.
    - destruct (Z.eqb_spec (fold_case ch1) 97) as [E|_]; [contradiction|].
      apply Z.eqb_neq. lia. }
  unfold emit_log_intercept. rewrite Haudit, Hpre. reflexivity.
Qed.

(** Scenario D in capitals. *)
Lemma connection_message_captured_witness :
  emit_log_intercept
    (set_gucs (Some "log") (Some "audit.log") 60 true false
       (backend_state 60 (at_clock 11 0) ""))
    (event_with_message "CONNECTION RECEIVED: host=10.0.0.1")
    "CONNECTION RECEIVED: host=10.0.0.1"
  = (0, set_output_to_server false
          (event_with_message "CONNECTION RECEIVED: host=10.0.0.1")).
Proof.
  apply (connection_message_captured _ _ _
           ("connection received: host=", 26)).
  - left. split; [|reflexivity].
    cbn. right; right; left; reflexivity.
  - reflexivity.
Defined.

(** ** Forced rotation and the steady state *)

(** X8.  In an attached process pgauditlogtofile_request_rotation leaves
    the flag set and is idempotent; the next rotation check answers true
    and leaves the state as it was before the request but with the flag
    clear, so that a check after it, before the rotation time and with
    the names equal, answers false. *)
Theorem request_rotation_consumed_once
    (e e' : env) (s : state) (shm : pgAuditLogToFileShm) :
  UsedShmemSegAddr e = true ->
  pgaudit_log_shm s = Some shm ->
  exists s1,
    pgauditlogtofile_request_rotation e s = Ok s1
    /\ pgauditlogtofile_request_rotation e s1 = Ok s1
    /\ pgauditlogtofile_needs_rotate_file e' s1
       = Ok (true, set_shm (Some {| force_rotation := false |}) s)
    /\ (int64 (time_check e') < next_rotation_time s ->
        filename_in_use s = filename s ->
        pgauditlogtofile_needs_rotate_file e'
          (set_shm (Some {| force_rotation := false |}) s)
        = Ok (false, set_shm (Some {| force_rotation := false |}) s)).
Proof.
  intros Hatt Hshm.
  assert (Hlast : int64 (time_check e') < next_rotation_time s ->
                  filename_in_use s = filename s ->
                  pgauditlogtofile_needs_rotate_file e'
                    (set_shm (Some {| force_rotation := false |}) s)
                  = Ok (false,
                        set_shm (Some {| force_rotation := false |}) s)).
  { intros Hearly Hsame.
    rewrite (staleness_is_string_comparison e' _ {| force_rotation := false |});
      sproj; try reflexivity; try assumption.
    rewrite Hsame, String.eqb_refl. reflexivity. }
  unfold pgauditlogtofile_request_rotation. rewrite Hatt, Hshm. cbn [negb].
  destruct shm as [[|]]; cbn [force_rotation negb].
  - exists s. rewrite Hshm. cbn [force_rotation negb].
    split; [reflexivity|]. split; [reflexivity|].
    split; [|exact Hlast].
    unfold pgauditlogtofile_needs_rotate_file. rewrite Hshm. reflexivity.
  - eexists. split; [reflexivity|]. sproj. cbn [force_rotation negb].
    split; [reflexivity|]. split; [|exact Hlast].
    unfold pgauditlogtofile_needs_rotate_file. sproj. reflexivity.
Qed.

Lemma request_rotation_consumed_once_witness :
  exists s1,
    pgauditlogtofile_request_rotation (utc_env (at_clock 10 15))
      (backend_state 60 (at_clock 11 0) "") = Ok s1
    /\ pgauditlogtofile_needs_rotate_file (utc_env (at_clock 10 16)) s1
       = Ok (true,
             set_shm (Some {| force_rotation := false |})
               (backend_state 60 (at_clock 11 0) "")).
Proof.
  destruct (request_rotation_consumed_once (utc_env (at_clock 10 15))
              (utc_env (at_clock 10 16))
              (backend_state 60 (at_clock 11 0) "")
              {| force_rotation := false |})
    as (s1 & Hreq & _ & Hcheck & _).
  - reflexivity.
  - reflexivity.
  - exists s1. split; [exact Hreq | exact Hcheck].
Defined.

Lemma write_audit_frame (e : env) (edata : ErrorData) (n : Z) (s s' : state)
    (recorded : bool) :
  pgauditlogtofile_write_audit e edata n s = Ok (recorded, s') ->
  same_session s s' /\ filename s' = filename s
  /\ exists f data rc warn,
       file_handler s = Some f
       /\ io s' = (warn ++ IoFwrite f data rc :: io s)%list.
Proof.
  intros Hrun.
  split; [exact (write_audit_same _ _ _ _ _ _ Hrun)|].
  destruct (message edata) as [msg|] eqn:Hmsg.
  - destruct (file_handler s) as [f|] eqn:Hf.
    + destruct (write_audit_run e edata n s msg f Hmsg Hf)
        as (line & s1 & Hf1 & Hn1 & _ & Hio1 & Hrun1).
      rewrite Hrun1 in Hrun. cbv zeta in Hrun.
      destruct (negb _); injection Hrun as <- <-; sproj;
        (split; [exact Hn1|]); rewrite Hio1.
      * do 3 eexists. exists [IoWarning "could not write audit log file"
                                (filename s1)].
        split; reflexivity.
      * do 3 eexists. exists []. split; reflexivity.
    + exfalso. unfold pgauditlogtofile_write_audit in Hrun.
      rewrite (create_audit_line_fields "" e edata n s msg Hmsg) in Hrun.
      cbn [bind] in Hrun.
      destruct (audit_line_state_shape e s) as (a & b & c & d & E).
      rewrite E in Hrun. sproj. rewrite Hf in Hrun. discriminate.
  - exfalso. unfold pgauditlogtofile_write_audit in Hrun.
    rewrite (create_audit_line_null "" e edata n s Hmsg) in Hrun.
    discriminate.
Qed.



Lemma needs_rotate_file_false (e : env) (s s1 : state) :
  pgauditlogtofile_needs_rotate_file e s = Ok (false, s1) ->
  s1 = s /\ filename_in_use s = filename s.
Proof.
  unfold pgauditlogtofile_needs_rotate_file.
  destruct (pgaudit_log_shm s) as [shm|]; [|discriminate].
  destruct (force_rotation shm); [discriminate|].
  destruct (int64 (time_check e) >=? next_rotation_time s).
  - destruct (pgauditlogtofile_calculate_next_rotation_time e s);
      discriminate.
  - destruct (String.eqb_spec (filename_in_use s) (filename s)) as [E|_];
      cbn [negb]; [|discriminate].
    intros H. injection H as <-. split; [reflexivity | exact E].
Qed.

Lemma open_file_filename (e : env) (s : state) :
  filename (snd (pgauditlogtofile_open_file e s)) = filename s.
Proof.
  unfold pgauditlogtofile_open_file.
  destruct (guc_pgaudit_log_directory s); sproj;
    destruct (fopen_succeeds e (filename s)); reflexivity.
Qed.

(** X10.  When pgauditlogtofile_record_audit reports success, the stream
    that is open is the one opened on the current target name and that
    name is the one recorded as in use; as long as the flag stays clear
    and the rotation time is not reached, further events are written
    through that stream without a rotation check closing or reopening
    anything. *)
Theorem recorded_event_leaves_session_current
    (e : env) (edata : ErrorData) (n : Z) (s s' : state) :
  session_invariant s ->
  pgauditlogtofile_record_audit e edata n s = Ok (true, s') ->
  file_handler s' = Some (Stream (filename s'))
  /\ filename_in_use s' = filename s'
  /\ forall e' shm,
       pgaudit_log_shm s' = Some shm ->
       force_rotation shm = false ->
       int64 (time_check e') < next_rotation_time s' ->
       pgauditlogtofile_needs_rotate_file e' s' = Ok (false, s')
       /\ forall edata' n',
            pgauditlogtofile_record_audit e' edata' n' s'
            = pgauditlogtofile_write_audit e' edata' n' s'.
Proof.
  intros Hinv Hrun.
  assert (Hcur : file_handler s' = Some (Stream (filename s'))
                 /\ filename_in_use s' = filename s').
  { unfold pgauditlogtofile_record_audit in Hrun.
    destruct (pgauditlogtofile_needs_rotate_file e s) as [[rotate s1]|]
      eqn:Hrot; [|discriminate].
    cbn [bind] in Hrun.
    assert (Hphase : exists s2,
               (if rotate
                then s <- pgauditlogtofile_calculate_filename e s1 ;;
                     Ok (pgauditlogtofile_close_file s)
                else Ok s1) = Ok s2
               /\ (file_handler s2 = None
                   \/ exists f, file_handler s2 = Some f
                                /\ f = Stream (filename s2)
                                /\ filename_in_use s2 = filename s2)).
    { destruct rotate.
      - destruct (pgauditlogtofile_calculate_filename e s1) as [s1'|];
          [|discriminate].
        cbn [bind] in *. eexists. split; [reflexivity|]. left.
        apply close_file_invariant.
      - destruct (needs_rotate_file_false e s s1 Hrot) as [-> Hsame].
        exists s. split; [reflexivity|].
        destruct (file_handler s) as [f|] eqn:Hf; [right | left; reflexivity].
        exists f. split; [reflexivity|]. split; [|exact Hsame].
        pose proof (Hinv f Hf) as Hp. destruct f as [p]. cbn in Hp.
        congruence. }
    destruct Hphase as (s2 & Hs2 & Hcase).
    rewrite Hs2 in Hrun. cbn [bind] in Hrun.
    unfold pgauditlogtofile_is_open_file in Hrun.
    destruct Hcase as [Hnone | (f & Hf & Hpath & Hsame)].
    - rewrite Hnone in Hrun. cbn [negb] in Hrun.
      destruct (open_file_session e s2) as (Hfst & Hok & _).
      pose proof (open_file_filename e s2) as Hname3.
      destruct (pgauditlogtofile_open_file e s2) as [opened s3].
      cbn [fst snd] in *.
      destruct opened; cbn [negb] in Hrun; [|discriminate].
      destruct (Hok (eq_sym Hfst)) as [Hh3 Hn3].
      destruct (write_audit_frame _ _ _ _ _ _ Hrun) as ([Hh Hn] & Hf' & _).
      split; congruence.
    - rewrite Hf in Hrun. cbn [negb] in Hrun.
      destruct (write_audit_frame _ _ _ _ _ _ Hrun) as ([Hh Hn] & Hf' & _).
      split; congruence. }
  destruct Hcur as [Hstream Hsame].
  split; [exact Hstream|]. split; [exact Hsame|].
  intros e' shm Hshm Hforce Hearly.
  assert (Hno : pgauditlogtofile_needs_rotate_file e' s' = Ok (false, s')).
  { rewrite (staleness_is_string_comparison e' s' shm Hshm Hforce Hearly).
    rewrite Hsame, String.eqb_refl. reflexivity. }
  split; [exact Hno|].
  intros edata' n'. unfold pgauditlogtofile_record_audit.
  rewrite Hno. cbn [bind].
  unfold pgauditlogtofile_is_open_file. rewrite Hstream. reflexivity.
Qed.

Lemma recorded_event_leaves_session_current_witness :
  exists s',
    pgauditlogtofile_record_audit (utc_env (at_clock 10 15))
      (event_with_message "AUDIT: SESSION") 7
      (backend_state 60 (at_clock 11 0) "log/audit.log") = Ok (true, s')
    /\ file_handler s' = Some (Stream (filename s'))
    /\ filename_in_use s' = filename s'.
Proof.
  destruct (pgauditlogtofile_record_audit (utc_env (at_clock 10 15))
              (event_with_message "AUDIT: SESSION") 7
              (backend_state 60 (at_clock 11 0) "log/audit.log"))
    as [[[|] s']|] eqn:Hrun.
  - exists s'. split; [reflexivity|].
    destruct (recorded_event_leaves_session_current
                (utc_env (at_clock 10 15))
                (event_with_message "AUDIT: SESSION") 7
                (backend_state 60 (at_clock 11 0) "log/audit.log") s')
      as (Hstream & Hsame & _).
    + intros f Hf. discriminate Hf.
    + exact Hrun.
    + split; [exact Hstream | exact Hsame].
  - vm_compute in Hrun. discriminate Hrun.
  - vm_compute in Hrun. discriminate Hrun.
Defined.

(** X11.  No write lands in a file that has been rotated away: every
    [fwrite] that one call of pgauditlogtofile_record_audit makes goes to
    a stream whose path is the target name the backend holds when the
    call returns. *)
Theorem writes_reach_current_file
    (e : env) (edata : ErrorData) (n : Z) (s : state)
    (shm : pgAuditLogToFileShm) (dir pat msg : string) :
  pgaudit_log_shm s = Some shm ->
  guc_pgaudit_log_directory s = Some dir ->
  guc_pgaudit_log_filename s = Some pat ->
  valid_rotation_age (guc_pgaudit_log_rotation_age s) ->
  message edata = Some msg ->
  session_invariant s ->
  exists recorded s' evs,
    pgauditlogtofile_record_audit e edata n s = Ok (recorded, s')
    /\ io s' = (evs ++ io s)%list
    /\ forall f data rc,
         In (IoFwrite f data rc) evs -> stream_path f = filename s'.
Proof.
  intros Hshm Hdir Hpat Hage Hmsg Hinv.
  destruct (record_audit_outcome e edata n s shm dir pat msg
              Hshm Hdir Hpat Hage Hmsg)
    as (recorded & s' & evs & Hrun & Hio & _ & _ & _ & _ & Hwrites).
  exists recorded, s', evs. split; [exact Hrun|]. split; [exact Hio|].
  intros f data rc Hin. apply (Hwrites Hinv f data rc Hin).
Qed.

Lemma writes_reach_current_file_witness :
  exists recorded s' evs,
    pgauditlogtofile_record_audit (utc_env (at_clock 11 5))
      (event_with_message "AUDIT: SESSION") 7
      (backend_state 60 (at_clock 11 0) "log/audit.log") = Ok (recorded, s')
    /\ io s' = (evs ++ [])%list
    /\ forall f data rc,
         In (IoFwrite f data rc) evs -> stream_path f = filename s'.
Proof.
  apply (writes_reach_current_file (utc_env (at_clock 11 5))
           (event_with_message "AUDIT: SESSION") 7
           (backend_state 60 (at_clock 11 0) "log/audit.log")
           {| force_rotation := false |} "log" "audit.log" "AUDIT: SESSION").
  - reflexivity.
  - reflexivity.
  - reflexivity.
  - unfold valid_rotation_age; simpl; split; [lia | discriminate].
  - reflexivity.
  - intros f Hf. discriminate Hf.
Defined.

(** ** Line counter and written data *)

(** X12.  The formatter numbers the lines of a backend: while the process
    id stays the same each line carries the previous number plus one and
    the session start text is kept; the first line after the process id
    changed carries 1 and a freshly rendered session start.  The number,
    the process id and the session start are fields 7, 4 and 9. *)
Theorem line_counter_per_process
    (buf : string) (e : env) (edata : ErrorData) (n : Z) (s : state)
    (msg : string) :
  message edata = Some msg ->
  exists line s',
    pgauditlogtofile_create_audit_line buf e edata n s = Ok (line, s')
    /\ log_my_pid s' = MyProcPid e
    /\ (log_my_pid s = MyProcPid e ->
        log_line_number s' = int64 (log_line_number s + 1)
        /\ formatted_start_time s' = formatted_start_time s)
    /\ (log_my_pid s <> MyProcPid e ->
        log_line_number s' = 1
        /\ formatted_start_time s'
           = pg_strftime e FORMATTED_TS_LEN "%Y-%m-%d %H:%M:%S %Z"
               (MyStartTime e))
    /\ nth 6 (audit_fields e edata msg n s') "-" = fmt_d (log_line_number s')
    /\ nth 3 (audit_fields e edata msg n s') "-" = fmt_d (MyProcPid e)
    /\ nth 8 (audit_fields e edata msg n s') "-" = formatted_start_time s'
    /\ line = buf ++ join_fields (audit_fields e edata msg n s')
                  ++ String newline "".
Proof.
  intros Hmsg.
  rewrite (create_audit_line_fields buf e edata n s msg Hmsg).
  do 2 eexists. split; [reflexivity|].
  assert (Hpid : log_my_pid (audit_line_state e s) = MyProcPid e).
  { unfold audit_line_state, pgauditlogtofile_format_log_time. cbv zeta.
    destruct (Z.eqb_spec (log_my_pid s) (MyProcPid e)) as [E|NE];
      cbn [negb]; sproj; [exact E | reflexivity]. }
  split; [exact Hpid|].
  split.
  { intros E. unfold audit_line_state, pgauditlogtofile_format_log_time.
    cbv zeta. rewrite (proj2 (Z.eqb_eq _ _) E). cbn [negb]. sproj.
    split; reflexivity. }
  split.
  { intros NE. unfold audit_line_state, pgauditlogtofile_format_log_time.
    cbv zeta. rewrite (proj2 (Z.eqb_neq _ _) NE). cbn [negb]. sproj.
    split; reflexivity. }
  cbn [audit_fields nth]. rewrite Hpid. repeat split.
Qed.

Lemma line_counter_per_process_witness :
  exists line s',
    pgauditlogtofile_create_audit_line "" (utc_env (at_clock 10 15))
      (event_with_message "AUDIT: SESSION") 7 boot_state = Ok (line, s')
    /\ log_my_pid s' = 4242
    /\ log_line_number s' = 1.
Proof.
  destruct (line_counter_per_process "" (utc_env (at_clock 10 15))
              (event_with_message "AUDIT: SESSION") 7 boot_state
              "AUDIT: SESSION" eq_refl)
    as (line & s' & Hrun & Hpid & _ & Hfirst & _).
  exists line, s'. split; [exact Hrun|]. split; [exact Hpid|].
  apply Hfirst. discriminate.
Defined.

(** X13.  With a stream open, pgauditlogtofile_write_audit hands [fwrite]
    the complete line of the formatter exactly once; it answers true
    exactly when the count that comes back is the length of the line,
    logs a warning otherwise, and in both cases leaves the stream, the
    target name and the recorded name as they were.  Without a stream it
    traps. *)
Theorem write_audit_writes_whole_line
    (e : env) (edata : ErrorData) (n : Z) (s : state) (msg : string) :
  message edata = Some msg ->
  let s1 := audit_line_state e s in
  let line :=
    join_fields (audit_fields e edata msg n s1) ++ String newline "" in
  let rc := int32 (fwrite_count e line) in
  let complete := rc =? int32 (Z.of_nat (String.length line)) in
  (forall f,
      file_handler s = Some f ->
      exists s',
        pgauditlogtofile_write_audit e edata n s = Ok (complete, s')
        /\ io s'
           = ((if complete then []
               else [IoWarning "could not write audit log file" (filename s)])
              ++ IoFwrite f line rc :: io s)%list
        /\ file_handler s' = Some f
        /\ filename s' = filename s
        /\ filename_in_use s' = filename_in_use s)
  /\ (file_handler s = None ->
      pgauditlogtofile_write_audit e edata n s = Fault NullDereference).
Proof.
  intros Hmsg s1 line rc complete.
  destruct (audit_line_state_shape e s) as (a & b & c & d & E).
  assert (Hrun : pgauditlogtofile_write_audit e edata n s
                 = match file_handler s with
                   | Some f =>
                       if negb complete
                       then Ok (false,
                                log_io (IoWarning
                                          "could not write audit log file"
                                          (filename s))
                                  (log_io (IoFwrite f line rc) s1))
                       else Ok (true, log_io (IoFwrite f line rc) s1)
                   | None => Fault NullDereference
                   end).
  { unfold pgauditlogtofile_write_audit.
    rewrite (create_audit_line_fields "" e edata n s msg Hmsg). cbn [bind].
    fold s1. change ("" ++ join_fields (audit_fields e edata msg n s1)
                       ++ String newline "") with line.
    assert (Hh : file_handler s1 = file_handler s)
      by (unfold s1; rewrite E; reflexivity).
    assert (Hn : filename s1 = filename s)
      by (unfold s1; rewrite E; reflexivity).
    rewrite Hh. destruct (file_handler s); [|reflexivity].
    sproj. rewrite Hn. reflexivity. }
  split.
  - intros f Hf. rewrite Hrun, Hf.
    assert (Hframe : file_handler s1 = file_handler s
                     /\ filename s1 = filename s
                     /\ filename_in_use s1 = filename_in_use s
                     /\ io s1 = io s)
      by (unfold s1; rewrite E; repeat split).
    destruct Hframe as (Hh & Hn & Hu & Hio).
    destruct complete; cbn [negb]; eexists; (split; [reflexivity|]); sproj;
      rewrite Hio, Hh, Hn, Hu; repeat split; assumption.
  - intros Hnone. rewrite Hrun, Hnone. reflexivity.
Qed.

Lemma write_audit_writes_whole_line_witness :
  pgauditlogtofile_write_audit (utc_env (at_clock 10 15))
    (event_with_message "AUDIT: SESSION") 7
    (backend_state 60 (at_clock 11 0) "log/audit.log")
  = Fault NullDereference.
Proof.
  destruct (write_audit_writes_whole_line (utc_env (at_clock 10 15))
              (event_with_message "AUDIT: SESSION") 7
              (backend_state 60 (at_clock 11 0) "log/audit.log")
              "AUDIT: SESSION" eq_refl) as [_ Hnull].
  apply Hnull. reflexivity.
Defined.

(** ** Numbers never add a delimiter *)

Lemma comma_free_app (a b : string) :
  comma_free a -> comma_free b -> comma_free (a ++ b).
Proof.
  unfold comma_free. intros Ha Hb. rewrite count_char_app, Ha, Hb.
  reflexivity.
Qed.

Lemma comma_free_cons (c : ascii) (r : string) :
  Ascii.eqb c comma = false -> comma_free r -> comma_free (String c r).
Proof.
  unfold comma_free. intros Hc Hr. cbn [count_char]. rewrite Hc, Hr.
  reflexivity.
Qed.

Lemma decimal_uint_comma_free (d : Decimal.uint) :
  comma_free (DecimalString.NilEmpty.string_of_uint d).
Proof.
  induction d; cbn [DecimalString.NilEmpty.string_of_uint];
    [reflexivity | apply comma_free_cons; [reflexivity | assumption] ..].
Qed.

Lemma hexadecimal_uint_comma_free (d : Hexadecimal.uint) :
  comma_free (HexadecimalString.NilEmpty.string_of_uint d).
Proof.
  induction d; cbn [HexadecimalString.NilEmpty.string_of_uint];
    [reflexivity | apply comma_free_cons; [reflexivity | assumption] ..].
Qed.

Lemma fmt_d_comma_free (z : Z) : comma_free (fmt_d z).
Proof.
  unfold fmt_d, DecimalString.NilEmpty.string_of_int.
  destruct (Z.to_int z);
    [|apply comma_free_cons; [reflexivity|]];
    apply decimal_uint_comma_free.
Qed.

Lemma fmt_u_comma_free (z : Z) : comma_free (fmt_u z).
Proof. apply decimal_uint_comma_free. Qed.

Lemma fmt_x_comma_free (z : Z) : comma_free (fmt_x z).
Proof. apply hexadecimal_uint_comma_free. Qed.

Lemma fmt_lx_comma_free (z : Z) : comma_free (fmt_lx z).
Proof. apply hexadecimal_uint_comma_free. Qed.

Lemma PGUNSIXBIT_not_comma (val : Z) :
  Ascii.eqb (PGUNSIXBIT val) comma = false.
Proof.
  unfold PGUNSIXBIT.
  change 63 with (Z.ones 6). rewrite Z.land_ones by lia.
  pose proof (Z.mod_pos_bound val (2 ^ 6) ltac:(lia)) as B.
  set (k := val mod 2 ^ 6) in *.
  assert (Hall : forallb
                   (fun i => negb (Ascii.eqb
                                     (ascii_of_N (Z.to_N (Z.of_nat i + 48)))
                                     comma))
                   (List.seq 0 64) = true) by (vm_compute; reflexivity).
  rewrite forallb_forall in Hall.
  specialize (Hall (Z.to_nat k)).
  rewrite Z2Nat.id in Hall by lia.
  apply negb_true_iff, Hall, in_seq.
  change (2 ^ 6) with 64 in B. lia.
Qed.

Lemma unpack_sql_state_comma_free (sql_state : Z) :
  comma_free (unpack_sql_state sql_state).
Proof.
  unfold unpack_sql_state. generalize 5%nat. intros i. revert sql_state.
  induction i as [|i IH]; intros sql_state; cbn [unpack_sql_state_from];
    [reflexivity|].
  apply comma_free_cons; [apply PGUNSIXBIT_not_comma | apply IH].
Qed.

Lemma opt_text_comma_free (o : option string) :
  opt_comma_free o -> comma_free (opt_text o).
Proof. destruct o; [intros H; exact H | reflexivity]. Qed.

Lemma audit_line_field_count_general
    (e : env) (edata : ErrorData) (n : Z) (s : state) (msg : string) :
  message edata = Some msg ->
  forall fields,
    fields = audit_fields e edata msg n (audit_line_state e s) ->
    pgauditlogtofile_create_audit_line "" e edata n s
    = Ok (join_fields fields ++ String newline "", audit_line_state e s)
    /\ (Forall comma_free fields ->
        split_on comma (join_fields fields) = fields)
    /\ List.length
         (split_on comma (join_fields fields ++ String newline ""))
       = (22 + total_commas fields)%nat.
Proof.
  intros Hmsg fields ->.
  split; [exact (create_audit_line_fields "" e edata n s msg Hmsg)|].
  split; [intros Hfree; apply split_join_fields; exact Hfree|].
  rewrite split_on_length, count_char_app.
  rewrite (count_join_fields_length _ 21) by apply audit_fields_length.
  change (count_char comma (String newline "")) with 0%nat. lia.
Qed.

(** X14.  The numeric fields and the SQL state never contain a comma, so
    when none of the texts the formatter copies (timestamps, user,
    database, host, port, process title, message, detail, hint, internal
    query, context, statement, file name, application name) contains one
    and the source location has no function name, the line splits at the
    commas into exactly its 22 fields. *)
Theorem comma_free_texts_give_22_fields
    (e : env) (edata : ErrorData) (n : Z) (s : state) (msg : string) :
  message edata = Some msg ->
  text_values_comma_free e edata msg n (audit_line_state e s) ->
  let fields := audit_fields e edata msg n (audit_line_state e s) in
  pgauditlogtofile_create_audit_line "" e edata n s
  = Ok (join_fields fields ++ String newline "", audit_line_state e s)
  /\ split_on comma (join_fields fields) = fields
  /\ List.length
       (split_on comma (join_fields fields ++ String newline "")) = 22%nat.
Proof.
  intros Hmsg Htext fields.
  destruct Htext as (Hlt & Hst & Hport & Hm & Hdl & Hd & Hh & Hiq & Hc
                     & Hq & Happ & Hloc).
  assert (Hfree : Forall comma_free fields).
  { unfold fields, audit_fields.
    repeat apply Forall_cons; try apply Forall_nil;
      try assumption;
      try apply fmt_d_comma_free; try apply fmt_u_comma_free;
      try apply unpack_sql_state_comma_free;
      try (apply opt_text_comma_free; assumption).
    - destruct (MyProcPort e) as [p|]; [|reflexivity].
      apply opt_text_comma_free, Hport.
    - destruct (MyProcPort e) as [p|]; [|reflexivity].
      apply opt_text_comma_free, Hport.
    - destruct (MyProcPort e) as [p|]; [|reflexivity].
      destruct Hport as (_ & _ & Hhost & Hrport & _).
      destruct (remote_host p) as [host|]; [|reflexivity].
      apply comma_free_app; [exact Hhost|].
      destruct (remote_port p) as [rport|]; [|reflexivity].
      destruct (negb (head_byte rport =? 0)); [|reflexivity].
      apply comma_free_cons; [reflexivity | exact Hrport].
    - apply comma_free_app; [apply fmt_lx_comma_free|].
      apply comma_free_cons; [reflexivity | apply fmt_x_comma_free].
    - destruct (MyProcPort e) as [p|]; [|reflexivity]. apply Hport.
    - destruct (MyProc e) as [proc|]; [|reflexivity].
      destruct (negb (backendId proc =? InvalidBackendId)); [|reflexivity].
      apply comma_free_app; [apply fmt_d_comma_free|].
      apply comma_free_cons; [reflexivity | apply fmt_u_comma_free].
    - destruct (detail_log edata); [exact Hdl|].
      apply opt_text_comma_free, Hd.
    - destruct ((internalpos edata >? 0) && is_some (internalquery edata));
        [apply fmt_d_comma_free | reflexivity].
    - destruct (debug_query_string e) as [q|]; [|reflexivity].
      destruct (hide_stmt edata); [reflexivity|].
      cbn [is_some negb andb opt_text]. apply (Hq eq_refl).
    - destruct ((is_some (debug_query_string e) && negb (hide_stmt edata))
                && (cursorpos edata >? 0));
        [apply fmt_d_comma_free | reflexivity].
    - destruct (Log_error_verbosity e >=? PGERROR_VERBOSE); [|reflexivity].
      destruct (Hloc eq_refl) as [Hnone | [Hnone Hfile]]; rewrite Hnone.
      + destruct (funcname edata); reflexivity.
      + destruct (ed_filename edata) as [file|]; [|reflexivity].
        apply comma_free_app; [exact Hfile|].
        apply comma_free_cons; [reflexivity | apply fmt_d_comma_free]. }
  destruct (audit_line_field_count_general e edata n s msg Hmsg fields eq_refl)
    as (Hrun & Hsplit & Hlen).
  split; [exact Hrun|].
  split; [apply Hsplit, Hfree|].
  rewrite Hlen.
  assert (Hz : total_commas fields = 0%nat).
  { clear -Hfree. induction Hfree as [|f rest Hf _ IH]; [reflexivity|].
    cbn [total_commas fold_right]. unfold comma_free in Hf.
    unfold total_commas in IH. rewrite Hf, IH. reflexivity. }
  rewrite Hz. reflexivity.
Qed.

Lemma comma_free_texts_give_22_fields_witness :
  split_on comma
    (join_fields
       (audit_fields (utc_env day0) (event_with_message "AUDIT: select 1")
          "AUDIT: select 1" 7 (audit_line_state (utc_env day0) boot_state)))
  = audit_fields (utc_env day0) (event_with_message "AUDIT: select 1")
      "AUDIT: select 1" 7 (audit_line_state (utc_env day0) boot_state).
Proof.
  apply (comma_free_texts_give_22_fields (utc_env day0)
           (event_with_message "AUDIT: select 1") 7 boot_state
           "AUDIT: select 1" eq_refl).
  repeat split. intros H. discriminate H.
Defined.

(** ** Milliseconds in the record time *)

Lemma append_length (a b : string) :
  String.length (a ++ b) = (String.length a + String.length b)%nat.
Proof.
  induction a as [|c a IH]; cbn [append String.length];
    [reflexivity | rewrite IH; reflexivity].
Qed.

Lemma string_drop_length (n : nat) :
  forall s, String.length (string_drop n s) = (String.length s - n)%nat.
Proof.
  induction n as [|n IH]; intros s; cbn [string_drop].
  - lia.
  - destruct s as [|c r]; cbn [String.length]; [reflexivity | apply IH].
Qed.

Lemma fmt_03d_length (k : Z) :
  0 <= k < 1000 -> String.length (fmt_03d k) = 3%nat.
Proof.
  intros Hk.
  assert (Hall : forallb
                   (fun i => Nat.eqb (String.length (fmt_03d (Z.of_nat i))) 3)
                   (List.seq 0 1000) = true) by (vm_compute; reflexivity).
  rewrite forallb_forall in Hall.
  specialize (Hall (Z.to_nat k)).
  rewrite Z2Nat.id in Hall by lia.
  apply Nat.eqb_eq, Hall, in_seq. lia.
Qed.

(** X15.  pgauditlogtofile_format_log_time overwrites the four blanks
    that the format leaves after the seconds with a dot and the three
    digits of the milliseconds: the text keeps its length, its first 19
    characters and everything from the 24th on. *)
Theorem log_time_carries_milliseconds (e : env) (s : state) :
  let text :=
    pg_strftime e FORMATTED_TS_LEN "%Y-%m-%d %H:%M:%S     %Z" (tv_sec e) in
  let ms := fmt_03d (tv_usec e / 1000) in
  (23 <= String.length text)%nat ->
  0 <= tv_usec e < 1000000 ->
  formatted_log_time (pgauditlogtofile_format_log_time e s)
  = string_take 19 text ++ "." ++ ms ++ string_drop 23 text
  /\ String.length ms = 3%nat
  /\ String.length (formatted_log_time (pgauditlogtofile_format_log_time e s))
     = String.length text.
Proof.
  intros text ms Hlen Husec.
  assert (Hq : int32 (Z.quot (tv_usec e) 1000) = tv_usec e / 1000).
  { rewrite Z.quot_div_nonneg by lia.
    apply int32_small.
    assert (2 ^ 31 = 2147483648) by reflexivity.
    pose proof (Z.div_pos (tv_usec e) 1000 ltac:(lia) ltac:(lia)).
    assert (tv_usec e / 1000 < 1000)
      by (apply Z.div_lt_upper_bound; lia).
    lia. }
  assert (Hms : String.length ms = 3%nat).
  { apply fmt_03d_length. split.
    - apply Z.div_pos; lia.
    - apply Z.div_lt_upper_bound; lia. }
  assert (Hval : formatted_log_time (pgauditlogtofile_format_log_time e s)
                 = string_take 19 text ++ "." ++ ms ++ string_drop 23 text).
  { unfold pgauditlogtofile_format_log_time. cbv zeta. sproj.
    fold text. rewrite Hq. fold ms.
    unfold memcpy_at.
    change (String.length ("." ++ ms)) with (S (String.length ms)).
    rewrite Hms.
    destruct (Nat.leb_spec (19 + 4) (String.length text)) as [_|Hshort];
      [|lia].
    rewrite append_assoc. reflexivity. }
  split; [exact Hval|]. split; [exact Hms|].
  rewrite Hval.
  destruct (string_take_drop 19 text ltac:(lia)) as [_ Ht].
  rewrite !append_length, Ht, Hms, string_drop_length.
  cbn [String.length]. lia.
Qed.

Lemma log_time_carries_milliseconds_witness :
  formatted_log_time (pgauditlogtofile_format_log_time stamped_env boot_state)
  = "2020-09-13 10:15:00.123 UTC".
Proof.
  destruct (log_time_carries_milliseconds stamped_env boot_state)
    as [Hval _].
  - cbn. lia.
  - cbn. lia.
  - rewrite Hval. reflexivity.
Defined.

(** ** Rotation by time and start-up *)

(** The clock followed by the filename deriver. *)
Lemma clock_then_filename (e : env) (s : state) (dir pat : string) :
  guc_pgaudit_log_directory s = Some dir ->
  guc_pgaudit_log_filename s = Some pat ->
  valid_rotation_age (guc_pgaudit_log_rotation_age s) ->
  clock_in_range (time_calc e) (tm_gmtoff e (time_calc e)) ->
  0 <= time_calc e + tm_gmtoff e (time_calc e) ->
  exists nrt,
    pgauditlogtofile_calculate_next_rotation_time e s
    = Ok (set_next_rotation_time nrt s)
    /\ pgauditlogtofile_calculate_filename e (set_next_rotation_time nrt s)
       = Ok (set_filename
               (snprintf_s MAXPGPATH (dir ++ "/")
                ++ pg_strftime e
                     (MAXPGPATH
                      - Z.of_nat
                          (String.length (snprintf_s MAXPGPATH (dir ++ "/"))))
                     pat (nrt - guc_pgaudit_log_rotation_age s * 60))
               (set_next_rotation_time nrt s))
    /\ nrt - guc_pgaudit_log_rotation_age s * 60 <= time_calc e < nrt
    /\ (nrt - guc_pgaudit_log_rotation_age s * 60
        + tm_gmtoff e (time_calc e))
         mod (guc_pgaudit_log_rotation_age s * 60) = 0.
Proof.
  intros Hdir Hpat Hage Hrange Hpos.
  destruct (rotinterval_small _ Hage) as [Hr Hb].
  assert (P62 : 2 ^ 62 = 4611686018427387904) by reflexivity.
  assert (P63 : 2 ^ 63 = 9223372036854775808) by reflexivity.
  assert (P32 : 2 ^ 32 = 4294967296) by reflexivity.
  assert (P31 : 2 ^ 31 = 2147483648) by reflexivity.
  assert (Hnow : int64 (time_calc e) = time_calc e).
  { apply int64_small. destruct Hrange as [[? ?] _]. lia. }
  pose proof (rotation_clock_value _ _ _ Hage Hrange) as Hclock.
  destruct (window_contains_now _ _ _ _ Hage Hrange Hpos Hclock) as [Hwin Hal].
  eexists. split.
  { unfold pgauditlogtofile_calculate_next_rotation_time.
    rewrite Hnow, Hclock. reflexivity. }
  split; [|split; [exact Hwin | exact Hal]].
  unfold pgauditlogtofile_calculate_filename. sproj. rewrite Hdir, Hpat.
  cbn [fmt_s]. unfold current_rotation_time. sproj. rewrite Hr.
  rewrite int64_small; [reflexivity|].
  destruct Hrange as [[? ?] [? ?]]. lia.
Qed.

Lemma close_file_target (s : state) :
  filename (pgauditlogtofile_close_file s) = filename s
  /\ next_rotation_time (pgauditlogtofile_close_file s) = next_rotation_time s
  /\ guc_pgaudit_log_directory (pgauditlogtofile_close_file s)
     = guc_pgaudit_log_directory s.
Proof.
  unfold pgauditlogtofile_close_file.
  destruct (file_handler s); repeat split.
Qed.

Lemma open_file_target (e : env) (s : state) :
  next_rotation_time (snd (pgauditlogtofile_open_file e s))
  = next_rotation_time s.
Proof.
  unfold pgauditlogtofile_open_file.
  destruct (guc_pgaudit_log_directory s); sproj;
    destruct (fopen_succeeds e (filename s)); reflexivity.
Qed.

Lemma write_audit_total (e : env) (edata : ErrorData) (n : Z) (s : state)
    (msg : string) (f : FILE) :
  message edata = Some msg ->
  file_handler s = Some f ->
  exists recorded s',
    pgauditlogtofile_write_audit e edata n s = Ok (recorded, s')
    /\ file_handler s' = Some f
    /\ filename s' = filename s
    /\ filename_in_use s' = filename_in_use s
    /\ next_rotation_time s' = next_rotation_time s.
Proof.
  intros Hmsg Hf.
  unfold pgauditlogtofile_write_audit.
  rewrite (create_audit_line_fields "" e edata n s msg Hmsg). cbn [bind].
  destruct (audit_line_state_shape e s) as (a & b & c & d & E).
  rewrite E. sproj. rewrite Hf.
  destruct (negb _); do 2 eexists; (split; [reflexivity|]); sproj;
    repeat split; assumption.
Qed.



(** X16.  When the start-up hook creates the SHM structure it clears the
    flag and computes the rotation time and the target name for the
    interval-aligned window that contains the clock reading; it opens
    nothing. *)
Theorem startup_computes_target
    (e : env) (s : state) (dir pat : string) :
  guc_pgaudit_log_directory s = Some dir ->
  guc_pgaudit_log_filename s = Some pat ->
  valid_rotation_age (guc_pgaudit_log_rotation_age s) ->
  clock_in_range (time_calc e) (tm_gmtoff e (time_calc e)) ->
  0 <= time_calc e + tm_gmtoff e (time_calc e) ->
  let interval := guc_pgaudit_log_rotation_age s * 60 in
  let buf := snprintf_s MAXPGPATH (dir ++ "/") in
  exists s',
    pgauditlogtofile_shmem_startup None e s = Ok s'
    /\ pgaudit_log_shm s' = Some {| force_rotation := false |}
    /\ next_rotation_time s' - interval <= time_calc e < next_rotation_time s'
    /\ (next_rotation_time s' - interval + tm_gmtoff e (time_calc e))
         mod interval = 0
    /\ filename s'
       = buf ++ pg_strftime e (MAXPGPATH - Z.of_nat (String.length buf)) pat
                  (next_rotation_time s' - interval)
    /\ file_handler s' = file_handler s
    /\ filename_in_use s' = filename_in_use s
    /\ io s' = io s.
Proof.
  intros Hdir Hpat Hage Hrange Hpos interval buf.
  destruct (clock_then_filename e
              (set_shm (Some {| force_rotation := false |}) s) dir pat
              Hdir Hpat Hage Hrange Hpos)
    as (nrt & Hcalc & Hname & Hwin & Hal).
  unfold pgauditlogtofile_shmem_startup.
  rewrite Hcalc. cbn [bind]. rewrite Hname.
  eexists. split; [reflexivity|]. sproj.
  split; [reflexivity|]. split; [exact Hwin|]. split; [exact Hal|].
  repeat split.
Qed.

Lemma startup_computes_target_witness :
  exists s',
    pgauditlogtofile_shmem_startup None (postmaster_env (at_clock 10 15))
      boot_state = Ok s'
    /\ pgaudit_log_shm s' = Some {| force_rotation := false |}
    /\ next_rotation_time s' - 1440 * 60 <= at_clock 10 15
       < next_rotation_time s'
    /\ (next_rotation_time s' - 1440 * 60 + 0) mod (1440 * 60) = 0.
Proof.
  destruct (startup_computes_target (postmaster_env (at_clock 10 15))
              boot_state "log" "audit-%Y%m%d_%H%M.log")
    as (s' & Hrun & Hflag & Hwin & Hal & _).
  - reflexivity.
  - reflexivity.
  - unfold valid_rotation_age; simpl; split; [lia | discriminate].
  - unfold clock_in_range; simpl; split; split; discriminate.
  - discriminate.
  - exists s'. split; [exact Hrun|]. split; [exact Hflag|].
    split; [exact Hwin | exact Hal].
Defined.

(** ** Forced rotation and the rotation time *)

(** A call of pgauditlogtofile_record_audit that finds the flag set. *)
Lemma flagged_record_audit
    (e : env) (edata : ErrorData) (n : Z) (s : state)
    (shm : pgAuditLogToFileShm) (dir pat msg : string) :
  pgaudit_log_shm s = Some shm ->
  force_rotation shm = true ->
  guc_pgaudit_log_directory s = Some dir ->
  guc_pgaudit_log_filename s = Some pat ->
  message edata = Some msg ->
  let buf := snprintf_s MAXPGPATH (dir ++ "/") in
  let target :=
    buf ++ pg_strftime e (MAXPGPATH - Z.of_nat (String.length buf)) pat
             (current_rotation_time s) in
  exists recorded s',
    pgauditlogtofile_record_audit e edata n s = Ok (recorded, s')
    /\ filename s' = target
    /\ next_rotation_time s' = next_rotation_time s
    /\ (fopen_succeeds e target = true ->
        file_handler s' = Some (Stream target)
        /\ filename_in_use s' = target)
    /\ (fopen_succeeds e target = false ->
        recorded = false /\ file_handler s' = None
        /\ filename_in_use s' = filename_in_use s).
Proof.
  intros Hshm Hforce Hdir Hpat Hmsg buf target.
  unfold pgauditlogtofile_record_audit, pgauditlogtofile_needs_rotate_file.
  rewrite Hshm, Hforce. cbn [bind].
  unfold pgauditlogtofile_calculate_filename. sproj.
  rewrite Hdir, Hpat. cbn [bind fmt_s].
  change (current_rotation_time
            (set_shm (Some {| force_rotation := false |}) s))
    with (current_rotation_time s).
  fold buf. fold target.
  set (s1 := set_filename target
               (set_shm (Some {| force_rotation := false |}) s)).
  destruct (close_file_target s1) as (Hn2 & Hr2 & _).
  destruct (close_file_invariant s1) as (_ & Hnone & Hu2).
  set (s2 := pgauditlogtofile_close_file s1) in *.
  unfold s1 in Hn2, Hr2, Hu2. sproj. clearbody s2. clear s1.
  unfold pgauditlogtofile_is_open_file. rewrite Hnone. cbn [negb].
  destruct (open_file_session e s2) as (Hfst & Hok & Hfail).
  pose proof (open_file_filename e s2) as Hn3.
  pose proof (open_file_target e s2) as Hr3.
  destruct (pgauditlogtofile_open_file e s2) as [opened s3].
  cbn [fst snd] in *. rewrite Hn2 in *.
  destruct opened; cbn [negb].
  - destruct (Hok (eq_sym Hfst)) as [Hh3 Hu3].
    destruct (write_audit_total e edata n s3 msg (Stream target) Hmsg Hh3)
      as (recorded & s' & Hrun & Hh & Hn & Hu & Hr).
    exists recorded, s'. split; [exact Hrun|].
    split; [congruence|]. split; [congruence|].
    split; [intros _; split; congruence|].
    intros Hbad. congruence.
  - destruct (Hfail (eq_sym Hfst)) as [Hh3 Hu3].
    exists false, s3. split; [reflexivity|].
    split; [congruence|]. split; [congruence|].
    split; [intros Hgood; congruence|].
    intros _. repeat split; congruence.
Qed.

(** X18.  A forced rotation does not consult the clock.  After a change
    of [pgaudit.log_rotation_age] the next recorded event keeps
    [next_rotation_time] as it was and renders the name for that old
    boundary minus the new interval; the boundary itself is recomputed
    only by a later event that finds the clock at or past it. *)
Theorem interval_change_keeps_boundary
    (e0 e : env) (edata : ErrorData) (n : Z) (s : state)
    (shm : pgAuditLogToFileShm) (dir pat msg : string) (newval : Z) :
  UsedShmemSegAddr e0 = true ->
  guc_int_accepts pgaudit_log_rotation_age_guc newval = true ->
  pgaudit_log_shm s = Some shm ->
  guc_pgaudit_log_directory s = Some dir ->
  guc_pgaudit_log_filename s = Some pat ->
  message edata = Some msg ->
  let buf := snprintf_s MAXPGPATH (dir ++ "/") in
  exists s1 recorded s',
    guc_assign_rotation_age newval e0 s = Ok s1
    /\ guc_pgaudit_log_rotation_age s1 = newval
    /\ pgauditlogtofile_record_audit e edata n s1 = Ok (recorded, s')
    /\ next_rotation_time s' = next_rotation_time s
    /\ filename s'
       = buf ++ pg_strftime e (MAXPGPATH - Z.of_nat (String.length buf)) pat
                  (int64 (next_rotation_time s - newval * 60)).
Proof.
  intros Hatt Hacc Hshm Hdir Hpat Hmsg buf.
  destruct (accepted_rotation_age_fits newval Hacc) as [Hr _].
  assert (Hs1 : exists s1 shm1,
             guc_assign_rotation_age newval e0 s = Ok s1
             /\ pgaudit_log_shm s1 = Some shm1
             /\ force_rotation shm1 = true
             /\ guc_pgaudit_log_directory s1 = Some dir
             /\ guc_pgaudit_log_filename s1 = Some pat
             /\ guc_pgaudit_log_rotation_age s1 = newval
             /\ next_rotation_time s1 = next_rotation_time s).
  { unfold guc_assign_rotation_age, pgauditlogtofile_request_rotation.
    rewrite Hacc, Hatt, Hshm. cbn [negb].
    destruct shm as [[|]]; cbn [force_rotation negb bind];
      eexists; eexists; (split; [reflexivity|]); sproj;
      rewrite ?Hshm; repeat split; try reflexivity; assumption. }
  destruct Hs1 as (s1 & shm1 & Hassign & Hshm1 & Hforce & Hdir1 & Hpat1
                   & Hage1 & Hnrt1).
  destruct (flagged_record_audit e edata n s1 shm1 dir pat msg
              Hshm1 Hforce Hdir1 Hpat1 Hmsg)
    as (recorded & s' & Hrun & Hname & Hnrt & _).
  exists s1, recorded, s'.
  split; [exact Hassign|]. split; [exact Hage1|]. split; [exact Hrun|].
  split; [congruence|].
  rewrite Hname. unfold current_rotation_time.
  rewrite Hage1, Hnrt1, Hr. reflexivity.
Qed.

(** From 60 minutes to a day at 10:15: the boundary stays at 11:00 and
    the name is rendered for 11:00 of the day before. *)
Lemma interval_change_keeps_boundary_witness :
  exists s1 recorded s',
    guc_assign_rotation_age 1440 (utc_env (at_clock 10 15))
      (backend_state 60 (at_clock 11 0) "log/audit.log") = Ok s1
    /\ pgauditlogtofile_record_audit (utc_env (at_clock 10 16))
         (event_with_message "AUDIT: SESSION") 7 s1 = Ok (recorded, s')
    /\ next_rotation_time s' = at_clock 11 0
    /\ current_rotation_time s' = at_clock 11 0 - 86400.
Proof.
  destruct (interval_change_keeps_boundary (utc_env (at_clock 10 15))
              (utc_env (at_clock 10 16))
              (event_with_message "AUDIT: SESSION") 7
              (backend_state 60 (at_clock 11 0) "log/audit.log")
              {| force_rotation := false |} "log" "audit.log"
              "AUDIT: SESSION" 1440)
    as (s1 & recorded & s' & Hassign & Hage & Hrun & Hnrt & _).
  - reflexivity.
  - reflexivity.
  - reflexivity.
  - reflexivity.
  - reflexivity.
  - reflexivity.
  - exists s1, recorded, s'.
    split; [exact Hassign|]. split; [exact Hrun|]. split; [exact Hnrt|].
    vm_compute in Hassign. injection Hassign as <-.
    vm_compute in Hrun. injection Hrun as _ <-. reflexivity.
Defined.

(** ** The buffer of the target name *)

Lemma string_take_all (n : nat) :
  forall s, (String.length s <= n)%nat -> string_take n s = s.
Proof.
  induction n as [|n IH]; intros s Hlen.
  - destruct s; [reflexivity | cbn in Hlen; lia].
  - destruct s as [|c r]; [reflexivity|].
    cbn [string_take]. rewrite IH; [reflexivity|].
    cbn [String.length] in Hlen. lia.
Qed.

Lemma string_take_app_long (n : nat) :
  forall a b,
    (n <= String.length a)%nat -> string_take n (a ++ b) = string_take n a.
Proof.
  induction n as [|n IH]; intros a b Hlen.
  - destruct a, b; reflexivity.
  - destruct a as [|c r]; [cbn in Hlen; lia|].
    cbn [append string_take]. rewrite IH; [reflexivity|].
    cbn [String.length] in Hlen. lia.
Qed.

(** X21.  pgauditlogtofile_calculate_filename keeps a directory of fewer
    than MAXPGPATH - 1 characters whole, followed by the slash, and gives
    pg_strftime the rest of the buffer; a longer directory is cut to
    MAXPGPATH - 1 characters, the slash is lost and pg_strftime gets one
    byte.  A NULL directory is printed as ["(null)"], so that the call
    returns with a name under ["(null)/"]; only a NULL pattern traps. *)
Theorem filename_directory_part (e : env) (s : state) :
  (forall dir pat,
      guc_pgaudit_log_directory s = Some dir
      \/ guc_pgaudit_log_directory s = None /\ dir = "(null)" ->
      guc_pgaudit_log_filename s = Some pat ->
      exists buf room,
        pgauditlogtofile_calculate_filename e s
        = Ok (set_filename
                (buf ++ pg_strftime e room pat (current_rotation_time s)) s)
        /\ 1 <= room <= MAXPGPATH
        /\ Z.of_nat (String.length buf) + room = MAXPGPATH
        /\ ((String.length dir < 1023)%nat -> buf = dir ++ "/")
        /\ ((1023 <= String.length dir)%nat -> buf = string_take 1023 dir))
  /\ (guc_pgaudit_log_filename s = None ->
      pgauditlogtofile_calculate_filename e s = Fault NullDereference).
Proof.
  split.
  - intros dir pat Hdir Hpat.
    assert (Htext : fmt_s (guc_pgaudit_log_directory s) = dir).
    { destruct Hdir as [-> | [-> ->]]; reflexivity. }
    unfold pgauditlogtofile_calculate_filename. rewrite Htext, Hpat.
    unfold snprintf_s, MAXPGPATH.
    change (Z.to_nat (1024 - 1)) with 1023%nat.
    do 2 eexists. split; [reflexivity|].
    destruct (Nat.lt_ge_cases (String.length dir) 1023) as [Hshort|Hlong].
    + assert (E : string_take 1023 (dir ++ "/") = dir ++ "/").
      { apply string_take_all. rewrite append_length. cbn. lia. }
      rewrite E, append_length. cbn [String.length].
      split; [lia|]. split; [lia|].
      split; [intros _; reflexivity | intros H; lia].
    + rewrite (string_take_app_long 1023 dir "/" Hlong).
      destruct (string_take_drop 1023 dir Hlong) as [_ L]. rewrite L.
      split; [lia|]. split; [lia|].
      split; [intros H; lia | intros _; reflexivity].
  - intros H. unfold pgauditlogtofile_calculate_filename. rewrite H.
    reflexivity.
Qed.

(** No directory configured: the name is derived under ["(null)/"]. *)
Lemma filename_directory_part_witness :
  exists buf room,
    pgauditlogtofile_calculate_filename (utc_env (at_clock 10 15))
      (set_gucs None (Some "audit.log") 60 false false
         (backend_state 60 (at_clock 11 0) ""))
    = Ok (set_filename
            (buf ++ pg_strftime (utc_env (at_clock 10 15)) room "audit.log"
                      (at_clock 10 0))
            (set_gucs None (Some "audit.log") 60 false false
               (backend_state 60 (at_clock 11 0) "")))
    /\ buf = "(null)/".
Proof.
  destruct (filename_directory_part (utc_env (at_clock 10 15))
              (set_gucs None (Some "audit.log") 60 false false
                 (backend_state 60 (at_clock 11 0) ""))) as [Hsome _].
  destruct (Hsome "(null)" "audit.log"
              (or_intror (conj eq_refl eq_refl)) eq_refl)
    as (buf & room & Hrun & _ & _ & Hshort & _).
  exists buf, room. split; [exact Hrun|].
  apply Hshort. cbn. lia.
Defined.

(** ** Retrying the open *)

(** X22.  A backend without an open stream tries [fopen] on the current
    target name with every event it records, whether or not the rotation
    check asked for a rotation: a failed open is retried by the next
    event, and the event is reported as not recorded when it fails
    again. *)
Theorem closed_session_retries_open
    (e : env) (edata : ErrorData) (n : Z) (s : state)
    (shm : pgAuditLogToFileShm) (dir pat msg : string) :
  pgaudit_log_shm s = Some shm ->
  guc_pgaudit_log_directory s = Some dir ->
  guc_pgaudit_log_filename s = Some pat ->
  valid_rotation_age (guc_pgaudit_log_rotation_age s) ->
  message edata = Some msg ->
  file_handler s = None ->
  exists recorded s',
    pgauditlogtofile_record_audit e edata n s = Ok (recorded, s')
    /\ In (IoFopen (filename s') (fopen_succeeds e (filename s'))) (io s')
    /\ (fopen_succeeds e (filename s') = false ->
        recorded = false /\ file_handler s' = None)
    /\ (fopen_succeeds e (filename s') = true ->
        file_handler s' = Some (Stream (filename s'))).
Proof.
  intros Hshm Hdir Hpat Hage Hmsg Hclosed.
  rewrite record_audit_phases.
  destruct (rotation_phase e s shm dir pat Hshm Hdir Hpat Hage)
    as (s2 & evs0 & -> & _ & _ & _ & _ & _ & Hrot).
  cbn [bind].
  assert (Hnone : file_handler s2 = None).
  { destruct Hrot as [H | [-> _]]; assumption. }
  unfold pgauditlogtofile_is_open_file. rewrite Hnone. cbn [negb].
  assert (Hopen : exists evs,
             io (snd (pgauditlogtofile_open_file e s2))
             = (evs ++ IoFopen (filename s2) (fopen_succeeds e (filename s2))
                       :: match guc_pgaudit_log_directory s2 with
                          | Some d => [IoMkdir d]
                          | None => []
                          end ++ io s2)%list).
  { unfold pgauditlogtofile_open_file.
    destruct (guc_pgaudit_log_directory s2); sproj;
      destruct (fopen_succeeds e (filename s2)); sproj;
      (exists [] ; reflexivity) || (eexists [_]; reflexivity). }
  destruct Hopen as (evs1 & Hio3).
  destruct (open_file_session e s2) as (Hfst & Hok & Hfail).
  pose proof (open_file_filename e s2) as Hn3.
  destruct (pgauditlogtofile_open_file e s2) as [opened s3].
  cbn [fst snd] in *.
  destruct opened; cbn [negb].
  - destruct (Hok (eq_sym Hfst)) as [Hh3 _].
    destruct (write_audit_total e edata n s3 msg _ Hmsg Hh3)
      as (recorded & s' & Hrun & Hh & Hn & _ & _).
    exists recorded, s'. split; [exact Hrun|].
    destruct (write_audit_frame _ _ _ _ _ _ Hrun)
      as (_ & _ & f & data & rc & warn & _ & Hio').
    rewrite Hn, Hn3.
    split.
    { rewrite Hio', Hio3. apply in_or_app. right. right.
      apply in_or_app. right. left. reflexivity. }
    split; [intros Hbad; congruence|].
    intros _. exact Hh.
  - destruct (Hfail (eq_sym Hfst)) as [Hh3 _].
    exists false, s3. split; [reflexivity|]. rewrite Hn3.
    split.
    { rewrite Hio3. apply in_or_app. right. left. reflexivity. }
    split; [intros _; split; [reflexivity | exact Hh3]|].
    intros Hgood. congruence.
Qed.

Lemma closed_session_retries_open_witness :
  exists recorded s',
    pgauditlogtofile_record_audit (unwritable_env (at_clock 10 15))
      (event_with_message "AUDIT: SESSION") 7
      (backend_state 60 (at_clock 11 0) "log/audit.log") = Ok (recorded, s')
    /\ In (IoFopen (filename s')
             (fopen_succeeds (unwritable_env (at_clock 10 15)) (filename s')))
         (io s').
Proof.
  destruct (closed_session_retries_open (unwritable_env (at_clock 10 15))
              (event_with_message "AUDIT: SESSION") 7
              (backend_state 60 (at_clock 11 0) "log/audit.log")
              {| force_rotation := false |} "log" "audit.log"
              "AUDIT: SESSION")
    as (recorded & s' & Hrun & Hin & _).
  - reflexivity.
  - reflexivity.
  - reflexivity.
  - unfold valid_rotation_age; simpl; split; [lia | discriminate].
  - reflexivity.
  - reflexivity.
  - exists recorded, s'. split; [exact Hrun | exact Hin].
Defined.
